(** * chroma-bridge: ticket / PDF ingestion into a vector store

    A shallow embedding of the repository's Python sources
    ([incident.py], [document.py], [app.py]) together with models of the
    collaborators they call (the Python runtime primitives, the ChromaDB
    client and the text splitter), followed by the properties of the
    incremental synchronisation engine.

    Python strings are modelled as [string]; a character stands for the
    code point of the same number (code points below 256). *)

From Stdlib Require Import ZArith String Ascii List Lia Bool.
From stdpp Require Import base option gmap strings list.

Local Open Scope string_scope.
Local Open Scope Z_scope.

(* ===================================================================== *)
(** * Python runtime primitives *)
(* ===================================================================== *)

Module Py.

(** Exceptions carry their class and the text [str(e)] yields. *)
Inductive exn_kind : Type :=
| ValueError | TypeError | AttributeError | OtherException.

Record exn : Type := Exn { exn_class : exn_kind; exn_str : string }.

Definition result (A : Type) : Type := (exn + A)%type.

#[global] Instance exn_kind_eq_dec : EqDecision exn_kind.
Proof. solve_decision. Defined.

Definition is_ValueError (e : exn) : bool :=
  match exn_class e with ValueError => true | _ => false end.

(** ** Characters *)

Definition code (c : ascii) : Z := Z.of_N (N_of_ascii c).

(** [\d] on code points below 256. *)
Definition isdigit (c : ascii) : bool := (48 <=? code c) && (code c <=? 57).

Definition digit_val (c : ascii) : Z := code c - 48.

(** [str.isspace] / [\s] on code points below 256. *)
Definition isspace (c : ascii) : bool :=
  let n := code c in
  ((9 <=? n) && (n <=? 13)) || ((28 <=? n) && (n <=? 32))
  || (n =? 133) || (n =? 160).

Definition in_range (lo hi : Z) (c : ascii) : bool :=
  (lo <=? digit_val c) && (digit_val c <=? hi).

(** ** Strings *)

Definition len (s : string) : Z := Z.of_nat (String.length s).

Fixpoint lstrip (s : string) : string :=
  match s with
  | EmptyString => EmptyString
  | String c r => if isspace c then lstrip r else s
  end.

Fixpoint rstrip (s : string) : string :=
  match s with
  | EmptyString => EmptyString
  | String c r =>
      match rstrip r with
      | EmptyString => if isspace c then EmptyString else String c EmptyString
      | r' => String c r'
      end
  end.

(** [s.strip()] *)
Definition strip (s : string) : string := rstrip (lstrip s).

(** Truthiness of a string: [bool(s)]. *)
Definition truthy (s : string) : bool :=
  match s with EmptyString => false | _ => true end.

(** [s.split(c)] for a one-character separator. *)
Fixpoint split_char (sep : ascii) (s : string) : list string :=
  match s with
  | EmptyString => [EmptyString]
  | String c r =>
      if Ascii.eqb c sep then EmptyString :: split_char sep r
      else match split_char sep r with
           | [] => [String c EmptyString]
           | w :: ws => String c w :: ws
           end
  end.

(** [int(s)] on a run of decimal digits. *)
Fixpoint int_digits (acc : Z) (s : string) : Z :=
  match s with
  | EmptyString => acc
  | String c r => int_digits (10 * acc + digit_val c) r
  end.

Fixpoint take_while (p : ascii -> bool) (s : string) : string :=
  match s with
  | EmptyString => EmptyString
  | String c r => if p c then String c (take_while p r) else EmptyString
  end.

Fixpoint drop_while (p : ascii -> bool) (s : string) : string :=
  match s with
  | EmptyString => EmptyString
  | String c r => if p c then drop_while p r else s
  end.

(** [re.search(r'\d+', s)]: the leftmost maximal run of digits. *)
Definition search_digits (s : string) : option string :=
  match drop_while (fun c => negb (isdigit c)) s with
  | EmptyString => None
  | r => Some (take_while isdigit r)
  end.

(** [str(n)] for a natural number. *)
Definition digit_char (d : nat) : ascii := ascii_of_nat (48 + d).

Fixpoint str_nat_fuel (fuel n : nat) (acc : string) : string :=
  match fuel with
  | O => acc
  | S f =>
      let acc' := String (digit_char (n mod 10)) acc in
      match (n / 10)%nat with
      | O => acc'
      | q => str_nat_fuel f q acc'
      end
  end.

Definition str_nat (n : nat) : string := str_nat_fuel (S n) n EmptyString.

(** [str(z)] for an integer. *)
Definition str_int (z : Z) : string :=
  if z <? 0 then String "-" (str_nat (Z.to_nat (- z))) else str_nat (Z.to_nat z).

(** [n] zeros. *)
Fixpoint zeros (n : nat) : string :=
  match n with
  | O => EmptyString
  | S k => String "0" (zeros k)
  end.

(** Zero-padded decimal of width [w] ([%02d]): zeros are put in front
    until the width is reached. *)
Definition pad_left (w : nat) (s : string) : string :=
  zeros (w - String.length s) ++ s.

Definition fmt_int (w : nat) (z : Z) : string := pad_left w (str_int z).

(** [repr(s)] on code points below 256. The quote is the single one,
    unless the string holds a single quote and no double quote; the
    quote in use and the backslash are escaped, tab, line feed and
    carriage return are written [\t], [\n], [\r], and every other
    character that is not printable as [\xNN]. *)
Definition squote : ascii := ascii_of_nat 39.
Definition dquote : ascii := ascii_of_nat 34.
Definition backslash : ascii := ascii_of_nat 92.

Fixpoint has_char (c : ascii) (s : string) : bool :=
  match s with
  | EmptyString => false
  | String x r => Ascii.eqb x c || has_char c r
  end.

Definition quote_of (s : string) : ascii :=
  if has_char squote s && negb (has_char dquote s) then dquote else squote.

(** [str.isprintable] on code points below 256. *)
Definition printable (c : ascii) : bool :=
  let n := code c in
  ((32 <=? n) && (n <=? 126)) || ((161 <=? n) && negb (n =? 173)).

Definition hex_char (n : Z) : ascii :=
  if n <? 10 then ascii_of_nat (48 + Z.to_nat n) else ascii_of_nat (87 + Z.to_nat n).

Definition repr_char (q c : ascii) : string :=
  let n := code c in
  if Ascii.eqb c q || Ascii.eqb c backslash then String backslash (String c EmptyString)
  else if n =? 9 then String backslash "t"
  else if n =? 10 then String backslash "n"
  else if n =? 13 then String backslash "r"
  else if printable c then String c EmptyString
  else String backslash
         (String "x" (String (hex_char (n / 16)) (String (hex_char (n mod 16)) EmptyString))).

Fixpoint repr_body (q : ascii) (s : string) : string :=
  match s with
  | EmptyString => EmptyString
  | String c r => repr_char q c ++ repr_body q r
  end.

Definition repr (s : string) : string :=
  let q := quote_of s in
  String q (repr_body q s ++ String q EmptyString).

(** [max(l, key=key)] on a non-empty list: the first element whose key
    is maximal. *)
Fixpoint max_by_from {A : Type} (key : A -> Z) (best : A) (l : list A) : A :=
  match l with
  | [] => best
  | x :: r => if key best <? key x then max_by_from key x r
              else max_by_from key best r
  end.

Definition max_by {A : Type} (key : A -> Z) (l : list A) : option A :=
  match l with
  | [] => None
  | x :: r => Some (max_by_from key x r)
  end.

(** ** [datetime] *)

Record datetime : Type := DateTime {
  year : Z; month : Z; day : Z; hour : Z; minute : Z; second : Z
}.

Definition dt_tuple (d : datetime) : list Z :=
  [year d; month d; day d; hour d; minute d; second d].

(** Lexicographic comparison of the field tuples, as [datetime.__lt__]. *)
Fixpoint lex_lt (a b : list Z) : bool :=
  match a, b with
  | x :: a', y :: b' => (x <? y) || ((x =? y) && lex_lt a' b')
  | [], _ :: _ => true
  | _, _ => false
  end.

Definition dt_lt (a b : datetime) : bool := lex_lt (dt_tuple a) (dt_tuple b).

Definition is_leap (y : Z) : bool :=
  ((y mod 4 =? 0) && negb (y mod 100 =? 0)) || (y mod 400 =? 0).

Definition days_in_month (y m : Z) : Z :=
  if m =? 2 then (if is_leap y then 29 else 28)
  else if (m =? 4) || (m =? 6) || (m =? 9) || (m =? 11) then 30
  else 31.

(** A backtracking matcher: the alternatives of a group, in the order the
    regular-expression engine tries them, each with the text left over. *)
Definition matcher (A : Type) : Type := string -> list (A * string).

Definition m_ret {A : Type} (a : A) : matcher A := fun s => [(a, s)].

Definition m_bind {A B : Type} (m : matcher A) (f : A -> matcher B) : matcher B :=
  fun s => flat_map (fun '(a, r) => f a r) (m s).

Definition m_alt {A : Type} (m1 m2 : matcher A) : matcher A :=
  fun s => (m1 s ++ m2 s)%list.

Definition m_char (p : ascii -> bool) : matcher ascii :=
  fun s => match s with
           | String c r => if p c then [(c, r)] else []
           | EmptyString => []
           end.

Definition m_lit (c : ascii) : matcher unit :=
  m_bind (m_char (Ascii.eqb c)) (fun _ => m_ret tt).

(** One digit in the given range. *)
Definition m_digit (lo hi : Z) : matcher Z :=
  m_bind (m_char (fun c => isdigit c && in_range lo hi c))
         (fun c => m_ret (digit_val c)).

(** Two digits, the first in [lo1..hi1], the second in [lo2..hi2]. *)
Definition m_digit2 (lo1 hi1 lo2 hi2 : Z) : matcher Z :=
  m_bind (m_digit lo1 hi1) (fun a =>
  m_bind (m_digit lo2 hi2) (fun b => m_ret (10 * a + b))).

(** [\s+], greedy: the longest run first, then each shorter one. *)
Fixpoint m_spaces1 (s : string) : list (unit * string) :=
  match s with
  | String c r => if isspace c then (m_spaces1 r ++ [(tt, r)])%list else []
  | EmptyString => []
  end.

(** The groups of [_strptime.TimeRE] used by ['%Y-%m-%d %H:%M:%S']. *)
Definition re_Y : matcher Z :=
  m_bind (m_digit 0 9) (fun a => m_bind (m_digit 0 9) (fun b =>
  m_bind (m_digit 0 9) (fun c => m_bind (m_digit 0 9) (fun d =>
  m_ret (1000 * a + 100 * b + 10 * c + d))))).

(** [1[0-2]|0[1-9]|[1-9]] *)
Definition re_m : matcher Z :=
  m_alt (m_digit2 1 1 0 2) (m_alt (m_digit2 0 0 1 9) (m_digit 1 9)).

(** [3[0-1]|[1-2]\d|0[1-9]|[1-9]| [1-9]] *)
Definition re_d : matcher Z :=
  m_alt (m_digit2 3 3 0 1) (m_alt (m_digit2 1 2 0 9) (m_alt (m_digit2 0 0 1 9)
  (m_alt (m_digit 1 9) (m_bind (m_lit " ") (fun _ => m_digit 1 9))))).

(** [2[0-3]|[0-1]\d|\d] *)
Definition re_H : matcher Z :=
  m_alt (m_digit2 2 2 0 3) (m_alt (m_digit2 0 1 0 9) (m_digit 0 9)).

(** [[0-5]\d|\d] *)
Definition re_M : matcher Z :=
  m_alt (m_digit2 0 5 0 9) (m_digit 0 9).

(** [6[0-1]|[0-5]\d|\d] *)
Definition re_S : matcher Z :=
  m_alt (m_digit2 6 6 0 1) (m_alt (m_digit2 0 5 0 9) (m_digit 0 9)).

(** The compiled pattern of ['%Y-%m-%d %H:%M:%S']:
    [Y-m-d\s+H:M:S]. *)
Definition re_format : matcher datetime :=
  m_bind re_Y (fun y => m_bind (m_lit "-") (fun _ =>
  m_bind re_m (fun m => m_bind (m_lit "-") (fun _ =>
  m_bind re_d (fun d => m_bind m_spaces1 (fun _ =>
  m_bind re_H (fun h => m_bind (m_lit ":") (fun _ =>
  m_bind re_M (fun mi => m_bind (m_lit ":") (fun _ =>
  m_bind re_S (fun sec => m_ret (DateTime y m d h mi sec)))))))))))).

Definition fmt_name : string := "%Y-%m-%d %H:%M:%S".

(** [datetime.strptime(s, '%Y-%m-%d %H:%M:%S')]: [format_regex.match]
    takes the first match the engine finds; text left over, a date that
    does not exist and a second above 59 are all [ValueError]. *)
Definition strptime (s : string) : result datetime :=
  match re_format s with
  | [] => inl (Exn ValueError
                 ("time data " ++ repr s ++ " does not match format " ++ repr fmt_name))
  | (d, rest) :: _ =>
      match rest with
      | String _ _ => inl (Exn ValueError ("unconverted data remains: " ++ rest))
      | EmptyString =>
          if year d <? 1 then
            inl (Exn ValueError ("year " ++ str_int (year d) ++ " is out of range"))
          else if days_in_month (year d) (month d) <? day d then
            inl (Exn ValueError "day is out of range for month")
          else if 59 <? second d then
            inl (Exn ValueError "second must be in 0..59")
          else inr d
      end
  end.

(** [datetime.strptime(None, ...)]: the argument must be a string. *)
Definition strptime_opt (o : option string) : result datetime :=
  match o with
  | Some s => strptime s
  | None => inl (Exn TypeError "strptime() argument 1 must be str, not None")
  end.

(** [dt.strftime('%Y-%m-%dT%H:%M:%SZ')]. The fields of two digits are
    padded; the year is printed by the C library of the host, and glibc
    prints it without padding: a year below 1000 comes out in fewer than
    four characters there (a library that pads differs for those years
    only). *)
Definition strftime_iso (d : datetime) : string :=
  str_int (year d) ++ "-" ++ fmt_int 2 (month d) ++ "-" ++ fmt_int 2 (day d)
  ++ "T" ++ fmt_int 2 (hour d) ++ ":" ++ fmt_int 2 (minute d) ++ ":"
  ++ fmt_int 2 (second d) ++ "Z".

(** Days from 1970-01-01 to the given civil date (proleptic Gregorian). *)
Definition days_from_civil (y m d : Z) : Z :=
  let y' := if m <=? 2 then y - 1 else y in
  let era := y' / 400 in
  let yoe := y' - era * 400 in
  let mp := (m + 9) mod 12 in
  let doy := (153 * mp + 2) / 5 + d - 1 in
  let doe := yoe * 365 + yoe / 4 - yoe / 100 + doy in
  era * 146097 + doe - 719468.

(** The seconds from 1970-01-01 00:00:00 to the fields, read as they
    stand. *)
Definition seconds_from_epoch (d : datetime) : Z :=
  days_from_civil (year d) (month d) (day d) * 86400
  + hour d * 3600 + minute d * 60 + second d.

(** The seconds that fall in a year from 1 to 9999. *)
Definition in_datetime_range (u : Z) : bool :=
  (seconds_from_epoch (DateTime 1 1 1 0 0 0) <=? u)
  && (u <=? seconds_from_epoch (DateTime 9999 12 31 23 59 59)).

Definition year_out_of_range (u : Z) : exn :=
  Exn ValueError
    (if u <? 0 then "year 0 is out of range" else "year 10000 is out of range").

(** [dt.timestamp()] of a naive datetime on a host whose local time is
    always [utc_offset] seconds ahead of UTC (whole seconds, so the
    float has no fractional part). The interpreter looks for the instant
    [u] whose local time is [dt]: it converts the instant [t] of the
    fields read as UTC, then the instant one day before its answer, and
    each conversion raises [ValueError] when the local time leaves the
    years 1 to 9999. So every time of 0001-01-01 is refused. What a host
    with daylight saving does is given by the environment of a request,
    not by this function. *)
Definition timestamp (utc_offset : Z) (d : datetime) : result Z :=
  let t := seconds_from_epoch d in
  if negb (in_datetime_range (t + utc_offset)) then
    inl (year_out_of_range (t + utc_offset))
  else if negb (in_datetime_range (t - 86400)) then
    inl (year_out_of_range (t - 86400))
  else inr (t - utc_offset).

End Py.

(* ===================================================================== *)
(** * Collaborators: the vector store client and the record source *)
(* ===================================================================== *)

Module Chroma.

(** Scalar values of metadata maps and JSON payloads. [VFloat z] is the
    float whose value is the integer [z]. *)
Inductive value : Type :=
| VNone
| VStr (s : string)
| VInt (z : Z)
| VFloat (z : Z).

#[global] Instance value_eq_dec : EqDecision value.
Proof. solve_decision. Defined.

Definition opt_str (o : option string) : value :=
  match o with Some s => VStr s | None => VNone end.

(** [bool(v)] *)
Definition truthy (v : value) : bool :=
  match v with
  | VNone => false
  | VStr s => Py.truthy s
  | VInt z | VFloat z => negb (z =? 0)
  end.

Abbreviation metadata := (gmap string value).

(** A retrievable unit. *)
Record record : Type := Rec {
  rec_id : string;
  rec_document : string;
  rec_metadata : metadata
}.

Record collection : Type := Coll {
  coll_metadata : option metadata;
  coll_records : list record
}.

Abbreviation store := (gmap string collection).

(** What a client-side [Collection] object holds: the name and the
    metadata read when the handle was obtained. *)
Record handle : Type := Handle {
  h_name : string;
  h_metadata : option metadata
}.

(** Calls to the store and to the record source that returned normally. *)
Inductive event : Type :=
| EvConnect
| EvList
| EvGet (name : string)
| EvCreate (name : string) (md : option metadata)
| EvGetOrCreate (name : string) (md : option metadata)
| EvAdd (name : string) (ids : list string)
| EvModify (name : string) (md : metadata)
| EvHttpGet (date_part time_part : string).

Record world : Type := World {
  w_store : store;
  w_trace : list event
}.

(** ** The record source ([requests.get] on the incident table) *)

(** A record as the table API returns it: a JSON object whose fields,
    requested with [sysparm_display_value=true], are strings. A field can
    be missing. *)
Abbreviation raw_ticket := (gmap string string).

(** [response.json()]: raises when the body is not JSON, else a
    dictionary that may hold a ['result'] list. *)

Inductive json_outcome : Type :=
| JsonError (x : Py.exn)
| JsonBody (result : option (list raw_ticket)).

(** [requests.get(...)]: raises (no connection), or a response with its
    status code. *)
Inductive http_outcome : Type :=
| HttpError (x : Py.exn)
| HttpResponse (status_code : Z) (json : json_outcome).

(** ** Environment of one request: configuration ([SNOW_URL], read from
    the process environment when the module is loaded), the clock
    ([datetime.now().isoformat()]), the conversion of a naive datetime
    to a POSIX timestamp on this host ([dt.timestamp()], which follows
    the time zone rules of the host and raises for datetimes it cannot
    convert), the answer of the record source to a query with the given
    cut-off, and for every store call whether (and with which exception)
    the server fails it. A store call that fails has no effect on the
    store. *)
Record env : Type := Env {
  SNOW_URL : string;
  now_isoformat : string;
  local_timestamp : Py.datetime -> Py.result Z;
  http_get : string -> string -> http_outcome;
  fault_connect : option Py.exn;
  fault_list : option Py.exn;
  fault_get : option Py.exn;
  fault_create : option Py.exn;
  fault_get_or_create : option Py.exn;
  fault_add : option Py.exn;
  fault_modify : option Py.exn
}.

(** ** Computations: state passing with exceptions. The world reached
    when an exception is raised is kept: effects before it persist. *)
Definition M (A : Type) : Type := world -> Py.result A * world.

Definition ret {A : Type} (a : A) : M A := fun w => (inr a, w).

Definition raise {A : Type} (x : Py.exn) : M A := fun w => (inl x, w).

Definition bind {A B : Type} (m : M A) (f : A -> M B) : M B :=
  fun w => match m w with
           | (inl x, w') => (inl x, w')
           | (inr a, w') => f a w'
           end.

Definition lift {A : Type} (r : Py.result A) : M A := fun w => (r, w).

Definition log (ev : event) : M unit :=
  fun w => (inr tt, World (w_store w) (w_trace w ++ [ev])).

Definition get_store : M store := fun w => (inr (w_store w), w).

Definition put_store (s : store) : M unit :=
  fun w => (inr tt, World s (w_trace w)).

(** A server-side failure, decided by the environment. *)
Definition may_fail (f : option Py.exn) : M unit :=
  match f with Some x => raise x | None => ret tt end.

End Chroma.

Import Chroma.

Notation "x <- c1 ;; c2" := (Chroma.bind c1 (fun x => c2))
  (at level 100, c1 at next level, right associativity).
Notation "c1 ;;; c2" := (Chroma.bind c1 (fun _ => c2))
  (at level 100, right associativity).

(** The calls the sources make on the ChromaDB client and on [requests].
    Both are third-party libraries; what is modelled is their behaviour
    towards the caller. *)
Module Client.

(** [chromadb.HttpClient(host, port)] *)
Definition HttpClient (e : env) : M unit :=
  may_fail (fault_connect e) ;;; log EvConnect.

(** [client.list_collections()], as the names of the collections. *)
Definition list_collections (e : env) : M (list string) :=
  may_fail (fault_list e) ;;;
  s <- get_store ;;
  log EvList ;;;
  ret (map fst (map_to_list s)).

Definition not_found (name : string) : Py.exn :=
  Py.Exn Py.OtherException ("Collection " ++ name ++ " does not exist.").

(** [client.get_collection(name)] *)
Definition get_collection (e : env) (name : string) : M handle :=
  may_fail (fault_get e) ;;;
  s <- get_store ;;
  match s !! name with
  | None => raise (not_found name)
  | Some c => log (EvGet name) ;;; ret (Handle name (coll_metadata c))
  end.

(** [client.create_collection(name, metadata=md)] *)
Definition create_collection (e : env) (name : string) (md : option metadata)
  : M handle :=
  may_fail (fault_create e) ;;;
  s <- get_store ;;
  match s !! name with
  | Some _ =>
      raise (Py.Exn Py.OtherException ("Collection " ++ name ++ " already exists"))
  | None =>
      put_store (<[name := Coll md []]> s) ;;;
      log (EvCreate name md) ;;;
      ret (Handle name md)
  end.

(** [client.get_or_create_collection(name, metadata=md)]: an existing
    collection is returned as it is and [md] is ignored; [md] is used
    only when the collection is created. *)
Definition get_or_create_collection (e : env) (name : string)
  (md : option metadata) : M handle :=
  may_fail (fault_get_or_create e) ;;;
  s <- get_store ;;
  match s !! name with
  | Some c => log (EvGetOrCreate name md) ;;; ret (Handle name (coll_metadata c))
  | None =>
      put_store (<[name := Coll md []]> s) ;;;
      log (EvGetOrCreate name md) ;;;
      ret (Handle name md)
  end.

Fixpoint zip_records (ids docs : list string) (metas : list metadata)
  : list record :=
  match ids, docs, metas with
  | i :: ids', d :: docs', m :: metas' => Rec i d m :: zip_records ids' docs' metas'
  | _, _, _ => []
  end.

(** A metadata map the client accepts for a record: not empty, and
    no [None] among its values. *)
Definition is_None (v : value) : bool :=
  match v with VNone => true | _ => false end.

Definition metadata_allowed (m : metadata) : bool :=
  match map_to_list m with
  | [] => false
  | entries => forallb (fun kv => negb (is_None (snd kv))) entries
  end.

(** What the client checks before it sends an [add]: there is at least
    one id, the ids are pairwise distinct, the three lists have the same
    length, and every metadata map is allowed. The texts are those of
    one release of the client; the classes are what the callers see. *)
Definition validate_add (ids docs : list string) (metas : list metadata)
  : option Py.exn :=
  if bool_decide (ids = []) then
    Some (Py.Exn Py.ValueError "Expected IDs to be a non-empty list, got 0 IDs")
  else if negb (bool_decide (NoDup ids)) then
    Some (Py.Exn Py.OtherException "Expected IDs to be unique")
  else if negb ((length ids =? length docs)%nat && (length ids =? length metas)%nat) then
    Some (Py.Exn Py.ValueError "Unequal lengths for fields: ids, documents, metadatas")
  else if negb (forallb metadata_allowed metas) then
    Some (Py.Exn Py.ValueError
            "Expected metadata to be a non-empty dict of str, int, float or bool values")
  else None.

(** [collection.add(ids, documents, metadatas)]: the client validates
    the arguments, then the server stores the records, all or nothing. A
    record whose id the collection already holds is left out without an
    error; the others are appended. *)
Definition add (e : env) (h : handle) (ids docs : list string)
  (metas : list metadata) : M unit :=
  match validate_add ids docs metas with
  | Some x => raise x
  | None =>
      may_fail (fault_add e) ;;;
      s <- get_store ;;
      match s !! h_name h with
      | None => raise (not_found (h_name h))
      | Some c =>
          let held := map rec_id (coll_records c) in
          let fresh := filter (fun r => rec_id r ∉ held) (zip_records ids docs metas) in
          put_store (<[h_name h :=
                        Coll (coll_metadata c) (coll_records c ++ fresh)]> s) ;;;
          log (EvAdd (h_name h) ids)
      end
  end.

(** [collection.modify(metadata=md)]: the collection's metadata map
    becomes [md]. The store resets the map to the one given; the update
    is not a merge with the keys already there. *)
Definition modify (e : env) (h : handle) (md : metadata) : M unit :=
  may_fail (fault_modify e) ;;;
  s <- get_store ;;
  match s !! h_name h with
  | None => raise (not_found (h_name h))
  | Some c =>
      put_store (<[h_name h := Coll (Some md) (coll_records c)]> s) ;;;
      log (EvModify (h_name h) md)
  end.

(** [requests.get(url, params, auth)] on the incident table, for the
    cut-off spliced into the query. *)
Definition requests_get (e : env) (date_part time_part : string)
  : M (Z * json_outcome) :=
  match http_get e date_part time_part with
  | HttpError x => raise x
  | HttpResponse st js => log (EvHttpGet date_part time_part) ;;; ret (st, js)
  end.

(** [response.json().get('result', [])] *)
Definition json_result (js : json_outcome) : M (list raw_ticket) :=
  match js with
  | JsonError x => raise x
  | JsonBody r => ret (default [] r)
  end.

End Client.

(* ===================================================================== *)
(** * incident.py: [ChromaDbTicketProcessor] *)
(* ===================================================================== *)

Module Incident.

Definition checkpoint_key : string := "last_update_time".

(** [load_last_update_time]: [metadata.get("last_update_time")] on
    [collection.metadata or {}]; [VNone] when the key is absent. *)
Definition load_last_update_time (h : handle) : value :=
  let metadata := default ∅ (h_metadata h) in
  default VNone (metadata !! checkpoint_key).

(** [save_last_update_time]: the exception of [modify] is logged and
    re-raised. *)
Definition save_last_update_time (e : env) (h : handle) (latest_time : string)
  : M unit :=
  Client.modify e h {[ checkpoint_key := VStr latest_time ]}.

Definition fetch_db_client (e : env) : M unit := Client.HttpClient e.

(** [to_iso8601] *)
Definition to_iso8601 (dt_str : option string) : Py.result string :=
  match Py.strptime_opt dt_str with
  | inl x => inl x
  | inr dt => inr (Py.strftime_iso dt)
  end.

(** [extract_number] *)
Definition extract_number (ticket_number : string) : Z :=
  match Py.search_digits ticket_number with
  | Some digits => Py.int_digits 0 digits
  | None => -1
  end.

(** The key of the [max] call: [extract_number(x.get('number', ''))]. *)
Definition ordinal (x : raw_ticket) : Z :=
  extract_number (default EmptyString (x !! "number")).

(** The normalised record built for every ticket. *)
Record mapped_ticket : Type := Mapped {
  ticket_number : option string;
  title : option string;
  query : option string;
  answer : option string;
  url : string;
  created : Z;
  opened_at : string
}.

(** The body of the [for ticket in tickets] loop. *)
Definition map_ticket (e : env) (ticket : raw_ticket) : Py.result mapped_ticket :=
  match Py.strptime_opt (ticket !! "sys_created_on") with
  | inl x => inl x
  | inr dt =>
      match local_timestamp e dt with
      | inl x => inl x
      | inr seconds =>
          match to_iso8601 (ticket !! "sys_created_on") with
          | inl x => inl x
          | inr iso =>
              inr {| ticket_number := ticket !! "number";
                     title := ticket !! "short_description";
                     query := ticket !! "description";
                     answer := ticket !! "close_notes";
                     url := SNOW_URL e ++ "/incident_list.do?";
                     created := seconds;
                     opened_at := iso |}
          end
      end
  end.

Fixpoint map_tickets (e : env) (tickets : list raw_ticket)
  : Py.result (list mapped_ticket) :=
  match tickets with
  | [] => inr []
  | t :: r =>
      match map_ticket e t with
      | inl x => inl x
      | inr m =>
          match map_tickets e r with
          | inl x => inl x
          | inr ms => inr (m :: ms)
          end
      end
  end.

(** [date_part, time_part = after_datetime.split(' ')] *)
Definition split_cutoff (after_datetime : value) : Py.result (string * string) :=
  match after_datetime with
  | VStr s =>
      match Py.split_char " " s with
      | [d; t] => inr (d, t)
      | [] | [_] =>
          inl (Py.Exn Py.ValueError "not enough values to unpack (expected 2, got 1)")
      | _ => inl (Py.Exn Py.ValueError "too many values to unpack (expected 2)")
      end
  | VNone => inl (Py.Exn Py.AttributeError "'NoneType' object has no attribute 'split'")
  | VInt _ => inl (Py.Exn Py.AttributeError "'int' object has no attribute 'split'")
  | VFloat _ => inl (Py.Exn Py.AttributeError "'float' object has no attribute 'split'")
  end.

(** [fetch_tickets_from_servicenow] *)
Definition fetch_tickets_from_servicenow (e : env) (after_datetime : value)
  : M (list mapped_ticket * option raw_ticket) :=
  parts <- lift (split_cutoff after_datetime) ;;
  response <- Client.requests_get e (fst parts) (snd parts) ;;
  if fst response =? 200 then
    tickets <- Client.json_result (snd response) ;;
    match tickets with
    | [] => ret ([], None)
    | _ :: _ =>
        let latest_ticket := Py.max_by ordinal tickets in
        mapped_tickets <- lift (map_tickets e tickets) ;;
        ret (mapped_tickets, latest_ticket)
    end
  else ret ([], None).

Definition str_opt (o : option string) : string := default "None" o.

Definition newline : string := String (ascii_of_nat 10) EmptyString.

(** [prepare_ticket_batches] *)
Definition ticket_document (t : mapped_ticket) : string :=
  "Ticket query/question: " ++ str_opt (query t) ++ " " ++ newline
  ++ " - Ticket answer/solution: " ++ str_opt (answer t).

Definition ticket_metadata (t : mapped_ticket) : metadata :=
  {[ "ticket_number" := opt_str (ticket_number t);
     "ticket_title" := opt_str (title t);
     "url" := VStr (url t);
     "created" := VFloat (created t);
     "opened_at" := VStr (opened_at t) ]}.

Definition prepare_ticket_batches (ticket_data : list mapped_ticket)
  : list string * list metadata :=
  (map ticket_document ticket_data, map ticket_metadata ticket_data).

(** [store_ticket_data]: the ids restart at ["0"] for every batch. *)
Definition store_ticket_data (e : env) (coll : handle) (documents : list string)
  (metadatas : list metadata) : M unit :=
  let ids := map Py.str_nat (seq 0 (length documents)) in
  Client.add e coll ids documents metadatas.

Definition collection_name : string := "ticketData".

Definition default_cutoff : string := "2000-01-01 00:00:00".

Definition creation_metadata : metadata :=
  {[ "hnsw:space" := VStr "cosine";
     "sync_threshold" := VInt 1000;
     "batch_size" := VInt 100 ]}.

(** The dictionary [sync_tickets] returns; [latest_update_time] is
    [Some v] when the key is present. *)
Record sync_result : Type := SyncResult {
  success : bool;
  message : string;
  tickets_processed : nat;
  latest_update_time : option (option string);
  timestamp : string
}.

(** Lines 157-169: the collection is looked up by name first and only
    created, with its metadata, when it is not listed. *)
Definition get_or_create_ticket_collection (e : env) : M handle :=
  coll_names <- Client.list_collections e ;;
  if bool_decide (collection_name ∈ coll_names) then
    Client.get_collection e collection_name
  else
    Client.create_collection e collection_name (Some creation_metadata).

(** The cut-off handed to the fetcher. *)
Definition effective_cutoff (loaded : value) : value :=
  if truthy loaded then loaded else VStr default_cutoff.

(** The body of the [try] block of [sync_tickets]. *)
Definition sync_body (e : env) : M sync_result :=
  fetch_db_client e ;;;
  coll <- get_or_create_ticket_collection e ;;
  let cutoff_time := effective_cutoff (load_last_update_time coll) in
  fetched <- fetch_tickets_from_servicenow e cutoff_time ;;
  let tickets := fst fetched in
  let latest := snd fetched in
  match tickets with
  | _ :: _ =>
      let batches := prepare_ticket_batches tickets in
      store_ticket_data e coll (fst batches) (snd batches) ;;;
      match latest with
      | None =>
          raise (Py.Exn Py.AttributeError "'NoneType' object has no attribute 'get'")
      | Some latest_ticket =>
          let latest_time := latest_ticket !! "sys_created_on" in
          match latest_time with
          | Some t => if Py.truthy t then save_last_update_time e coll t else ret tt
          | None => ret tt
          end ;;;
          ret {| success := true;
                 message := "Tickets synced successfully";
                 tickets_processed := length tickets;
                 latest_update_time := Some latest_time;
                 timestamp := now_isoformat e |}
      end
  | [] =>
      ret {| success := true;
             message := "No new tickets to process";
             tickets_processed := 0;
             latest_update_time := None;
             timestamp := now_isoformat e |}
  end.

(** [sync_tickets]: any exception of the body becomes a failure record. *)
Definition sync_tickets (e : env) (w : world) : sync_result * world :=
  match sync_body e w with
  | (inr r, w') => (r, w')
  | (inl x, w') =>
      ({| success := false;
          message := "Error during ticket sync: " ++ Py.exn_str x;
          tickets_processed := 0;
          latest_update_time := None;
          timestamp := now_isoformat e |}, w')
  end.

End Incident.

(* ===================================================================== *)
(** * app.py: the checkpoint endpoints *)
(* ===================================================================== *)

Module App.

(** What an endpoint hands back: a body, or an [HTTPException]. *)
Inductive response (A : Type) : Type :=
| Ok (body : A)
| HTTPException (status_code : Z) (detail : string).

Arguments Ok {A} body.
Arguments HTTPException {A} status_code detail.

Record last_update_body : Type := LastUpdateBody {
  lu_last_update_time : value;
  lu_timestamp : string
}.

(** [GET /last-update-ticket-time] *)
Definition get_last_update_time (e : env) (w : world)
  : response last_update_body * world :=
  let body :=
    Incident.fetch_db_client e ;;;
    collection <- Client.get_or_create_collection e Incident.collection_name None ;;
    let last_update := Incident.load_last_update_time collection in
    ret (LastUpdateBody last_update (now_isoformat e)) in
  match body w with
  | (inr b, w') => (Ok b, w')
  | (inl x, w') => (HTTPException 500 (Py.exn_str x), w')
  end.

Record update_body : Type := UpdateBody {
  up_message : string;
  up_last_update_time : string;
  up_timestamp : string
}.

(** [datetime.strptime(new_time, "%Y-%m-%d %H:%M:%S")] on whatever the
    payload holds under the key. *)
Definition validate_new_time (new_time : value) : Py.result string :=
  match new_time with
  | VStr s => match Py.strptime s with inl x => inl x | inr _ => inr s end
  | VNone => inl (Py.Exn Py.TypeError "strptime() argument 1 must be str, not None")
  | VInt _ => inl (Py.Exn Py.TypeError "strptime() argument 1 must be str, not int")
  | VFloat _ => inl (Py.Exn Py.TypeError "strptime() argument 1 must be str, not float")
  end.

Definition invalid_format_detail : string :=
  "Invalid datetime format. Expected: YYYY-MM-DD HH:MM:SS".

(** [POST /update-last-ticket-time] *)
Definition update_last_update_time (e : env) (payload : gmap string value)
  (w : world) : response update_body * world :=
  let body :=
    let new_time := default VNone (payload !! "last_update_time") in
    validated <- lift (validate_new_time new_time) ;;
    Incident.fetch_db_client e ;;;
    collection <- Client.get_or_create_collection e Incident.collection_name None ;;
    Incident.save_last_update_time e collection validated ;;;
    ret (UpdateBody "Last update time updated successfully" validated
           (now_isoformat e)) in
  match body w with
  | (inr b, w') => (Ok b, w')
  | (inl x, w') =>
      if Py.is_ValueError x then (HTTPException 400 invalid_format_detail, w')
      else (HTTPException 500 (Py.exn_str x), w')
  end.

End App.

(* ===================================================================== *)
(** * Collaborator: the recursive character text splitter *)
(* ===================================================================== *)

(** [RecursiveCharacterTextSplitter] of the langchain library, as
    [split_text] of [document.py] configures it: literal separators, and
    the defaults [keep_separator=True], [strip_whitespace=True] and [len]
    as the length function. The library is third-party; the definitions
    follow its [_split_text], [_split_text_with_regex], [_merge_splits]
    and [_join_docs]. *)
Module Splitter.

Fixpoint is_prefix (p s : string) : bool :=
  match p, s with
  | EmptyString, _ => true
  | String a p', String b s' => Ascii.eqb a b && is_prefix p' s'
  | String _ _, EmptyString => false
  end.

(** [re.search(re.escape(sep), text)] for a non-empty literal. *)
Fixpoint contains (sep text : string) : bool :=
  is_prefix sep text
  || match text with
     | EmptyString => false
     | String _ r => contains sep r
     end.

(** The pieces between the successive, non-overlapping occurrences of a
    non-empty literal [sep], as the first piece and the list of the
    others; [skip] counts the characters of a matched separator still to
    be passed over. *)
Fixpoint split_go (sep : string) (skip : nat) (s : string) : string * list string :=
  match s with
  | EmptyString => (EmptyString, [])
  | String c r =>
      match skip with
      | S k => split_go sep k r
      | O =>
          if is_prefix sep s then
            let '(p, ps) := split_go sep (String.length sep - 1) r in
            (EmptyString, p :: ps)
          else
            let '(p, ps) := split_go sep 0 r in
            (String c p, ps)
      end
  end.

Fixpoint chars (s : string) : list string :=
  match s with
  | EmptyString => []
  | String c r => String c EmptyString :: chars r
  end.

Definition nonempty (s : string) : bool := Py.truthy s.

(** [_split_text_with_regex(text, sep, keep_separator=True)]: every
    separator stays at the front of the piece that follows it, and empty
    pieces are dropped. *)
Definition split_keep (sep text : string) : list string :=
  match sep with
  | EmptyString => chars text
  | String _ _ =>
      let '(p, ps) := split_go sep 0 text in
      filter (fun s => nonempty s = true) (p :: map (fun t => sep ++ t) ps)
  end.

(** [separator.join(docs)] *)
Fixpoint join (separator : string) (docs : list string) : string :=
  match docs with
  | [] => EmptyString
  | [d] => d
  | d :: r => d ++ separator ++ join separator r
  end.

Section Merge.

Variable chunk_size : Z.
Variable chunk_overlap : Z.
Variable separator : string.

Definition separator_len : Z := Py.len separator.

(** [_join_docs]: joined and stripped; [None] when nothing is left. *)
Definition join_docs (docs : list string) : option string :=
  match Py.strip (join separator docs) with
  | EmptyString => None
  | text => Some text
  end.

Definition sep_if (b : bool) : Z := if b then separator_len else 0.

Definition has_items (l : list string) : bool :=
  match l with [] => false | _ :: _ => true end.

Definition has_two (l : list string) : bool :=
  match l with _ :: _ :: _ => true | _ => false end.

Definition index_error : Py.exn :=
  Py.Exn Py.OtherException "list index out of range".

(** The [while] loop of [_merge_splits]: pieces are popped from the
    front while the running total exceeds the overlap, or while the next
    piece still does not fit. *)
Fixpoint pop_front (total _len : Z) (current_doc : list string)
  : Py.result (Z * list string) :=
  let again :=
    (chunk_overlap <? total)
    || ((chunk_size <? total + _len + sep_if (has_items current_doc))
        && (0 <? total)) in
  if again then
    match current_doc with
    | [] => inl index_error
    | d0 :: rest =>
        pop_front (total - (Py.len d0 + sep_if (has_two current_doc))) _len rest
    end
  else inr (total, current_doc).

Definition opt_list {A : Type} (o : option A) : list A :=
  match o with Some a => [a] | None => [] end.

(** The [for d in splits] loop of [_merge_splits], with its state
    ([docs], [current_doc], [total]). *)
Fixpoint merge_loop (splits : list string) (docs current_doc : list string)
  (total : Z) : Py.result (list string) :=
  match splits with
  | [] => inr (docs ++ opt_list (join_docs current_doc))%list
  | d :: rest =>
      let _len := Py.len d in
      if chunk_size <? total + _len + sep_if (has_items current_doc) then
        if has_items current_doc then
          match pop_front total _len current_doc with
          | inl x => inl x
          | inr (total', current_doc') =>
              merge_loop rest (docs ++ opt_list (join_docs current_doc))%list
                (current_doc' ++ [d])%list
                (total' + _len + sep_if (has_items current_doc'))
          end
        else merge_loop rest docs (current_doc ++ [d])%list
               (total + _len + sep_if (has_items current_doc))
      else merge_loop rest docs (current_doc ++ [d])%list
             (total + _len + sep_if (has_items current_doc))
  end.

(** [_merge_splits] *)
Definition merge_splits (splits : list string) : Py.result (list string) :=
  merge_loop splits [] [] 0.

End Merge.

Section Recursive.

Variable chunk_size : Z.
Variable chunk_overlap : Z.

(** With [keep_separator=True] the pieces are merged with the empty
    separator. *)
Definition merge (good_splits : list string) : Py.result (list string) :=
  match good_splits with
  | [] => inr []
  | _ :: _ => merge_splits chunk_size chunk_overlap EmptyString good_splits
  end.

(** The loop of [_split_text] over the pieces: short pieces are gathered
    in [good_splits]; a long piece flushes them and is split further with
    the remaining separators ([recur]), or kept whole when none is left. *)
Fixpoint gather (recur : option (string -> Py.result (list string)))
  (splits good_splits : list string) : Py.result (list string) :=
  match splits with
  | [] => merge good_splits
  | s :: rest =>
      if Py.len s <? chunk_size then gather recur rest (good_splits ++ [s])%list
      else
        match merge good_splits with
        | inl x => inl x
        | inr merged =>
            match (match recur with
                   | None => inr [s]
                   | Some f => f s
                   end) with
            | inl x => inl x
            | inr other =>
                match gather recur rest [] with
                | inl x => inl x
                | inr tail => inr (merged ++ other ++ tail)%list
                end
            end
        end
  end.

(** [_split_text(text, separators)]: the first separator found in the
    text is used and the ones after it are kept for the long pieces; when
    none is found the last separator is used and none is kept. *)
Fixpoint split_text_with (separators : list string) (text : string)
  : Py.result (list string) :=
  match separators with
  | [] => inl (index_error)
  | sep :: rest =>
      match sep, rest with
      | EmptyString, _ => gather None (split_keep sep text) []
      | _, [] => gather None (split_keep sep text) []
      | _, _ :: _ =>
          if contains sep text then
            gather (Some (split_text_with rest)) (split_keep sep text) []
          else split_text_with rest text
      end
  end.

End Recursive.

End Splitter.

(* ===================================================================== *)
(** * document.py: [PDFProcessor] *)
(* ===================================================================== *)

Module Document.

Definition paragraph_break : string :=
  String (ascii_of_nat 10) (String (ascii_of_nat 10) EmptyString).
Definition line_break : string := String (ascii_of_nat 10) EmptyString.

Definition separators : list string := [paragraph_break; line_break; " "].
Definition chunk_size : Z := 500.
Definition chunk_overlap : Z := 100.

(** [split_text]: the splitter's chunks, without those that are empty
    once stripped. *)
Definition split_text (text : string) : Py.result (list string) :=
  match Splitter.split_text_with chunk_size chunk_overlap separators text with
  | inl x => inl x
  | inr chunks => inr (filter (fun chunk => Py.truthy (Py.strip chunk) = true) chunks)
  end.

Definition documents_metadata : metadata := {[ "hnsw:space" := VStr "cosine" ]}.

Record store_summary : Type := StoreSummary {
  source : string;
  chunks_stored : nat;
  collection : string
}.

(** [store_chunks] *)
Definition store_chunks (e : env) (chunks : list string) (source_name : string)
  (collection_name : string) : M store_summary :=
  coll <- Client.get_or_create_collection e collection_name (Some documents_metadata) ;;
  let ids := map (fun i => source_name ++ "_" ++ Py.str_nat i) (seq 0 (length chunks)) in
  let metadatas := map (fun _ => ({[ "source" := VStr source_name ]} : metadata)) chunks in
  Client.add e coll ids chunks metadatas ;;;
  ret (StoreSummary source_name (length chunks) collection_name).

End Document.

(* ===================================================================== *)
(** * Concrete stores, environments and batches *)
(* ===================================================================== *)

Module Examples.

Definition ticket (number created_on : string) : raw_ticket :=
  {[ "number" := number;
     "short_description" := "printer"%string;
     "description" := "it is broken"%string;
     "close_notes" := "replaced"%string;
     "sys_created_on" := created_on ]}.

(** An environment in which no store call fails, the host keeps UTC,
    and the record source answers [outcome] whatever the cut-off. *)
Definition quiet_env (outcome : http_outcome) : env :=
  {| SNOW_URL := "https://snow.example";
     now_isoformat := "2025-07-04T10:00:00";
     local_timestamp := Py.timestamp 0;
     http_get := fun _ _ => outcome;
     fault_connect := None; fault_list := None; fault_get := None;
     fault_create := None; fault_get_or_create := None;
     fault_add := None; fault_modify := None |}.

Definition ok_response (tickets : list raw_ticket) : http_outcome :=
  HttpResponse 200 (JsonBody (Some tickets)).

Definition empty_world : world := World ∅ [].

Definition inc5 : raw_ticket := ticket "INC5" "2025-07-01 08:00:00".
Definition inc100 : raw_ticket := ticket "INC100" "2025-07-02 09:30:00".
Definition inc23 : raw_ticket := ticket "INC23" "2025-07-03 15:16:53".

(** [n] copies of a character. *)
Fixpoint rep (n : nat) (c : ascii) : string :=
  match n with
  | O => EmptyString
  | S k => String c (rep k c)
  end.

(** A text of 600 characters without any separator. *)
Definition long_word : string := rep 600 "a".

(** Three paragraphs of 450 characters each. *)
Definition three_paragraphs : string :=
  rep 450 "a" ++ Document.paragraph_break ++ rep 450 "b"
  ++ Document.paragraph_break ++ rep 450 "c".

(** Request bodies of the update endpoint. *)
Definition payload_of (new_time : string) : gmap string value :=
  {[ "last_update_time" := VStr new_time ]}.


Definition world_with (md : option metadata) : world :=
  World {[ Incident.collection_name := Coll md [] ]} [].

(** A metadata map the store accepts. *)
Definition plain_metadata : metadata := {[ "url" := VStr "https://snow.example" ]}.

End Examples.

(* ===================================================================== *)
(** * Vocabulary of the properties: the stored checkpoint, sequences of
    runs, words and pieces of a text *)
(* ===================================================================== *)

Module Reading.

(** The metadata map of a named collection, when it has one. *)
Definition metadata_of (s : store) (name : string) : option metadata :=
  c ← s !! name; coll_metadata c.

(** The value stored under a metadata key of the ticket collection. *)
Definition ticket_metadata_key (s : store) (k : string) : option value :=
  md ← metadata_of s Incident.collection_name; md !! k.

(** The stored checkpoint of the ticket collection. *)
Definition stored_checkpoint (s : store) : option value :=
  ticket_metadata_key s Incident.checkpoint_key.

(** The checkpoint in force: the stored one, or the default epoch when
    nothing usable is stored. *)
Definition checkpoint_in_force (s : store) : value :=
  Incident.effective_cutoff (default VNone (stored_checkpoint s)).

(** A value read as a ['YYYY-MM-DD HH:MM:SS'] timestamp. *)
Definition read_ts (v : value) : option Py.datetime :=
  match v with
  | VStr s => match Py.strptime s with inr d => Some d | inl _ => None end
  | _ => None
  end.

(** [a] is not later than [b]: the same value, or both read as
    timestamps and the first is earlier. *)
Definition not_later (a b : value) : Prop :=
  a = b ∨ ∃ ta tb, read_ts a = Some ta ∧ read_ts b = Some tb ∧ Py.dt_lt ta tb = true.

Definition earlier (a b : value) : Prop :=
  ∃ ta tb, read_ts a = Some ta ∧ read_ts b = Some tb ∧ Py.dt_lt ta tb = true.

(** The batch a fetch with the given cut-off receives. *)
Definition batch (e : env) (cutoff : value) : list raw_ticket :=
  match Incident.split_cutoff cutoff with
  | inr (d, t) =>
      match http_get e d t with
      | HttpResponse st (JsonBody (Some l)) => if st =? 200 then l else []
      | _ => []
      end
  | inl _ => []
  end.

(** The record was created strictly after the cut-off. *)
Definition created_after (cutoff : value) (t : raw_ticket) : bool :=
  match read_ts cutoff, t !! "sys_created_on" with
  | Some c, Some s =>
      match Py.strptime s with
      | inr d => Py.dt_lt c d
      | inl _ => false
      end
  | _, _ => false
  end.

(** The source returns only records created strictly after the
    checkpoint it is asked about. *)
Definition honours_cutoff (e : env) (s : store) : bool :=
  forallb (created_after (checkpoint_in_force s)) (batch e (checkpoint_in_force s)).

(** A sequence of sync runs, one environment per run: the worlds
    visited, the first one included. *)
Fixpoint timeline (es : list env) (w : world) : list world :=
  match es with
  | [] => [w]
  | e :: es' => w :: timeline es' (snd (Incident.sync_tickets e w))
  end.

(** Every run of the sequence meets a source that honours the cut-off. *)
Fixpoint all_honour (es : list env) (w : world) : bool :=
  match es with
  | [] => true
  | e :: es' =>
      honours_cutoff e (w_store w)
      && all_honour es' (snd (Incident.sync_tickets e w))
  end.

(** No store call fails in this environment. *)
Definition store_up (e : env) : Prop :=
  fault_connect e = None ∧ fault_list e = None ∧ fault_get e = None
  ∧ fault_create e = None ∧ fault_get_or_create e = None
  ∧ fault_add e = None ∧ fault_modify e = None.

(** The calls that write records or metadata into a collection. *)
Definition is_write (ev : event) : bool :=
  match ev with
  | EvAdd _ _ | EvModify _ _ => true
  | _ => false
  end.

(** The number of characters before the first space. *)
Fixpoint run_here (s : string) : nat :=
  match s with
  | EmptyString => O
  | String c r => if Ascii.eqb " " c then O else S (run_here r)
  end.

(** The length of the longest run of characters free of spaces. *)
Fixpoint longest_word (s : string) : nat :=
  match s with
  | EmptyString => O
  | String c r => Nat.max (run_here s) (longest_word r)
  end.

(** Some [k >= n] characters end [a] and begin [b]. *)
Definition overlap_at_least (n : nat) (a b : string) : bool :=
  existsb (fun k => String.eqb (substring (String.length a - k) k a) (substring 0 k b))
          (seq n (S (Nat.min (String.length a) (String.length b)) - n)).

(** The summed length of the pieces. *)
Fixpoint total_len (l : list string) : Z :=
  match l with
  | [] => 0
  | d :: r => Py.len d + total_len r
  end.

(** [a] occurs in [b]. *)
Definition sub (a b : string) : Prop := ∃ pre post, b = pre ++ a ++ post.

(** The pieces, each behind the separator. *)
Fixpoint flat (sep : string) (ps : list string) : string :=
  match ps with
  | [] => EmptyString
  | t :: r => sep ++ t ++ flat sep r
  end.

(** What the further splitting of a long piece has to provide: a result,
    and chunks within the size. *)
Definition recur_total (recur : option (string -> Py.result (list string)))
  (s : string) : Prop :=
  match recur with
  | None => True
  | Some f => ∃ o, f s = inr o
  end.

Definition recur_bounded (chunk_size : Z)
  (recur : option (string -> Py.result (list string))) (s : string) : Prop :=
  match recur with
  | None => Py.len s ≤ chunk_size
  | Some f => ∀ o, f s = inr o → Forall (λ c, Py.len c ≤ chunk_size) o
  end.

(** The chunk has something left once stripped. *)
Definition not_blank (chunk : string) : Prop := Py.strip chunk ≠ EmptyString.



(** The same environment with another record source. *)
Definition with_source (e : env) (f : string -> string -> http_outcome) : env :=
  {| SNOW_URL := SNOW_URL e;
     now_isoformat := now_isoformat e;
     local_timestamp := local_timestamp e;
     http_get := f;
     fault_connect := fault_connect e;
     fault_list := fault_list e;
     fault_get := fault_get e;
     fault_create := fault_create e;
     fault_get_or_create := fault_get_or_create e;
     fault_add := fault_add e;
     fault_modify := fault_modify e |}.

(** A record source with nothing new. *)
Definition nothing_new : string -> string -> http_outcome :=
  fun _ _ => HttpResponse 200 (JsonBody (Some [])).

(** The call that saves a checkpoint. *)
Definition is_save (ev : event) : bool :=
  match ev with
  | EvModify _ _ => true
  | _ => false
  end.

(** The result of a run that found nothing to store. *)
Definition empty_result (e : env) : Incident.sync_result :=
  {| Incident.success := true;
     Incident.message := "No new tickets to process";
     Incident.tickets_processed := 0;
     Incident.latest_update_time := None;
     Incident.timestamp := now_isoformat e |}.

(** The result of a run that stored [n] tickets and saved [t]. *)
Definition stored_result (e : env) (n : nat) (t : string) : Incident.sync_result :=
  {| Incident.success := true;
     Incident.message := "Tickets synced successfully";
     Incident.tickets_processed := n;
     Incident.latest_update_time := Some (Some t);
     Incident.timestamp := now_isoformat e |}.

(** The result of a run in which [x] was raised. *)
Definition failed_result (e : env) (x : Py.exn) : Incident.sync_result :=
  {| Incident.success := false;
     Incident.message := "Error during ticket sync: " ++ Py.exn_str x;
     Incident.tickets_processed := 0;
     Incident.latest_update_time := None;
     Incident.timestamp := now_isoformat e |}.

(** Every character of the string satisfies [p]. *)
Fixpoint every (p : ascii -> bool) (s : string) : bool :=
  match s with
  | EmptyString => true
  | String c r => p c && every p r
  end.

Definition no_digit (s : string) : bool := every (fun c => negb (Py.isdigit c)) s.
Definition all_digits (s : string) : bool := every Py.isdigit s.

(** The string does not go on with a digit. *)
Definition stops_run (s : string) : bool :=
  match s with
  | EmptyString => true
  | String c _ => negb (Py.isdigit c)
  end.

(** The integer a run of decimal digits writes: each digit counts ten
    times the one after it. *)
Definition numeral_value (digits : string) : Z :=
  fold_left (fun acc c => 10 * acc + (Py.code c - 48)) (list_ascii_of_string digits) 0.

(** The identifier of a record: its number, the empty string when it
    has none. *)
Definition number_of (t : raw_ticket) : string := default EmptyString (t !! "number").

(** The derived numeric ordinal of an identifier: the integer written
    by the digits of the identifier (by the first run of digits, should
    the identifier hold several), and -1 for an identifier without any
    digit. *)
Definition numeric_ordinal (identifier : string) (n : Z) : Prop :=
  (no_digit identifier = true ∧ n = -1)
  ∨ ∃ prefix digits rest,
      identifier = prefix ++ digits ++ rest
      ∧ no_digit prefix = true
      ∧ all_digits digits = true ∧ digits ≠ EmptyString
      ∧ stops_run rest = true
      ∧ n = numeral_value digits.

(** The number two digits write. *)
Definition digit2 (a b : ascii) : Z := 10 * Py.digit_val a + Py.digit_val b.

(** A string in the format [YYYY-MM-DD HH:MM:SS] taken strictly: 19
    characters, every field at its full width and made of digits, the
    separators at their places; with the fields it writes. *)
Definition strict_fields (s : string) : option Py.datetime :=
  match list_ascii_of_string s with
  | [y1; y2; y3; y4; p1; m1; m2; p2; d1; d2; p3; h1; h2; p4; i1; i2; p5; s1; s2] =>
      if forallb Py.isdigit [y1; y2; y3; y4; m1; m2; d1; d2; h1; h2; i1; i2; s1; s2]
         && Ascii.eqb p1 "-" && Ascii.eqb p2 "-" && Ascii.eqb p3 " "
         && Ascii.eqb p4 ":" && Ascii.eqb p5 ":"
      then Some (Py.DateTime (100 * digit2 y1 y2 + digit2 y3 y4) (digit2 m1 m2)
                   (digit2 d1 d2) (digit2 h1 h2) (digit2 i1 i2) (digit2 s1 s2))
      else None
  | _ => None
  end.

(** The fields name a date and a time of the calendar. *)
Definition calendar_ok (d : Py.datetime) : bool :=
  (1 <=? Py.year d) && (1 <=? Py.month d) && (Py.month d <=? 12)
  && (1 <=? Py.day d) && (Py.day d <=? Py.days_in_month (Py.year d) (Py.month d))
  && (Py.hour d <=? 23) && (Py.minute d <=? 59) && (Py.second d <=? 59).

(** A timestamp strictly in the format, naming a date and time of the
    calendar. *)
Definition strict_timestamp (s : string) : bool :=
  match strict_fields s with
  | Some d => calendar_ok d
  | None => false
  end.

End Reading.

Import Reading.
Import Examples.

(* ===================================================================== *)
(** * extra.py: cleaning and listing the store *)
(* ===================================================================== *)

Module Extra.

(** The environment of an administrative request: that of any request,
    and for every collection whether the server fails its deletion. *)
Record admin_env : Type := AdminEnv {
  base : env;
  fault_delete : string -> option Py.exn
}.

(** [client.delete_collection(name)]: all or nothing. Deletions are not
    entered in the trace. *)
Definition delete_collection (a : admin_env) (name : string) : M unit :=
  may_fail (fault_delete a name) ;;;
  s <- get_store ;;
  match s !! name with
  | None => raise (Client.not_found name)
  | Some _ => put_store (delete name s)
  end.

(** [connect_chromadb] *)
Definition connect_chromadb (a : admin_env) : M unit := Client.HttpClient (base a).

(** The loop [for c in collections: client.delete_collection(c.name)]. *)
Fixpoint delete_each (a : admin_env) (names : list string) : M unit :=
  match names with
  | [] => ret tt
  | name :: rest => delete_collection a name ;;; delete_each a rest
  end.

Definition not_found_message (db_name : string) : string :=
  "Collection '" ++ db_name ++ "' not found.".

Definition deleted_message (db_name : string) : string :=
  "Deleted collection '" ++ db_name ++ "'".

Definition deleted_all_message (n : nat) : string :=
  "Deleted all collections (" ++ Py.str_nat n ++ " total)".

(** [clean_chromadb(client, db_name)], as the text of the ["message"]
    entry it returns; an exception is logged and raised again. *)
Definition clean_chromadb (a : admin_env) (db_name : option string) : M string :=
  collections <- Client.list_collections (base a) ;;
  if Py.truthy (default EmptyString db_name) then
    let name := default EmptyString db_name in
    match filter (fun c => c = name) collections with
    | [] => ret (not_found_message name)
    | _ :: _ =>
        delete_collection a name ;;;
        ret (deleted_message name)
    end
  else
    delete_each a collections ;;;
    ret (deleted_all_message (length collections)).

(** [list_chromadb_collections(client)] *)
Definition list_chromadb_collections (a : admin_env) : M (list string) :=
  Client.list_collections (base a).

End Extra.

(* ===================================================================== *)
(** * document.py: from the uploaded bytes to the stored chunks *)
(* ===================================================================== *)

Module Pdf.

(** What [fitz] makes of the uploaded bytes: an exception, or for every
    page the text inside the clip rectangle. *)
Definition pdf_document : Type := Py.result (list string).

(** [extract_text]: the page texts joined by a blank line. *)
Definition extract_text (pdf : pdf_document) : Py.result string :=
  match pdf with
  | inl x => inl x
  | inr text_pages => inr (Splitter.join Document.paragraph_break text_pages)
  end.

Definition default_collection : string := "documentation".

(** [sync_pdf]: extract, split, connect, store. *)
Definition sync_pdf (e : env) (pdf : pdf_document) (file_name : string)
  (collection_name : string) : M Document.store_summary :=
  text <- lift (extract_text pdf) ;;
  chunks <- lift (Document.split_text text) ;;
  Client.HttpClient e ;;;
  Document.store_chunks e chunks file_name collection_name.

End Pdf.

(* ===================================================================== *)
(** * app.py: the other endpoints over the store *)
(* ===================================================================== *)

Module Api.

(** [s.endswith(suffix)] *)
Fixpoint ends_with (suffix s : string) : bool :=
  String.eqb s suffix
  || match s with
     | EmptyString => false
     | String _ r => ends_with suffix r
     end.

(** [os.path.basename(p)] on a POSIX host: what follows the last slash. *)
Definition basename (p : string) : string :=
  List.last (Py.split_char "/" p) EmptyString.

(** An uploaded file: its name and what its bytes hold. *)
Record upload : Type := Upload {
  filename : string;
  content : Pdf.pdf_document
}.

Definition is_pdf_name (name : string) : bool := ends_with ".pdf" name.

(** [POST /sync-pdf] *)
Definition sync_pdf (e : env) (file : upload) (w : world)
  : App.response Document.store_summary * world :=
  if negb (is_pdf_name (filename file)) then
    (App.HTTPException 400 "Only PDF files are allowed.", w)
  else
    match Pdf.sync_pdf e (content file) (basename (filename file))
            Pdf.default_collection w with
    | (inr result, w') => (App.Ok result, w')
    | (inl x, w') => (App.HTTPException 500 (Py.exn_str x), w')
    end.

Section SyncTickets.

(** [str(e)] of an [HTTPException] with the given status and detail; the
    class belongs to the web framework. *)
Variable str_http_exception : Z -> string -> string.

(** [POST /sync-tickets]: the [HTTPException] raised for a failed run is
    caught by the handler's own [except Exception] and wrapped again. *)
Definition sync_tickets (e : env) (w : world)
  : App.response Incident.sync_result * world :=
  let '(result, w') := Incident.sync_tickets e w in
  if Incident.success result then (App.Ok result, w')
  else
    (App.HTTPException 500
       ("Unexpected error during ticket sync: "
        ++ str_http_exception 500 (Incident.message result)), w').

End SyncTickets.

(** One entry of the ["results"] list of [POST /sync-multiple-pdfs]. *)
Inductive file_report : Type :=
| Skipped (name : string) (error : string)
| Stored (name : string) (chunks_stored : nat)
| Failed (name : string) (error : string).

Definition report_name (r : file_report) : string :=
  match r with
  | Skipped n _ | Stored n _ | Failed n _ => n
  end.

Definition report_status (r : file_report) : string :=
  match r with
  | Skipped _ _ => "skipped"
  | Stored _ _ => "success"
  | Failed _ _ => "failed"
  end.

(** The body of the loop over the uploaded files; [e] is the environment
    at the time this file is processed. *)
Definition process_file (file : upload) (e : env) (w : world)
  : file_report * world :=
  if negb (is_pdf_name (filename file)) then
    (Skipped (filename file) "Not a PDF", w)
  else
    match (text <- lift (Pdf.extract_text (content file)) ;;
           chunks <- lift (Document.split_text text) ;;
           Document.store_chunks e chunks (filename file) Pdf.default_collection) w with
    | (inr stored, w') => (Stored (filename file) (Document.chunks_stored stored), w')
    | (inl x, w') => (Failed (filename file) (Py.exn_str x), w')
    end.

Fixpoint process_files (files : list (upload * env)) (w : world)
  : list file_report * world :=
  match files with
  | [] => ([], w)
  | (file, e) :: rest =>
      let '(r, w1) := process_file file e w in
      let '(rs, w2) := process_files rest w1 in
      (r :: rs, w2)
  end.

(** [POST /sync-multiple-pdfs]: each file comes with the environment at
    the time it is processed; [e] is that of the connection made first.
    An exception of the connection leaves the handler. *)
Definition sync_multiple (e : env) (files : list (upload * env)) (w : world)
  : Py.result (App.response (list file_report)) * world :=
  match files with
  | [] => (inr (App.HTTPException 400 "No files uploaded."), w)
  | _ :: _ =>
      match Client.HttpClient e w with
      | (inl x, w') => (inl x, w')
      | (inr _, w') =>
          let '(results, w'') := process_files files w' in
          (inr (App.Ok results), w'')
      end
  end.

(** [POST /clean-db] *)
Definition clean_db (a : Extra.admin_env) (db_name : option string) (w : world)
  : App.response string * world :=
  match (Extra.connect_chromadb a ;;; Extra.clean_chromadb a db_name) w with
  | (inr message, w') => (App.Ok message, w')
  | (inl x, w') => (App.HTTPException 500 (Py.exn_str x), w')
  end.

(** [GET /list-collections] *)
Definition list_collections (a : Extra.admin_env) (w : world)
  : App.response (list string) * world :=
  match (Extra.connect_chromadb a ;;; Extra.list_chromadb_collections a) w with
  | (inr names, w') => (App.Ok names, w')
  | (inl x, w') => (App.HTTPException 500 (Py.exn_str x), w')
  end.

End Api.

(* ===================================================================== *)
(** * Further vocabulary: records, numerals, calendar dates *)
(* ===================================================================== *)

Module Further.

(** The records of a named collection; none when it does not exist. *)
Definition records_of (s : store) (name : string) : list record :=
  match s !! name with
  | Some c => coll_records c
  | None => []
  end.

(** A date and time of the calendar. *)
Definition real_datetime (d : Py.datetime) : Prop :=
  1 ≤ Py.year d ≤ 9999
  ∧ 1 ≤ Py.month d ≤ 12
  ∧ 1 ≤ Py.day d ≤ Py.days_in_month (Py.year d) (Py.month d)
  ∧ 0 ≤ Py.hour d ≤ 23
  ∧ 0 ≤ Py.minute d ≤ 59
  ∧ 0 ≤ Py.second d ≤ 59.



(** The part of [sync_tickets] that follows the lookup of the
    collection: lines 171-208 of [incident.py], for the handle [coll]. *)
Definition sync_with_collection (e : env) (coll : handle) : M Incident.sync_result :=
  let cutoff_time := Incident.effective_cutoff (Incident.load_last_update_time coll) in
  fetched <- Incident.fetch_tickets_from_servicenow e cutoff_time ;;
  let tickets := fst fetched in
  let latest := snd fetched in
  match tickets with
  | _ :: _ =>
      let batches := Incident.prepare_ticket_batches tickets in
      Incident.store_ticket_data e coll (fst batches) (snd batches) ;;;
      match latest with
      | None =>
          raise (Py.Exn Py.AttributeError "'NoneType' object has no attribute 'get'")
      | Some latest_ticket =>
          let latest_time := latest_ticket !! "sys_created_on" in
          match latest_time with
          | Some t =>
              if Py.truthy t then Incident.save_last_update_time e coll t else ret tt
          | None => ret tt
          end ;;;
          ret {| Incident.success := true;
                 Incident.message := "Tickets synced successfully";
                 Incident.tickets_processed := length tickets;
                 Incident.latest_update_time := Some latest_time;
                 Incident.timestamp := now_isoformat e |}
      end
  | [] =>
      ret {| Incident.success := true;
             Incident.message := "No new tickets to process";
             Incident.tickets_processed := 0;
             Incident.latest_update_time := None;
             Incident.timestamp := now_isoformat e |}
  end.

(** The call that queries the record source. *)
Definition is_request (ev : event) : bool :=
  match ev with
  | EvHttpGet _ _ => true
  | _ => false
  end.

(** The source answers the query for this cut-off, and with no record:
    a status other than 200, or a body without records. *)
Definition nothing_fetched (e : env) (cutoff : value) (d t : string) : Prop :=
  Incident.split_cutoff cutoff = inr (d, t)
  ∧ ∃ st js, http_get e d t = HttpResponse st js
             ∧ (st ≠ 200 ∨ js = JsonBody None ∨ js = JsonBody (Some [])).


(** The chunk at position [i] is stored under the id [source_i], with
    the source as its metadata. *)
Definition chunk_records (source_name : string) (chunks : list string)
  (rs : list record) : Prop :=
  List.length rs = List.length chunks
  ∧ ∀ i chunk, chunks !! i = Some chunk →
      rs !! i = Some (Rec (source_name ++ "_" ++ Py.str_nat i) chunk
                        {[ "source" := VStr source_name ]}).

(** [s] is the decimal numeral of [n]: digits only, at least one, no
    zero in front of another digit, and the value [n]. *)
Definition numeral (n : nat) (s : string) : Prop :=
  all_digits s = true ∧ s ≠ EmptyString
  ∧ (∀ r, s = String "0" r → r = EmptyString)
  ∧ numeral_value s = Z.of_nat n.

(** The number of spaces of a string. *)
Fixpoint spaces (s : string) : nat :=
  match s with
  | EmptyString => O
  | String c r => ((if Ascii.eqb c " " then 1 else 0) + spaces r)%nat
  end.


(** The records [add] takes in: those of [new] whose id is not held
    yet. *)
Definition fresh_records (held new : list record) : list record :=
  filter (fun r => rec_id r ∉ map rec_id held) new.

(** The uploads that are named [*.pdf]. *)
Definition pdf_uploads (files : list (Api.upload * env)) : list (Api.upload * env) :=
  filter (fun fe => Api.is_pdf_name (Api.filename (fst fe)) = true) files.

End Further.

(* ===================================================================== *)
(** * Properties *)
(* ===================================================================== *)

(** ** The store calls, one by one *)

Ltac unfold_M :=
  unfold Chroma.bind, Chroma.ret, Chroma.raise, Chroma.lift, Chroma.log,
    Chroma.get_store, Chroma.put_store, Chroma.may_fail in *.

Lemma names_listed (s : store) (name : string) :
  name ∈ map fst (map_to_list s) ↔ is_Some (s !! name).
Proof.
  rewrite list_elem_of_fmap. split.
  - intros [[k c] [-> Hin]]. apply elem_of_map_to_list in Hin. eauto.
  - intros [c Hc]. exists (name, c). split; [done|].
    by apply elem_of_map_to_list.
Qed.

Lemma modify_ok (e : env) (h : handle) (md : metadata) (w : world) (c : collection) :
  fault_modify e = None →
  w_store w !! h_name h = Some c →
  Client.modify e h md w =
    (inr tt, World (<[h_name h := Coll (Some md) (coll_records c)]> (w_store w))
                   (w_trace w ++ [EvModify (h_name h) md])).
Proof.
  intros Hf Hc. unfold Client.modify. unfold_M. rewrite Hf. simpl. by rewrite Hc.
Qed.

Lemma modify_raises_unchanged (e : env) (h : handle) (md : metadata) (w w' : world) x :
  Client.modify e h md w = (inl x, w') → w' = w.
Proof.
  unfold Client.modify. unfold_M.
  destruct (fault_modify e); [by intros [= _ <-]|]. simpl.
  destruct (w_store w !! h_name h); [discriminate|]. by intros [= _ <-].
Qed.

Lemma get_or_create_existing (e : env) (name : string) (md : option metadata)
  (w : world) (c : collection) :
  w_store w !! name = Some c →
  Client.get_or_create_collection e name md w =
    match fault_get_or_create e with
    | Some x => (inl x, w)
    | None => (inr (Handle name (coll_metadata c)),
               World (w_store w) (w_trace w ++ [EvGetOrCreate name md]))
    end.
Proof.
  intros Hc. unfold Client.get_or_create_collection. unfold_M.
  destruct (fault_get_or_create e); [done|]. simpl. by rewrite Hc.
Qed.

Lemma get_or_create_absent (e : env) (name : string) (md : option metadata)
  (w : world) :
  w_store w !! name = None →
  Client.get_or_create_collection e name md w =
    match fault_get_or_create e with
    | Some x => (inl x, w)
    | None => (inr (Handle name md),
               World (<[name := Coll md []]> (w_store w))
                     (w_trace w ++ [EvGetOrCreate name md]))
    end.
Proof.
  intros Hc. unfold Client.get_or_create_collection. unfold_M.
  destruct (fault_get_or_create e); [done|]. simpl. by rewrite Hc.
Qed.

(** The hand-written get-or-create of the ticket path, on a store that
    already has the collection. *)
Lemma ticket_collection_existing (e : env) (w : world) (c : collection) :
  w_store w !! Incident.collection_name = Some c →
  ∃ r w', Incident.get_or_create_ticket_collection e w = (r, w')
    ∧ w_store w' = w_store w
    ∧ (∀ h, r = inr h → h = Handle Incident.collection_name (coll_metadata c))
    ∧ (fault_list e = None → fault_get e = None →
       r = inr (Handle Incident.collection_name (coll_metadata c))
       ∧ w_trace w' = (w_trace w ++ [EvList; EvGet Incident.collection_name])%list).
Proof.
  intros Hc. unfold Incident.get_or_create_ticket_collection, Client.list_collections.
  unfold_M. destruct (fault_list e) as [x|] eqn:Hl; simpl.
  { eexists _, _. split; [done|]. repeat split; try done. }
  rewrite bool_decide_eq_true_2 by (apply names_listed; simpl; eauto).
  unfold Client.get_collection. unfold_M.
  destruct (fault_get e) as [x|] eqn:Hg; simpl.
  { eexists _, _. split; [done|]. repeat split; try done. }
  rewrite Hc. simpl. eexists _, _. split; [done|].
  repeat split; try done.
  - by intros h [= <-].
  - by rewrite <- app_assoc.
Qed.

(** ... and on a store that does not have it. *)
Lemma ticket_collection_absent (e : env) (w : world) :
  w_store w !! Incident.collection_name = None →
  ∃ r w', Incident.get_or_create_ticket_collection e w = (r, w')
    ∧ (∀ x, r = inl x → w_store w' = w_store w)
    ∧ (∀ h, r = inr h →
         h = Handle Incident.collection_name (Some Incident.creation_metadata)
         ∧ w_store w' = <[Incident.collection_name :=
                            Coll (Some Incident.creation_metadata) []]> (w_store w)
         ∧ w_trace w' = (w_trace w ++ [EvList;
              EvCreate Incident.collection_name (Some Incident.creation_metadata)])%list)
    ∧ (fault_list e = None → fault_create e = None → ∃ h, r = inr h).
Proof.
  intros Hc. unfold Incident.get_or_create_ticket_collection, Client.list_collections.
  unfold_M. destruct (fault_list e) as [x|] eqn:Hl; simpl.
  { eexists _, _. split; [done|]. repeat split; try done. }
  rewrite bool_decide_eq_false_2; last first.
  { rewrite names_listed. simpl. rewrite Hc. by intros [? ?]. }
  unfold Client.create_collection. unfold_M.
  destruct (fault_create e) as [x|] eqn:Hg; simpl.
  { eexists _, _. split; [done|]. repeat split; try done. }
  rewrite Hc. simpl. eexists _, _. split; [done|].
  split; [done|]. split; [|eauto].
  intros h [= <-]. split; [done|]. split; [done|].
  simpl. by rewrite <- app_assoc.
Qed.

(** [add], case by case. *)
Lemma add_cases (e : env) (h : handle) ids docs metas (w : world) :
  Client.add e h ids docs metas w
  = match Client.validate_add ids docs metas with
    | Some x => (inl x, w)
    | None =>
        match fault_add e with
        | Some x => (inl x, w)
        | None =>
            match w_store w !! h_name h with
            | None => (inl (Client.not_found (h_name h)), w)
            | Some c =>
                (inr tt,
                 World (<[h_name h :=
                           Coll (coll_metadata c)
                             (coll_records c
                              ++ filter (λ r, rec_id r ∉ map rec_id (coll_records c))
                                   (Client.zip_records ids docs metas))]> (w_store w))
                       (w_trace w ++ [EvAdd (h_name h) ids]))
            end
        end
    end.
Proof.
  unfold Client.add. destruct (Client.validate_add ids docs metas); [done|].
  unfold_M. destruct (fault_add e); [done|]. simpl.
  by destruct (w_store w !! h_name h).
Qed.

Lemma add_keeps_metadata (e : env) (h : handle) ids docs metas (w : world) :
  ∀ name, metadata_of (w_store (snd (Client.add e h ids docs metas w))) name
          = metadata_of (w_store w) name.
Proof.
  intros name. rewrite add_cases.
  destruct (Client.validate_add ids docs metas); [done|].
  destruct (fault_add e); [done|].
  destruct (w_store w !! h_name h) as [c|] eqn:Hc; [|done]. simpl.
  unfold metadata_of. destruct (decide (h_name h = name)) as [<-|Hne].
  - rewrite lookup_insert_eq, Hc. done.
  - by rewrite lookup_insert_ne.
Qed.

(** ** Saving the checkpoint *)

(** C3, as the store has it. A save that returns leaves, as the
    metadata map of the collection, the one-key map holding the
    watermark: the watermark is stored, no other key is in the map
    afterwards, and neither the records of the collection nor any other
    collection is touched. *)
Theorem C3_save_leaves_only_the_watermark (e : env) (h : handle) (t : string)
  (w : world) (c : collection)
  (Hserved : fault_modify e = None)
  (Hc : w_store w !! h_name h = Some c) :
  ∃ w', Incident.save_last_update_time e h t w = (inr tt, w')
    ∧ w_store w' !! h_name h
      = Some (Coll (Some {[ Incident.checkpoint_key := VStr t ]}) (coll_records c))
    ∧ (metadata_of (w_store w') (h_name h) ≫= (.!! Incident.checkpoint_key))
      = Some (VStr t)
    ∧ (∀ k, k ≠ Incident.checkpoint_key →
         (metadata_of (w_store w') (h_name h) ≫= (.!! k)) = None)
    ∧ (∀ name, name ≠ h_name h → w_store w' !! name = w_store w !! name).
Proof.
  unfold Incident.save_last_update_time.
  rewrite (modify_ok _ _ _ _ c Hserved Hc). eexists. split; [done|]. simpl.
  unfold metadata_of. rewrite lookup_insert_eq. simpl. split_and!.
  - done.
  - by rewrite lookup_singleton_eq.
  - intros k Hk. by rewrite lookup_singleton_ne.
  - intros name Hne. by rewrite lookup_insert_ne.
Qed.

Lemma C3_save_leaves_only_the_watermark_witness :
  ∃ w', Incident.save_last_update_time (quiet_env (ok_response []))
          (Handle Incident.collection_name (Some Incident.creation_metadata))
          "2025-07-03 15:16:53" (world_with (Some Incident.creation_metadata))
        = (inr tt, w')
    ∧ (metadata_of (w_store w') Incident.collection_name
         ≫= (.!! Incident.checkpoint_key))
      = Some (VStr "2025-07-03 15:16:53").
Proof.
  destruct (C3_save_leaves_only_the_watermark (quiet_env (ok_response []))
    (Handle Incident.collection_name (Some Incident.creation_metadata))
    "2025-07-03 15:16:53" (world_with (Some Incident.creation_metadata))
    (Coll (Some Incident.creation_metadata) [])
    eq_refl ltac:(vm_compute; reflexivity)) as (w' & Hrun & _ & Hkey & _).
  exists w'. split; [exact Hrun | exact Hkey].
Defined.

(** C3 as stated fails on the collection as the sync path creates it:
    before the save the metadata holds [hnsw:space], [sync_threshold] and
    [batch_size]; after it the map is the one-key map with the watermark
    and the three sibling keys are gone. *)
Lemma C3_save_drops_sibling_keys :
  let w := world_with (Some Incident.creation_metadata) in
  let h := Handle Incident.collection_name (Some Incident.creation_metadata) in
  let w' := snd (Incident.save_last_update_time
                   (quiet_env (ok_response [])) h "2025-07-03 15:16:53" w) in
  ticket_metadata_key (w_store w) "hnsw:space" = Some (VStr "cosine")
  ∧ ticket_metadata_key (w_store w) "sync_threshold" = Some (VInt 1000)
  ∧ ticket_metadata_key (w_store w) "batch_size" = Some (VInt 100)
  ∧ metadata_of (w_store w') Incident.collection_name
    = Some {[ Incident.checkpoint_key := VStr "2025-07-03 15:16:53" ]}
  ∧ ticket_metadata_key (w_store w') "hnsw:space" = None
  ∧ ticket_metadata_key (w_store w') "sync_threshold" = None
  ∧ ticket_metadata_key (w_store w') "batch_size" = None.
Proof. cbv zeta. repeat apply conj; vm_compute; reflexivity. Qed.

(** ** Get-or-create *)

(** C6. Get-or-create of a collection that already exists returns it
    unchanged, whatever default metadata the call supplies: the store is
    the same afterwards and the handle carries the existing metadata.
    This holds for the name lookup of the ticket path, for the client's
    [get_or_create_collection], and for the document path built on it,
    which adds records but leaves the metadata map as it was. *)
Theorem C6_get_or_create_keeps_existing (e : env) (w : world)
  (name : string) (c ct : collection) (md : option metadata)
  (chunks : list string) (src : string)
  (Ht : w_store w !! Incident.collection_name = Some ct)
  (Hc : w_store w !! name = Some c) :
  (∃ r w', Incident.get_or_create_ticket_collection e w = (r, w')
     ∧ w_store w' = w_store w
     ∧ ∀ h, r = inr h → h_metadata h = coll_metadata ct)
  ∧ (∃ r w', Client.get_or_create_collection e name md w = (r, w')
     ∧ w_store w' = w_store w
     ∧ ∀ h, r = inr h → h_metadata h = coll_metadata c)
  ∧ metadata_of (w_store (snd (Document.store_chunks e chunks src name w))) name
    = coll_metadata c.
Proof.
  split; [|split].
  - destruct (ticket_collection_existing e w ct Ht) as (r & w' & Hrun & Hs & Hh & _).
    exists r, w'. split; [done|]. split; [done|].
    intros h Hr. by rewrite (Hh h Hr).
  - rewrite (get_or_create_existing e name md w c Hc).
    destruct (fault_get_or_create e); eexists _, _; (split; [done|]);
      (split; [done|]); [done|]. by intros h [= <-].
  - unfold Document.store_chunks. unfold Chroma.bind at 1.
    rewrite (get_or_create_existing e name _ w c Hc).
    destruct (fault_get_or_create e).
    + simpl. unfold metadata_of. by rewrite Hc.
    + unfold Chroma.bind.
      match goal with
      | |- context [Client.add ?e ?h ?i ?d ?m ?w0] =>
          pose proof (add_keeps_metadata e h i d m w0 name) as Hadd;
          destruct (Client.add e h i d m w0) as [[x|[]] w1]
      end; simpl in *; rewrite Hadd; unfold metadata_of; by rewrite Hc.
Qed.

Lemma C6_get_or_create_keeps_existing_witness :
  ∃ r w',
    Client.get_or_create_collection (quiet_env (ok_response []))
      Incident.collection_name (Some Document.documents_metadata)
      (world_with (Some {[ Incident.checkpoint_key := VStr "2025-07-03 15:16:53" ]}))
    = (r, w')
    ∧ w_store w'
      = w_store (world_with (Some {[ Incident.checkpoint_key := VStr "2025-07-03 15:16:53" ]}))
    ∧ ∀ h, r = inr h →
        h_metadata h = Some {[ Incident.checkpoint_key := VStr "2025-07-03 15:16:53" ]}.
Proof.
  refine (proj1 (proj2 (C6_get_or_create_keeps_existing
    (quiet_env (ok_response []))
    (world_with (Some {[ Incident.checkpoint_key := VStr "2025-07-03 15:16:53" ]}))
    Incident.collection_name
    (Coll (Some {[ Incident.checkpoint_key := VStr "2025-07-03 15:16:53" ]}) [])
    (Coll (Some {[ Incident.checkpoint_key := VStr "2025-07-03 15:16:53" ]}) [])
    (Some Document.documents_metadata) [] "a.pdf" _ _))); vm_compute; reflexivity.
Defined.

(** Default metadata is what a collection is created with. *)
Lemma get_or_create_creates_with_default (e : env) (name : string)
  (md : option metadata) (w w' : world) (h : handle) :
  w_store w !! name = None →
  Client.get_or_create_collection e name md w = (inr h, w') →
  metadata_of (w_store w') name = md ∧ h_metadata h = md.
Proof.
  intros Hn. rewrite (get_or_create_absent e name md w Hn).
  destruct (fault_get_or_create e); [discriminate|]. intros [= <- <-]. simpl.
  unfold metadata_of. by rewrite lookup_insert_eq.
Qed.

(** ** Similarity configuration at creation *)

(** The ticket path and the document path create with [cosine]. *)
Lemma ticket_path_creates_cosine (e : env) (w w' : world) (h : handle) :
  w_store w !! Incident.collection_name = None →
  Incident.get_or_create_ticket_collection e w = (inr h, w') →
  ticket_metadata_key (w_store w') "hnsw:space" = Some (VStr "cosine").
Proof.
  intros Hn Hrun.
  destruct (ticket_collection_absent e w Hn) as (r & w1 & Hrun' & _ & Hh & _).
  rewrite Hrun in Hrun'. injection Hrun' as <- <-.
  destruct (Hh h eq_refl) as (_ & -> & _).
  unfold ticket_metadata_key, metadata_of. by rewrite lookup_insert_eq.
Qed.

Lemma document_path_creates_cosine (e : env) (name : string) (w w' : world) h :
  w_store w !! name = None →
  Client.get_or_create_collection e name (Some Document.documents_metadata) w
    = (inr h, w') →
  (metadata_of (w_store w') name ≫= (.!! "hnsw:space")) = Some (VStr "cosine").
Proof.
  intros Hn Hrun.
  destruct (get_or_create_creates_with_default e name _ w w' h Hn Hrun) as [-> _].
  reflexivity.
Qed.

(** C8 (evaluated on an empty store). The checkpoint endpoints create
    the ticket collection through [get_or_create_collection] without any
    metadata: after [GET /last-update-ticket-time] on an empty store the
    collection exists and has no [hnsw:space] entry; a later sync run
    finds it and does not add one, and the update endpoint leaves only
    the watermark in the map. *)
Theorem C8_checkpoint_endpoints_create_without_cosine :
  let e := quiet_env (ok_response [ticket "INC5" "2025-07-03 15:16:53"]) in
  let w1 := snd (App.get_last_update_time e empty_world) in
  let w2 := snd (Incident.sync_tickets e w1) in
  let w3 := snd (App.update_last_update_time e
                   (payload_of "2025-07-03 15:16:53") empty_world) in
  w_store w1 !! Incident.collection_name = Some (Coll None [])
  ∧ ticket_metadata_key (w_store w1) "hnsw:space" = None
  ∧ Incident.success (fst (Incident.sync_tickets e w1)) = true
  ∧ ticket_metadata_key (w_store w2) "hnsw:space" = None
  ∧ metadata_of (w_store w3) Incident.collection_name
    = Some {[ Incident.checkpoint_key := VStr "2025-07-03 15:16:53" ]}
  ∧ ticket_metadata_key (w_store w3) "hnsw:space" = None.
Proof. cbv zeta. repeat apply conj; vm_compute; reflexivity. Qed.

(** ** The steps of a sync run *)

Lemma strptime_nonempty (s : string) (d : Py.datetime) :
  Py.strptime s = inr d → s ≠ EmptyString.
Proof. intros H ->. vm_compute in H. discriminate. Qed.

Lemma map_ticket_created (e : env) (t : raw_ticket) (m : Incident.mapped_ticket) :
  Incident.map_ticket e t = inr m →
  ∃ s d, t !! "sys_created_on" = Some s ∧ Py.strptime s = inr d.
Proof.
  unfold Incident.map_ticket.
  destruct (t !! "sys_created_on") as [s|]; simpl; [|discriminate].
  destruct (Py.strptime s) as [x|d] eqn:Hs; [discriminate|]. eauto.
Qed.

Lemma map_tickets_created (e : env) (tickets : list raw_ticket) mapped :
  Incident.map_tickets e tickets = inr mapped →
  Forall (λ t : raw_ticket,
            ∃ s d, t !! "sys_created_on" = Some s ∧ Py.strptime s = inr d) tickets.
Proof.
  revert mapped. induction tickets as [|t r IH]; intros mapped; simpl.
  - constructor.
  - destruct (Incident.map_ticket e t) as [x|m] eqn:Hm; [discriminate|].
    destruct (Incident.map_tickets e r) as [x|ms] eqn:Hr; [discriminate|].
    intros _. constructor; [by eapply map_ticket_created | by eapply IH].
Qed.

Lemma map_tickets_length (e : env) (tickets : list raw_ticket) mapped :
  Incident.map_tickets e tickets = inr mapped → length mapped = length tickets.
Proof.
  revert mapped. induction tickets as [|t r IH]; intros mapped; simpl.
  - by intros [= <-].
  - destruct (Incident.map_ticket e t) as [x|m]; [discriminate|].
    destruct (Incident.map_tickets e r) as [x|ms]; [discriminate|].
    intros [= <-]. simpl. f_equal. by apply IH.
Qed.

Lemma max_by_from_in {A : Type} (key : A → Z) (l : list A) (best : A) :
  Py.max_by_from key best l = best ∨ Py.max_by_from key best l ∈ l.
Proof.
  revert best. induction l as [|x r IH]; intros best; simpl; [by left|].
  destruct (key best <? key x).
  - right. destruct (IH x) as [->|Hin]; [left | by right].
  - destruct (IH best) as [->|Hin]; [by left | right; by right].
Qed.

Lemma max_by_in {A : Type} (key : A → Z) (l : list A) (x : A) :
  Py.max_by key l = Some x → x ∈ l.
Proof.
  destruct l as [|y r]; [discriminate|]. intros [= <-].
  destruct (max_by_from_in key r y) as [->|Hin]; [left | by right].
Qed.

Lemma max_by_from_upper {A : Type} (key : A → Z) (l : list A) (best : A) :
  key best ≤ key (Py.max_by_from key best l)
  ∧ ∀ x, x ∈ l → key x ≤ key (Py.max_by_from key best l).
Proof.
  revert best. induction l as [|y r IH]; intros best; simpl.
  - split; [lia|]. intros x Hx. by apply elem_of_nil in Hx.
  - destruct (key best <? key y) eqn:Hlt.
    + apply Z.ltb_lt in Hlt. destruct (IH y) as [Hy Hr]. split; [lia|].
      intros x [->|Hx]%elem_of_cons; [done | by apply Hr].
    + apply Z.ltb_ge in Hlt. destruct (IH best) as [Hb Hr]. split; [done|].
      intros x [->|Hx]%elem_of_cons; [lia | by apply Hr].
Qed.

Lemma max_by_upper {A : Type} (key : A → Z) (l : list A) (m : A) :
  Py.max_by key l = Some m → ∀ x, x ∈ l → key x ≤ key m.
Proof.
  destruct l as [|y r]; [discriminate|]. intros [= <-] x.
  destruct (max_by_from_upper key r y) as [Hy Hr].
  intros [->|Hx]%elem_of_cons; [done | by apply Hr].
Qed.

(** What a fetch does: it never touches the store; when it returns, the
    batch was empty and nothing is selected, or every record of the
    batch was mapped and the record of highest ordinal is selected. *)
Lemma fetch_cases (e : env) (cutoff : value) (w : world) :
  ∃ r w' evs, Incident.fetch_tickets_from_servicenow e cutoff w = (r, w')
    ∧ w_store w' = w_store w
    ∧ w_trace w' = (w_trace w ++ evs)%list
    ∧ Forall (λ ev, is_write ev = false) evs
    ∧ ∀ mapped latest, r = inr (mapped, latest) →
        (batch e cutoff = [] ∧ mapped = [] ∧ latest = None)
        ∨ (batch e cutoff ≠ []
           ∧ Incident.map_tickets e (batch e cutoff) = inr mapped
           ∧ latest = Py.max_by Incident.ordinal (batch e cutoff)).
Proof.
  unfold Incident.fetch_tickets_from_servicenow, batch. unfold_M.
  destruct (Incident.split_cutoff cutoff) as [x|[d t]]; simpl.
  { exists (inl x), w, []. rewrite app_nil_r. repeat split; try done. }
  unfold Client.requests_get. unfold_M.
  destruct (http_get e d t) as [x|st js]; simpl.
  { exists (inl x), w, []. rewrite app_nil_r. repeat split; try done. }
  destruct (st =? 200) eqn:Hst; simpl.
  - unfold Client.json_result. unfold_M. destruct js as [x|res]; simpl.
    { eexists _, _, [_]. repeat split; try done. by repeat constructor. }
    destruct res as [[|t0 ts]|]; simpl.
    + eexists _, _, [_]. repeat split; try done; [by repeat constructor|].
      intros ?? [= <- <-]. by left.
    + destruct (Incident.map_tickets e (t0 :: ts)) as [x|ms] eqn:Hm.
      * simpl in Hm. rewrite Hm. eexists _, _, [_]. repeat split; try done.
        by repeat constructor.
      * simpl in Hm. rewrite Hm. eexists _, _, [_].
        repeat split; try done; [by repeat constructor|].
        intros ?? [= <- <-]. right. done.
    + eexists _, _, [_]. repeat split; try done; [by repeat constructor|].
      intros ?? [= <- <-]. by left.
  - destruct js as [x|[res|]]; eexists _, _, [_];
      (repeat split; try done; [by repeat constructor|]);
      intros ?? [= <- <-]; by left.
Qed.

Lemma stored_checkpoint_lookup (s : store) (c : collection) :
  s !! Incident.collection_name = Some c →
  default VNone (stored_checkpoint s)
  = Incident.load_last_update_time (Handle Incident.collection_name (coll_metadata c)).
Proof.
  intros Hc. unfold stored_checkpoint, ticket_metadata_key, metadata_of,
    Incident.load_last_update_time. rewrite Hc. simpl.
  destruct (coll_metadata c); simpl; [done|]. by rewrite lookup_empty.
Qed.

(** Obtaining the ticket collection never changes the stored checkpoint
    and writes nothing into a collection; the handle it yields names a
    collection of the store and reads the stored checkpoint. *)
Lemma ticket_collection_cases (e : env) (w : world) :
  ∃ r w' evs, Incident.get_or_create_ticket_collection e w = (r, w')
    ∧ w_trace w' = (w_trace w ++ evs)%list
    ∧ Forall (λ ev, is_write ev = false) evs
    ∧ stored_checkpoint (w_store w') = stored_checkpoint (w_store w)
    ∧ ∀ h, r = inr h →
        h_name h = Incident.collection_name
        ∧ is_Some (w_store w' !! Incident.collection_name)
        ∧ Incident.load_last_update_time h
          = default VNone (stored_checkpoint (w_store w)).
Proof.
  destruct (w_store w !! Incident.collection_name) as [c|] eqn:Hc.
  - unfold Incident.get_or_create_ticket_collection, Client.list_collections.
    unfold_M. destruct (fault_list e) as [x|]; simpl.
    { exists (inl x), w, []. rewrite app_nil_r. split_and!; try done. }
    rewrite bool_decide_eq_true_2 by (apply names_listed; simpl; eauto).
    unfold Client.get_collection. unfold_M.
    destruct (fault_get e) as [x|]; simpl.
    { eexists _, _, [_]. split_and!; try done. by repeat constructor. }
    rewrite Hc. simpl. eexists _, _, [_; _]. rewrite <- app_assoc.
    split_and!; try done; [by repeat constructor|].
    intros h [= <-]. split_and!; [done|simpl; eauto|].
    symmetry. by apply stored_checkpoint_lookup.
  - unfold Incident.get_or_create_ticket_collection, Client.list_collections.
    unfold_M. destruct (fault_list e) as [x|]; simpl.
    { exists (inl x), w, []. rewrite app_nil_r. split_and!; try done. }
    rewrite bool_decide_eq_false_2; last first.
    { rewrite names_listed. simpl. rewrite Hc. by intros [? ?]. }
    unfold Client.create_collection. unfold_M.
    destruct (fault_create e) as [x|]; simpl.
    { eexists _, _, [_]. split_and!; try done. by repeat constructor. }
    rewrite Hc. simpl. eexists _, _, [_; _]. rewrite <- app_assoc.
    assert (Hck : stored_checkpoint
              (<[Incident.collection_name :=
                   Coll (Some Incident.creation_metadata) []]> (w_store w))
            = stored_checkpoint (w_store w)).
    { unfold stored_checkpoint, ticket_metadata_key, metadata_of.
      rewrite lookup_insert_eq, Hc. reflexivity. }
    split_and!; try done; [by repeat constructor|].
    intros h [= <-]. split_and!; [done|simpl; rewrite lookup_insert_eq; eauto|].
    unfold stored_checkpoint, ticket_metadata_key, metadata_of.
    rewrite Hc. reflexivity.
Qed.

Lemma stored_checkpoint_same_metadata (s : store) (c : collection) recs :
  s !! Incident.collection_name = Some c →
  stored_checkpoint (<[Incident.collection_name := Coll (coll_metadata c) recs]> s)
  = stored_checkpoint s.
Proof.
  intros Hc. unfold stored_checkpoint, ticket_metadata_key, metadata_of.
  by rewrite lookup_insert_eq, Hc.
Qed.

Lemma stored_checkpoint_saved (s : store) (t : string) recs :
  stored_checkpoint
    (<[Incident.collection_name :=
         Coll (Some {[ Incident.checkpoint_key := VStr t ]}) recs]> s)
  = Some (VStr t).
Proof.
  unfold stored_checkpoint, ticket_metadata_key, metadata_of.
  rewrite lookup_insert_eq. simpl. by rewrite lookup_singleton_eq.
Qed.

Lemma not_write_not_save (evs : list event) :
  Forall (λ ev, is_write ev = false) evs → Forall (λ ev, is_save ev = false) evs.
Proof.
  intros H. eapply Forall_impl; [exact H|]. intros [] Hw; simpl in *; done.
Qed.

(** The anatomy of a run. Either no checkpoint was saved and the stored
    checkpoint is what it was (a run that returns then found an empty
    batch), or the run ended with a store of the whole batch followed by
    the save of the creation timestamp of the record of highest
    ordinal, and that timestamp is not empty. *)
Lemma sync_body_cases (e : env) (w : world) :
  ∃ r w' evs, Incident.sync_body e w = (r, w')
    ∧ w_trace w' = (w_trace w ++ evs)%list
    ∧ ((Forall (λ ev, is_save ev = false) evs
        ∧ stored_checkpoint (w_store w') = stored_checkpoint (w_store w)
        ∧ ∀ res, r = inr res →
            res = empty_result e
            ∧ batch e (checkpoint_in_force (w_store w)) = [])
       ∨ (∃ pre ids latest t,
            evs = (pre ++ [EvAdd Incident.collection_name ids;
                           EvModify Incident.collection_name
                             {[ Incident.checkpoint_key := VStr t ]}])%list
            ∧ Forall (λ ev, is_write ev = false) pre
            ∧ Py.max_by Incident.ordinal (batch e (checkpoint_in_force (w_store w)))
              = Some latest
            ∧ latest !! "sys_created_on" = Some t
            ∧ t ≠ EmptyString
            ∧ r = inr (stored_result e
                         (length (batch e (checkpoint_in_force (w_store w)))) t)
            ∧ stored_checkpoint (w_store w') = Some (VStr t))).
Proof.
  unfold Incident.sync_body, Incident.fetch_db_client, Client.HttpClient.
  unfold Chroma.bind at 1 2. unfold Chroma.may_fail.
  destruct (fault_connect e) as [x|]; simpl.
  { exists (inl x), w, []. rewrite app_nil_r. split_and!; try done.
    left. split_and!; try done. }
  unfold Chroma.bind at 1.
  destruct (ticket_collection_cases e (World (w_store w) (w_trace w ++ [EvConnect])))
    as (r1 & w1 & evs1 & Hgoc & Htr1 & Hq1 & Hck1 & Hh).
  rewrite Hgoc. simpl in Htr1, Hck1. destruct r1 as [x|h].
  { exists (inl x), w1, (EvConnect :: evs1). split_and!; try done.
    - rewrite Htr1. by rewrite <- app_assoc.
    - left. split_and!; try done. constructor; [done|].
      by apply not_write_not_save. }
  destruct (Hh h eq_refl) as (Hname & [c Hc] & Hload). simpl in Hload.
  rewrite Hload. fold (checkpoint_in_force (w_store w)).
  set (cutoff := checkpoint_in_force (w_store w)).
  unfold Chroma.bind at 1.
  destruct (fetch_cases e cutoff w1) as (r2 & w2 & evs2 & Hf & Hs2 & Htr2 & Hq2 & Hres).
  rewrite Hf. destruct r2 as [x|[mapped latest]].
  { exists (inl x), w2, (EvConnect :: evs1 ++ evs2)%list. split_and!; try done.
    - rewrite Htr2, Htr1. by rewrite <- !app_assoc.
    - left. split_and!; try done; [|by rewrite Hs2].
      constructor; [done|]. apply not_write_not_save. by apply Forall_app. }
  simpl. destruct (Hres _ _ eq_refl) as [(Hb & -> & ->)|(Hb & Hm & ->)].
  { eexists _, w2, (EvConnect :: evs1 ++ evs2)%list. split_and!; try done.
    - rewrite Htr2, Htr1. by rewrite <- !app_assoc.
    - left. split_and!; try done; [|by rewrite Hs2|].
      + constructor; [done|]. apply not_write_not_save. by apply Forall_app.
      + by intros res [= <-]. }
  pose proof (map_tickets_length _ _ _ Hm) as Hlen.
  pose proof (map_tickets_created _ _ _ Hm) as Hcreated.
  destruct mapped as [|m ms].
  { destruct (batch e cutoff); [done | discriminate]. }
  destruct (Py.max_by Incident.ordinal (batch e cutoff)) as [latest|] eqn:Hmax;
    last by (destruct (batch e cutoff); [done | discriminate]).
  pose proof (max_by_in _ _ _ Hmax) as Hin.
  rewrite Forall_forall in Hcreated.
  destruct (Hcreated latest Hin) as (t & d & Ht & Hd).
  pose proof (strptime_nonempty _ _ Hd) as Hne.
  unfold Incident.store_ticket_data.
  unfold Chroma.bind at 1. rewrite add_cases.
  destruct (Client.validate_add _ _ _) as [x|].
  { exists (inl x), w2, (EvConnect :: evs1 ++ evs2)%list. split_and!; try done.
    - rewrite Htr2, Htr1. by rewrite <- !app_assoc.
    - left. split_and!; try done; [|by rewrite Hs2].
      constructor; [done|]. apply not_write_not_save. by apply Forall_app. }
  destruct (fault_add e) as [x|].
  { exists (inl x), w2, (EvConnect :: evs1 ++ evs2)%list. split_and!; try done.
    - rewrite Htr2, Htr1. by rewrite <- !app_assoc.
    - left. split_and!; try done; [|by rewrite Hs2].
      constructor; [done|]. apply not_write_not_save. by apply Forall_app. }
  rewrite Hname, Hs2, Hc. unfold Chroma.bind at 1. simpl.
  rewrite Ht. simpl.
  replace (Py.truthy t) with true by (by destruct t).
  unfold Incident.save_last_update_time, Client.modify.
  unfold Chroma.bind at 1 2. unfold Chroma.may_fail.
  destruct (fault_modify e) as [x|]; simpl.
  { eexists (inl x), _, (EvConnect :: evs1 ++ evs2 ++ [_])%list.
    split_and!; try done.
    - simpl. rewrite Htr2, Htr1. by rewrite <- !app_assoc.
    - left. split_and!; try done.
      + constructor; [done|]. rewrite !Forall_app. split_and!.
        * by apply not_write_not_save.
        * by apply not_write_not_save.
        * by repeat constructor.
      + simpl. rewrite <- Hck1, <- Hs2. by apply stored_checkpoint_same_metadata;
          rewrite Hs2. }
  rewrite Hname, lookup_insert_eq. unfold_M. simpl.
  eexists _, _, (EvConnect :: evs1 ++ evs2 ++ [_; _])%list. split_and!.
  - reflexivity.
  - simpl. rewrite Htr2, Htr1. by rewrite <- !app_assoc.
  - right. exists (EvConnect :: evs1 ++ evs2)%list. eexists _, latest, t.
    split_and!; try done.
    + simpl. by rewrite <- !app_assoc.
    + constructor; [done|]. by apply Forall_app.
    + unfold stored_result. rewrite <- Hlen. reflexivity.
    + simpl. rewrite insert_insert_eq. apply stored_checkpoint_saved.
Qed.

(** ** Advancing the checkpoint *)

Lemma sync_tickets_unfold (e : env) (w : world) :
  Incident.sync_tickets e w
  = match Incident.sync_body e w with
    | (inr r, w') => (r, w')
    | (inl x, w') => (failed_result e x, w')
    end.
Proof. reflexivity. Qed.

Lemma save_is_last (pre post p : list event) (name n : string) (md m0 : metadata) ids :
  (pre ++ EvModify name md :: post)%list
  = (p ++ [EvAdd n ids; EvModify n m0])%list →
  Forall (λ ev, is_write ev = false) p →
  post = [] ∧ pre = (p ++ [EvAdd n ids])%list ∧ name = n ∧ md = m0.
Proof.
  intros Heq Hp.
  replace (p ++ [EvAdd n ids; EvModify n m0])%list
    with ((p ++ [EvAdd n ids]) ++ [EvModify n m0])%list in Heq
    by (by rewrite <- app_assoc).
  destruct post as [|z post'] using rev_ind.
  - apply app_inj_tail in Heq as [-> [= -> ->]]. done.
  - clear IHpost'. exfalso.
    replace (pre ++ EvModify name md :: post' ++ [z])%list
      with ((pre ++ EvModify name md :: post') ++ [z])%list in Heq
      by (by rewrite <- app_assoc).
    apply app_inj_tail in Heq as [Heq _].
    assert (Hin : EvModify name md ∈ (p ++ [EvAdd n ids])%list).
    { rewrite <- Heq. apply elem_of_app. right. by left. }
    apply elem_of_app in Hin as [Hin|Hin].
    + rewrite Forall_forall in Hp. by specialize (Hp _ Hin).
    + apply list_elem_of_singleton in Hin. discriminate.
Qed.

(** C2. In every sync run a checkpoint save, if there is one, is the
    last call of the run, comes right after the [add] of the batch has
    returned, and carries the creation timestamp of the latest record of
    the batch, which is not empty; and if the body of the run raises, the outcome is the failure
    record with the exception text in its message, and the stored
    checkpoint is what it was before the run. *)
Theorem C2_checkpoint_saved_only_after_store (e : env) (w : world) :
  ∃ evs,
    w_trace (snd (Incident.sync_tickets e w)) = (w_trace w ++ evs)%list
    ∧ (∀ pre name md post,
         evs = (pre ++ EvModify name md :: post)%list →
         post = []
         ∧ ∃ pre' ids latest t,
             pre = (pre' ++ [EvAdd name ids])%list
             ∧ md = {[ Incident.checkpoint_key := VStr t ]}
             ∧ Py.max_by Incident.ordinal (batch e (checkpoint_in_force (w_store w)))
               = Some latest
             ∧ latest !! "sys_created_on" = Some t
             ∧ t ≠ EmptyString
             ∧ Incident.latest_update_time (fst (Incident.sync_tickets e w))
               = Some (Some t))
    ∧ (∀ x w1,
         Incident.sync_body e w = (inl x, w1) →
         fst (Incident.sync_tickets e w) = failed_result e x
         ∧ stored_checkpoint (w_store (snd (Incident.sync_tickets e w)))
           = stored_checkpoint (w_store w))
    ∧ (Incident.success (fst (Incident.sync_tickets e w)) = false →
       ∃ x w1, Incident.sync_body e w = (inl x, w1)).
Proof.
  rewrite sync_tickets_unfold.
  destruct (sync_body_cases e w) as (r & w' & evs & Hrun & Htr & Hcases).
  rewrite Hrun. exists evs. split_and!.
  - by destruct r.
  - intros pre name md post Hevs.
    destruct Hcases as [(Hns & _)|(p & ids & latest & t & Hshape & Hp & Hmax & Ht & Hne & -> & _)].
    + exfalso. rewrite Forall_forall in Hns.
      assert (Hin : EvModify name md ∈ evs).
      { rewrite Hevs. apply elem_of_app. right. by left. }
      by specialize (Hns _ Hin).
    + rewrite Hevs in Hshape.
      destruct (save_is_last _ _ _ _ _ _ _ _ Hshape Hp) as (-> & -> & -> & ->).
      split; [done|]. by exists p, ids, latest, t.
  - intros x w1 [= -> ->]. split; [done|]. simpl.
    destruct Hcases as [(_ & Hck & _)|(p & ids & latest & t & _ & _ & _ & _ & _ & Hr & _)];
      [done | discriminate].
  - destruct r as [x|res]; [eauto|]. simpl.
    destruct Hcases as [(_ & _ & Hres)|(p & ids & latest & t & _ & _ & _ & _ & _ & Hr & _)].
    + destruct (Hres res eq_refl) as [-> _]. discriminate.
    + injection Hr as ->. discriminate.
Qed.

(** The calls of a run that stores two tickets in an empty store. *)
Example sync_run_trace :
  w_trace (snd (Incident.sync_tickets (quiet_env (ok_response [inc5; inc100]))
                  empty_world))
  = [EvConnect; EvList;
     EvCreate Incident.collection_name (Some Incident.creation_metadata);
     EvHttpGet "2000-01-01" "00:00:00";
     EvAdd Incident.collection_name ["0"; "1"];
     EvModify Incident.collection_name
       {[ Incident.checkpoint_key := VStr "2025-07-02 09:30:00" ]}].
Proof. vm_compute. reflexivity. Qed.

(** ** Responses outside the 2xx range *)

Lemma fetch_not_200 (e : env) (after_datetime : value) (w : world) d t st js :
  Incident.split_cutoff after_datetime = inr (d, t) →
  http_get e d t = HttpResponse st js →
  st ≠ 200 →
  Incident.fetch_tickets_from_servicenow e after_datetime w
  = (inr ([], None), World (w_store w) (w_trace w ++ [EvHttpGet d t])).
Proof.
  intros Hsplit Hresp Hst.
  unfold Incident.fetch_tickets_from_servicenow, Client.requests_get. unfold_M.
  rewrite Hsplit. simpl. rewrite Hresp. simpl.
  by rewrite (proj2 (Z.eqb_neq st 200) Hst).
Qed.

Lemma fetch_nothing_new (e : env) (after_datetime : value) (w : world) d t :
  Incident.split_cutoff after_datetime = inr (d, t) →
  Incident.fetch_tickets_from_servicenow (with_source e nothing_new) after_datetime w
  = (inr ([], None), World (w_store w) (w_trace w ++ [EvHttpGet d t])).
Proof.
  intros Hsplit.
  unfold Incident.fetch_tickets_from_servicenow, Client.requests_get. unfold_M.
  rewrite Hsplit. reflexivity.
Qed.

Lemma ticket_collection_served (e : env) (w : world) :
  fault_list e = None → fault_get e = None → fault_create e = None →
  ∃ h w', Incident.get_or_create_ticket_collection e w = (inr h, w').
Proof.
  intros Hlist Hget Hcreate.
  destruct (w_store w !! Incident.collection_name) as [c|] eqn:Hc.
  - destruct (ticket_collection_existing e w c Hc) as (r & w' & Hrun & _ & _ & Hok).
    destruct (Hok Hlist Hget) as [-> _]. eauto.
  - destruct (ticket_collection_absent e w Hc) as (r & w' & Hrun & _ & _ & Hok).
    destruct (Hok Hlist Hcreate) as [h ->]. eauto.
Qed.

(** A run whose fetch comes back empty-handed. *)
Lemma sync_body_empty_fetch (e : env) (w : world) (d t : string) :
  fault_connect e = None → fault_list e = None →
  fault_get e = None → fault_create e = None →
  (∀ w0, Incident.fetch_tickets_from_servicenow e (checkpoint_in_force (w_store w)) w0
         = (inr ([], None), World (w_store w0) (w_trace w0 ++ [EvHttpGet d t]))) →
  ∃ h w1,
    Incident.get_or_create_ticket_collection e
      (World (w_store w) (w_trace w ++ [EvConnect])) = (inr h, w1)
    ∧ Incident.sync_body e w
      = (inr (empty_result e), World (w_store w1) (w_trace w1 ++ [EvHttpGet d t]))
    ∧ stored_checkpoint (w_store w1) = stored_checkpoint (w_store w).
Proof.
  intros Hconnect Hlist Hget Hcreate Hfetch.
  destruct (ticket_collection_served e (World (w_store w) (w_trace w ++ [EvConnect]))
              Hlist Hget Hcreate) as (h & w1 & Hgoc).
  destruct (ticket_collection_cases e (World (w_store w) (w_trace w ++ [EvConnect])))
    as (r1 & w1' & evs1 & Hgoc' & _ & _ & Hck1 & Hh).
  rewrite Hgoc in Hgoc'. injection Hgoc' as <- <-.
  destruct (Hh h eq_refl) as (_ & _ & Hload). simpl in Hload, Hck1.
  exists h, w1. split; [done|]. split; [|done].
  unfold Incident.sync_body, Incident.fetch_db_client, Client.HttpClient.
  unfold Chroma.bind at 1 2. unfold Chroma.may_fail. rewrite Hconnect. simpl.
  unfold Chroma.bind at 1. rewrite Hgoc.
  rewrite Hload. fold (checkpoint_in_force (w_store w)).
  unfold Chroma.bind at 1. rewrite Hfetch. reflexivity.
Qed.

(** C5. When the record source answers with a status outside 200..299,
    the fetch does not raise and returns [([], None)]; the sync run is
    then, result and world alike, the run against a source with nothing
    new: the stored checkpoint is unchanged and, the store having served
    the calls before the fetch, the result is [success=true] with
    [tickets_processed=0]. *)
Theorem C5_non_2xx_reported_as_nothing_new (e : env) (w : world)
  (d t : string) (st : Z) (js : json_outcome)
  (Hsplit : Incident.split_cutoff (checkpoint_in_force (w_store w)) = inr (d, t))
  (Hresp : http_get e d t = HttpResponse st js)
  (Hst : ¬ (200 ≤ st ≤ 299))
  (Hconnect : fault_connect e = None) (Hlist : fault_list e = None)
  (Hget : fault_get e = None) (Hcreate : fault_create e = None) :
  (∀ w0, Incident.fetch_tickets_from_servicenow e (checkpoint_in_force (w_store w)) w0
         = (inr ([], None), World (w_store w0) (w_trace w0 ++ [EvHttpGet d t])))
  ∧ Incident.sync_tickets e w = Incident.sync_tickets (with_source e nothing_new) w
  ∧ fst (Incident.sync_tickets e w) = empty_result e
  ∧ stored_checkpoint (w_store (snd (Incident.sync_tickets e w)))
    = stored_checkpoint (w_store w).
Proof.
  assert (Hst' : st ≠ 200) by lia.
  assert (Hfetch : ∀ w0,
    Incident.fetch_tickets_from_servicenow e (checkpoint_in_force (w_store w)) w0
    = (inr ([], None), World (w_store w0) (w_trace w0 ++ [EvHttpGet d t]))).
  { intros w0. by eapply fetch_not_200. }
  destruct (sync_body_empty_fetch e w d t Hconnect Hlist Hget Hcreate Hfetch)
    as (h & w1 & Hgoc & Hbody & Hck).
  destruct (sync_body_empty_fetch (with_source e nothing_new) w d t
              Hconnect Hlist Hget Hcreate
              (λ w0, fetch_nothing_new e _ w0 d t Hsplit))
    as (h' & w1' & Hgoc' & Hbody' & _).
  change (Incident.get_or_create_ticket_collection (with_source e nothing_new))
    with (Incident.get_or_create_ticket_collection e) in Hgoc'.
  rewrite Hgoc in Hgoc'. injection Hgoc' as <- <-.
  rewrite !sync_tickets_unfold, Hbody, Hbody'. simpl. done.
Qed.

Lemma C5_non_2xx_reported_as_nothing_new_witness :
  let e := quiet_env (HttpResponse 503 (JsonBody None)) in
  Incident.sync_tickets e empty_world
    = Incident.sync_tickets (with_source e nothing_new) empty_world
  ∧ fst (Incident.sync_tickets e empty_world) = empty_result e
  ∧ stored_checkpoint (w_store (snd (Incident.sync_tickets e empty_world)))
    = stored_checkpoint (w_store empty_world).
Proof.
  refine (proj2 (C5_non_2xx_reported_as_nothing_new
    (quiet_env (HttpResponse 503 (JsonBody None))) empty_world
    "2000-01-01" "00:00:00" 503 (JsonBody None) _ _ _ _ _ _ _));
    try (vm_compute; reflexivity).
  lia.
Defined.

(** ** Monotonicity of the checkpoint *)

Lemma lex_lt_trans (a b c : list Z) :
  length a = length b → length b = length c →
  Py.lex_lt a b = true → Py.lex_lt b c = true → Py.lex_lt a c = true.
Proof.
  revert b c. induction a as [|x a IH]; intros [|y b] [|z c]; simpl; try done.
  intros [= Hab] [= Hbc].
  rewrite !orb_true_iff, !andb_true_iff, !Z.ltb_lt, !Z.eqb_eq.
  intros [Hxy|[-> Hl1]] [Hyz|[-> Hl2]].
  - left. lia.
  - by left.
  - by left.
  - right. split; [done|]. by eapply IH.
Qed.

Lemma dt_lt_trans (a b c : Py.datetime) :
  Py.dt_lt a b = true → Py.dt_lt b c = true → Py.dt_lt a c = true.
Proof. unfold Py.dt_lt. by apply lex_lt_trans. Qed.

Lemma not_later_refl (a : value) : not_later a a.
Proof. by left. Qed.

Lemma not_later_trans (a b c : value) :
  not_later a b → not_later b c → not_later a c.
Proof.
  intros [->|(ta & tb & Ha & Hb & Hlt)] [->|(tb' & tc & Hb' & Hc & Hlt')].
  - by left.
  - right. eauto.
  - right. eauto.
  - right. rewrite Hb in Hb'. injection Hb' as <-.
    exists ta, tc. split_and!; try done. by eapply dt_lt_trans.
Qed.

Lemma effective_cutoff_saved (t : string) :
  t ≠ EmptyString → Incident.effective_cutoff (VStr t) = VStr t.
Proof. intros Hne. unfold Incident.effective_cutoff. by destruct t. Qed.

(** One run against a source that honours the cut-off: the stored
    checkpoint is left as it was, or it is replaced by a timestamp later
    than the checkpoint that was in force. *)
Lemma sync_step_checkpoint (e : env) (w : world) :
  honours_cutoff e (w_store w) = true →
  stored_checkpoint (w_store (snd (Incident.sync_tickets e w)))
  = stored_checkpoint (w_store w)
  ∨ ∃ t, stored_checkpoint (w_store (snd (Incident.sync_tickets e w))) = Some (VStr t)
       ∧ t ≠ EmptyString
       ∧ earlier (checkpoint_in_force (w_store w)) (VStr t).
Proof.
  intros Hhon. rewrite sync_tickets_unfold.
  destruct (sync_body_cases e w) as (r & w' & evs & Hrun & _ & Hcases).
  rewrite Hrun.
  destruct Hcases as [(_ & Hck & _)|(p & ids & latest & t & _ & _ & Hmax & Ht & Hne & _ & Hck)].
  - left. by destruct r.
  - right. exists t. split_and!; [by destruct r | done |].
    unfold honours_cutoff in Hhon. rewrite forallb_forall in Hhon.
    apply max_by_in, list_elem_of_In in Hmax. specialize (Hhon _ Hmax).
    unfold created_after in Hhon.
    destruct (read_ts (checkpoint_in_force (w_store w))) as [c|] eqn:Hc; [|done].
    rewrite Ht in Hhon.
    destruct (Py.strptime t) as [x|d] eqn:Hd; [done|].
    exists c, d. split_and!; try done. simpl. by rewrite Hd.
Qed.

Lemma sync_step_not_later (e : env) (w : world) :
  honours_cutoff e (w_store w) = true →
  not_later (checkpoint_in_force (w_store w))
            (checkpoint_in_force (w_store (snd (Incident.sync_tickets e w)))).
Proof.
  intros Hhon. destruct (sync_step_checkpoint e w Hhon) as [Heq|(t & Heq & Hne & Hlt)].
  - left. unfold checkpoint_in_force. by rewrite Heq.
  - right. unfold checkpoint_in_force at 2. rewrite Heq. simpl.
    rewrite effective_cutoff_saved by done. exact Hlt.
Qed.

Lemma timeline_head (es : list env) (w : world) : timeline es w !! 0%nat = Some w.
Proof. by destruct es. Qed.

Lemma timeline_from_start (es : list env) (w : world) (j : nat) (wj : world) :
  all_honour es w = true →
  timeline es w !! j = Some wj →
  not_later (checkpoint_in_force (w_store w)) (checkpoint_in_force (w_store wj)).
Proof.
  revert w j. induction es as [|e es IH]; intros w j Hall Hj.
  - destruct j; simpl in Hj; [|done]. injection Hj as <-. apply not_later_refl.
  - simpl in Hall. apply andb_true_iff in Hall as [Hhon Hall].
    destruct j as [|j]; simpl in Hj.
    + injection Hj as <-. apply not_later_refl.
    + eapply not_later_trans; [by apply sync_step_not_later|]. by eapply IH.
Qed.

(** C1, with the hypothesis on the source made part of the statement.
    Along any sequence of sync runs against the same store, each run
    meeting a source that returns only records created strictly after the
    checkpoint it is asked about, the checkpoint in force (the stored
    one, or the default epoch when none is stored), read as a
    ['YYYY-MM-DD HH:MM:SS'] timestamp, never decreases; and whenever a
    run changes the stored checkpoint, the new one reads as a timestamp
    later than the checkpoint it replaces. *)
Theorem C1_checkpoint_never_decreases (es : list env) (w : world)
  (Hall : all_honour es w = true) :
  (∀ i j wi wj, (i ≤ j)%nat →
     timeline es w !! i = Some wi → timeline es w !! j = Some wj →
     not_later (checkpoint_in_force (w_store wi)) (checkpoint_in_force (w_store wj)))
  ∧ (∀ i wi wi',
       timeline es w !! i = Some wi → timeline es w !! S i = Some wi' →
       stored_checkpoint (w_store wi') ≠ stored_checkpoint (w_store wi) →
       ∃ t, stored_checkpoint (w_store wi') = Some (VStr t)
            ∧ earlier (checkpoint_in_force (w_store wi)) (VStr t)).
Proof.
  split.
  - intros i. revert es w Hall. induction i as [|i IH]; intros es w Hall j wi wj Hij Hi Hj.
    + rewrite timeline_head in Hi. injection Hi as <-. by eapply timeline_from_start.
    + destruct es as [|e es]; [done|]. destruct j as [|j]; [lia|].
      simpl in Hall. apply andb_true_iff in Hall as [_ Hall].
      simpl in Hi, Hj. eapply (IH es _ Hall j); [lia|done..].
  - intros i. revert es w Hall. induction i as [|i IH]; intros es w Hall wi wi' Hi Hi' Hne.
    + rewrite timeline_head in Hi. injection Hi as <-.
      destruct es as [|e es]; [done|]. simpl in Hi'. rewrite timeline_head in Hi'.
      injection Hi' as <-. simpl in Hall. apply andb_true_iff in Hall as [Hhon _].
      destruct (sync_step_checkpoint e w Hhon) as [Heq|(t & Heq & _ & Hlt)]; [done|].
      eauto.
    + destruct es as [|e es]; [done|].
      simpl in Hall. apply andb_true_iff in Hall as [_ Hall].
      simpl in Hi, Hi'. by eapply (IH es _ Hall).
Qed.

Lemma C1_checkpoint_never_decreases_witness :
  let e1 := quiet_env (ok_response [inc5; inc100]) in
  let e2 := quiet_env (ok_response [inc23]) in
  let w2 := snd (Incident.sync_tickets e2 (snd (Incident.sync_tickets e1 empty_world))) in
  all_honour [e1; e2] empty_world = true
  ∧ stored_checkpoint (w_store w2) = Some (VStr "2025-07-03 15:16:53")
  ∧ not_later (checkpoint_in_force (w_store empty_world))
              (checkpoint_in_force (w_store w2)).
Proof.
  cbv zeta. split; [vm_compute; reflexivity|]. split; [vm_compute; reflexivity|].
  refine (proj1 (C1_checkpoint_never_decreases
    [quiet_env (ok_response [inc5; inc100]); quiet_env (ok_response [inc23])]
    empty_world _) 0%nat 2%nat _ _ _ _ _);
    [vm_compute; reflexivity | lia | reflexivity | reflexivity].
Defined.

(** C1 as stated, without a hypothesis on the source, fails: a run that
    completes with [success=true] saves whatever creation timestamp the
    latest record carries, also one earlier than the stored
    checkpoint. *)
Lemma C1_successful_run_can_regress :
  let e := quiet_env (ok_response [ticket "INC7" "2024-01-01 00:00:00"]) in
  let w := world_with (Some {[ Incident.checkpoint_key := VStr "2025-07-03 15:16:53" ]}) in
  Incident.success (fst (Incident.sync_tickets e w)) = true
  ∧ stored_checkpoint (w_store w) = Some (VStr "2025-07-03 15:16:53")
  ∧ stored_checkpoint (w_store (snd (Incident.sync_tickets e w)))
    = Some (VStr "2024-01-01 00:00:00")
  ∧ ¬ not_later (checkpoint_in_force (w_store w))
                (checkpoint_in_force (w_store (snd (Incident.sync_tickets e w)))).
Proof.
  cbv zeta. repeat apply conj; try (vm_compute; reflexivity).
  intros [Heq|(ta & tb & Ha & Hb & Hlt)].
  - vm_compute in Heq. discriminate.
  - vm_compute in Ha. vm_compute in Hb.
    injection Ha as <-. injection Hb as <-. vm_compute in Hlt. discriminate.
Qed.

(** ** Selecting the latest record *)

Example extract_number_examples :
  Incident.extract_number "INC5" = 5
  ∧ Incident.extract_number "INC100" = 100
  ∧ Incident.extract_number "INC0012345" = 12345
  ∧ Incident.extract_number "INC" = -1.
Proof. repeat apply conj; reflexivity. Qed.

Lemma max_by_some {A : Type} (key : A → Z) (l : list A) :
  l ≠ [] → ∃ m, Py.max_by key l = Some m.
Proof. destruct l; [done|]. simpl. eauto. Qed.

(** The highest key is the same in whatever order the list comes, and so
    is the element selected when only one element has it. *)
Lemma max_by_permutation {A : Type} (key : A → Z) (l l' : list A) (m : A) :
  Py.max_by key l = Some m → l' ≡ₚ l →
  ∃ m', Py.max_by key l' = Some m'
        ∧ key m' = key m
        ∧ ((∀ x, x ∈ l → key x = key m → x = m) → m' = m).
Proof.
  intros Hm Hperm.
  assert (Hne : l' ≠ []).
  { intros ->. apply Permutation_nil_l in Hperm. by subst. }
  destruct (max_by_some key l' Hne) as [m' Hm']. exists m'. split; [done|].
  pose proof (max_by_in _ _ _ Hm) as Hin.
  pose proof (max_by_in _ _ _ Hm') as Hin'.
  assert (Hkey : key m' = key m).
  { apply Z.le_antisymm.
    - apply (max_by_upper key l m Hm). by rewrite <- Hperm.
    - apply (max_by_upper key l' m' Hm'). by rewrite Hperm. }
  split; [done|]. intros Huniq. apply Huniq; [by rewrite <- Hperm | done].
Qed.

(** ** Mapping the batch *)






(** ** Setting and reading the checkpoint through the endpoints *)

Lemma strptime_error_class (s : string) (x : Py.exn) :
  Py.strptime s = inl x → Py.exn_class x = Py.ValueError.
Proof.
  unfold Py.strptime.
  destruct (Py.re_format s) as [|[d rest] l]; [by intros [= <-]|].
  destruct rest; [|by intros [= <-]].
  repeat case_match; by intros [= <-].
Qed.

Lemma digit_char_val (d : nat) :
  (d < 10)%nat →
  Py.digit_val (Py.digit_char d) = Z.of_nat d ∧ Py.isdigit (Py.digit_char d) = true.
Proof.
  intros Hd. do 10 (destruct d as [|d]; [by vm_compute|]). lia.
Qed.

(** ** The strict format is accepted *)

Lemma m_bind_unfold {A B : Type} (m : Py.matcher A) (k : A → Py.matcher B) (s : string) :
  Py.m_bind m k s = flat_map (λ '(a, r), k a r) (m s).
Proof. reflexivity. Qed.

Lemma m_bind_lit_ne {A : Type} (c x : ascii) (k : unit → Py.matcher A) (r : string) :
  Ascii.eqb c x = false → Py.m_bind (Py.m_lit c) k (String x r) = [].
Proof.
  intros Hne. unfold Py.m_lit, Py.m_bind, Py.m_char. by rewrite Hne.
Qed.

Lemma m_bind_lit_eq {A : Type} (c : ascii) (k : unit → Py.matcher A) (r : string) :
  Py.m_bind (Py.m_lit c) k (String c r) = k tt r.
Proof.
  unfold Py.m_lit, Py.m_bind, Py.m_char. rewrite Ascii.eqb_refl. simpl.
  by rewrite app_nil_r.
Qed.

Lemma m_bind_spaces_ne {A : Type} (x : ascii) (k : unit → Py.matcher A) (r : string) :
  Py.isspace x = false → Py.m_bind Py.m_spaces1 k (String x r) = [].
Proof. intros Hx. unfold Py.m_bind. simpl. by rewrite Hx. Qed.

Lemma m_bind_space_digit {A : Type} (x : ascii) (k : unit → Py.matcher A) (r : string) :
  Py.isspace x = false →
  Py.m_bind Py.m_spaces1 k (String " " (String x r)) = k tt (String x r).
Proof.
  intros Hx. unfold Py.m_bind. simpl. rewrite Hx. simpl. by rewrite app_nil_r.
Qed.

Ltac group_case :=
  rewrite m_bind_unfold;
  match goal with
  | |- context [flat_map _ ?l] =>
      let v := eval vm_compute in l in change l with v
  end;
  cbn [flat_map];
  rewrite ?m_bind_lit_ne by reflexivity;
  rewrite ?m_bind_spaces_ne by reflexivity;
  cbn [app]; rewrite ?app_nil_r; reflexivity.

Ltac two_digits a b :=
  do 10 (destruct a as [|a];
         [do 10 (destruct b as [|b]; [group_case|]); lia|]);
  lia.

Lemma month_strict {A : Type} (a b : nat) (k : Z → Py.matcher A) (rest : string) :
  (a < 10)%nat → (b < 10)%nat →
  Py.m_bind Py.re_m (λ m, Py.m_bind (Py.m_lit "-") (λ _, k m))
    (String (Py.digit_char a) (String (Py.digit_char b) rest))
  = if (1 <=? 10 * Z.of_nat a + Z.of_nat b) && (10 * Z.of_nat a + Z.of_nat b <=? 12)
    then Py.m_bind (Py.m_lit "-") (λ _, k (10 * Z.of_nat a + Z.of_nat b)) rest
    else [].
Proof. intros Ha Hb. two_digits a b. Qed.

Lemma day_strict {A : Type} (a b : nat) (k : Z → Py.matcher A) (rest : string) :
  (a < 10)%nat → (b < 10)%nat →
  Py.m_bind Py.re_d (λ d, Py.m_bind Py.m_spaces1 (λ _, k d))
    (String (Py.digit_char a) (String (Py.digit_char b) rest))
  = if (1 <=? 10 * Z.of_nat a + Z.of_nat b) && (10 * Z.of_nat a + Z.of_nat b <=? 31)
    then Py.m_bind Py.m_spaces1 (λ _, k (10 * Z.of_nat a + Z.of_nat b)) rest
    else [].
Proof. intros Ha Hb. two_digits a b. Qed.

Lemma hour_strict {A : Type} (a b : nat) (k : Z → Py.matcher A) (rest : string) :
  (a < 10)%nat → (b < 10)%nat →
  Py.m_bind Py.re_H (λ h, Py.m_bind (Py.m_lit ":") (λ _, k h))
    (String (Py.digit_char a) (String (Py.digit_char b) rest))
  = if 10 * Z.of_nat a + Z.of_nat b <=? 23
    then Py.m_bind (Py.m_lit ":") (λ _, k (10 * Z.of_nat a + Z.of_nat b)) rest
    else [].
Proof. intros Ha Hb. two_digits a b. Qed.

Lemma minute_strict {A : Type} (a b : nat) (k : Z → Py.matcher A) (rest : string) :
  (a < 10)%nat → (b < 10)%nat →
  Py.m_bind Py.re_M (λ mi, Py.m_bind (Py.m_lit ":") (λ _, k mi))
    (String (Py.digit_char a) (String (Py.digit_char b) rest))
  = if 10 * Z.of_nat a + Z.of_nat b <=? 59
    then Py.m_bind (Py.m_lit ":") (λ _, k (10 * Z.of_nat a + Z.of_nat b)) rest
    else [].
Proof. intros Ha Hb. two_digits a b. Qed.

Lemma second_strict {A : Type} (a b : nat) (F : Z → A) :
  (a < 10)%nat → (b < 10)%nat →
  ∃ l, Py.m_bind Py.re_S (λ sec, Py.m_ret (F sec))
         (String (Py.digit_char a) (String (Py.digit_char b) EmptyString))
       = (if 10 * Z.of_nat a + Z.of_nat b <=? 61
          then (F (10 * Z.of_nat a + Z.of_nat b), EmptyString)
          else (F (Z.of_nat a), String (Py.digit_char b) EmptyString)) :: l.
Proof.
  intros Ha Hb.
  do 10 (destruct a as [|a];
         [do 10 (destruct b as [|b];
                 [eexists; rewrite m_bind_unfold;
                  match goal with
                  | |- context [flat_map _ ?l] =>
                      let v := eval vm_compute in l in change l with v
                  end; reflexivity|]); lia|]).
  lia.
Qed.

Lemma m_bind_digit {A : Type} (n : nat) (k : Z → Py.matcher A) (r : string) :
  (n < 10)%nat →
  Py.m_bind (Py.m_digit 0 9) k (String (Py.digit_char n) r) = k (Z.of_nat n) r.
Proof.
  intros Hn.
  do 10 (destruct n as [|n];
         [rewrite m_bind_unfold;
          match goal with
          | |- context [flat_map _ ?l] =>
              let v := eval vm_compute in l in change l with v
          end; cbn [flat_map]; by rewrite app_nil_r|]).
  lia.
Qed.

Lemma year_strict {A : Type} (a b c d : nat) (k : Z → Py.matcher A) (rest : string) :
  (a < 10)%nat → (b < 10)%nat → (c < 10)%nat → (d < 10)%nat →
  Py.m_bind Py.re_Y k
    (String (Py.digit_char a) (String (Py.digit_char b)
       (String (Py.digit_char c) (String (Py.digit_char d) rest))))
  = k (1000 * Z.of_nat a + 100 * Z.of_nat b + 10 * Z.of_nat c + Z.of_nat d) rest.
Proof.
  intros Ha Hb Hc Hd. rewrite m_bind_unfold. unfold Py.re_Y.
  rewrite !m_bind_digit by done. unfold Py.m_ret. cbn [flat_map].
  by rewrite app_nil_r.
Qed.

Lemma isdigit_digit_char (c : ascii) :
  Py.isdigit c = true → ∃ n, (n < 10)%nat ∧ c = Py.digit_char n.
Proof.
  intros Hc. exists (Z.to_nat (Py.digit_val c)).
  destruct c as [[] [] [] [] [] [] [] []]; try discriminate Hc;
    (split; [vm_compute; lia | reflexivity]).
Qed.

(** The characters and the fields of a string in the strict format. *)
Lemma strict_fields_inv (s : string) (d : Py.datetime) :
  strict_fields s = Some d →
  ∃ y1 y2 y3 y4 m1 m2 d1 d2 h1 h2 i1 i2 s1 s2 : nat,
    Forall (λ n, (n < 10)%nat) [y1; y2; y3; y4; m1; m2; d1; d2; h1; h2; i1; i2; s1; s2]
    ∧ s = String (Py.digit_char y1) (String (Py.digit_char y2)
          (String (Py.digit_char y3) (String (Py.digit_char y4)
          (String "-" (String (Py.digit_char m1) (String (Py.digit_char m2)
          (String "-" (String (Py.digit_char d1) (String (Py.digit_char d2)
          (String " " (String (Py.digit_char h1) (String (Py.digit_char h2)
          (String ":" (String (Py.digit_char i1) (String (Py.digit_char i2)
          (String ":" (String (Py.digit_char s1) (String (Py.digit_char s2)
          EmptyString))))))))))))))))))
    ∧ d = Py.DateTime
            (1000 * Z.of_nat y1 + 100 * Z.of_nat y2 + 10 * Z.of_nat y3 + Z.of_nat y4)
            (10 * Z.of_nat m1 + Z.of_nat m2) (10 * Z.of_nat d1 + Z.of_nat d2)
            (10 * Z.of_nat h1 + Z.of_nat h2) (10 * Z.of_nat i1 + Z.of_nat i2)
            (10 * Z.of_nat s1 + Z.of_nat s2).
Proof.
  unfold strict_fields. intros Hs.
  rewrite <- (string_of_list_ascii_of_string s).
  destruct (list_ascii_of_string s)
    as [|y1 [|y2 [|y3 [|y4 [|p1 [|m1 [|m2 [|p2 [|d1 [|d2 [|p3 [|h1 [|h2 [|p4
        [|i1 [|i2 [|p5 [|s1 [|s2 [|x l]]]]]]]]]]]]]]]]]]]]; try discriminate Hs.
  destruct (forallb Py.isdigit _ && _ && _ && _ && _ && _) eqn:Hok; [|discriminate Hs].
  injection Hs as <-.
  do 5 (apply andb_true_iff in Hok as [Hok ?]).
  repeat match goal with
         | H : Ascii.eqb _ _ = true |- _ => apply Ascii.eqb_eq in H; subst
         end.
  cbn [forallb] in Hok. do 14 (apply andb_true_iff in Hok as [? Hok]).
  repeat match goal with
         | H : Py.isdigit ?c = true |- _ =>
             apply isdigit_digit_char in H as (? & ? & ->)
         end.
  eexists _, _, _, _, _, _, _, _, _, _, _, _, _, _. split; [|split; [reflexivity|]].
  - repeat (constructor; [eassumption|]). constructor.
  - unfold digit2.
    repeat match goal with
           | H : (?n < 10)%nat |- _ =>
               rewrite (proj1 (digit_char_val n H)); clear H
           end.
    f_equal; lia.
Qed.

Lemma gap_one_space {A : Type} (k : Z → Py.matcher A) (x : ascii) (r : string) :
  Py.isspace x = false →
  Py.m_bind Py.m_spaces1 (λ _, Py.m_bind Py.re_H k) (" " ++ String x r)
  = Py.m_bind Py.re_H k (String x r).
Proof. intros Hx. by apply (m_bind_space_digit x). Qed.

Lemma re_H_space (r : string) : Py.re_H (String " " r) = [].
Proof. reflexivity. Qed.

Lemma gap_two_spaces {A : Type} (k : Z → Py.matcher A) (x : ascii) (r : string) :
  Py.isspace x = false →
  Py.m_bind Py.m_spaces1 (λ _, Py.m_bind Py.re_H k) ("  " ++ String x r)
  = Py.m_bind Py.re_H k (String x r).
Proof.
  intros Hx. rewrite m_bind_unfold.
  change ("  " ++ String x r) with (String " " (String " " (String x r))).
  cbn [Py.m_spaces1]. change (Py.isspace " ") with true. cbv iota. rewrite Hx.
  cbn [app flat_map].
  rewrite (m_bind_unfold Py.re_H k (String " " (String x r))), re_H_space.
  cbn [flat_map]. by rewrite !app_nil_r.
Qed.

(** [strptime] on fourteen digits set out as date and time, with [gap]
    between the two: the string is accepted exactly when the fields
    name a date and time of the calendar, and those fields are read. *)
Lemma strptime_gap (gap : string)
  (y1 y2 y3 y4 m1 m2 d1 d2 h1 h2 i1 i2 s1 s2 : nat) :
  Forall (λ n, (n < 10)%nat) [y1; y2; y3; y4; m1; m2; d1; d2; h1; h2; i1; i2; s1; s2] →
  (∀ (k : Z → Py.matcher Py.datetime) (x : ascii) (r : string),
     Py.isspace x = false →
     Py.m_bind Py.m_spaces1 (λ _, Py.m_bind Py.re_H k) (gap ++ String x r)
     = Py.m_bind Py.re_H k (String x r)) →
  let d := Py.DateTime
             (1000 * Z.of_nat y1 + 100 * Z.of_nat y2 + 10 * Z.of_nat y3 + Z.of_nat y4)
             (10 * Z.of_nat m1 + Z.of_nat m2) (10 * Z.of_nat d1 + Z.of_nat d2)
             (10 * Z.of_nat h1 + Z.of_nat h2) (10 * Z.of_nat i1 + Z.of_nat i2)
             (10 * Z.of_nat s1 + Z.of_nat s2) in
  let s := String (Py.digit_char y1) (String (Py.digit_char y2)
           (String (Py.digit_char y3) (String (Py.digit_char y4)
           (String "-" (String (Py.digit_char m1) (String (Py.digit_char m2)
           (String "-" (String (Py.digit_char d1) (String (Py.digit_char d2)
           (gap ++ String (Py.digit_char h1) (String (Py.digit_char h2)
           (String ":" (String (Py.digit_char i1) (String (Py.digit_char i2)
           (String ":" (String (Py.digit_char s1) (String (Py.digit_char s2)
           EmptyString))))))))))))))))) in
  (calendar_ok d = true ∧ Py.strptime s = inr d)
  ∨ (calendar_ok d = false ∧ ∃ x, Py.strptime s = inl x).
Proof.
  intros Hall Hgap. cbv zeta.
  repeat (apply Forall_cons in Hall as [? Hall]).
  unfold Py.strptime, Py.re_format.
  rewrite year_strict by done. rewrite m_bind_lit_eq.
  rewrite month_strict by done.
  unfold calendar_ok. cbn [Py.year Py.month Py.day Py.hour Py.minute Py.second].
  set (y := 1000 * Z.of_nat y1 + 100 * Z.of_nat y2 + 10 * Z.of_nat y3 + Z.of_nat y4).
  set (m := 10 * Z.of_nat m1 + Z.of_nat m2).
  set (dd := 10 * Z.of_nat d1 + Z.of_nat d2).
  set (h := 10 * Z.of_nat h1 + Z.of_nat h2).
  set (mi := 10 * Z.of_nat i1 + Z.of_nat i2).
  set (sec := 10 * Z.of_nat s1 + Z.of_nat s2).
  destruct ((1 <=? m) && (m <=? 12)) eqn:Hm; last first.
  { right. split; [|eauto].
    destruct (1 <=? m), (m <=? 12); try discriminate Hm;
      by rewrite ?andb_false_r, ?andb_false_l. }
  apply andb_true_iff in Hm as [Hm1 Hm2]. rewrite Hm1, Hm2.
  rewrite m_bind_lit_eq, day_strict by done. fold dd.
  assert (Hdim : Py.days_in_month y m ≤ 31).
  { unfold Py.days_in_month. repeat case_match; lia. }
  destruct ((1 <=? dd) && (dd <=? 31)) eqn:Hd; last first.
  { right. split; [|eauto].
    destruct (1 <=? dd) eqn:Hd1; [|by rewrite ?andb_false_r, ?andb_false_l].
    simpl in Hd. apply Z.leb_gt in Hd.
    rewrite (proj2 (Z.leb_gt dd (Py.days_in_month y m))) by lia.
    by rewrite ?andb_false_r, ?andb_false_l. }
  apply andb_true_iff in Hd as [Hd1 Hd2]. rewrite Hd1.
  rewrite Hgap by (by destruct (digit_char_val h1 ltac:(done)) as [_ Hdig];
    destruct (Py.digit_char h1) as [[] [] [] [] [] [] [] []]).
  rewrite hour_strict by done. fold h.
  destruct (h <=? 23) eqn:Hh; last first.
  { right. split; [by rewrite ?andb_false_r, ?andb_false_l | eauto]. }
  rewrite m_bind_lit_eq, minute_strict by done. fold mi.
  destruct (mi <=? 59) eqn:Hmi; last first.
  { right. split; [by rewrite ?andb_false_r, ?andb_false_l | eauto]. }
  rewrite m_bind_lit_eq.
  destruct (second_strict s1 s2 (λ sec0, Py.DateTime y m dd h mi sec0)
              ltac:(done) ltac:(done)) as (l & ->). fold sec.
  destruct (sec <=? 61) eqn:Hs61; last first.
  { right. split; [|eauto]. apply Z.leb_gt in Hs61.
    rewrite (proj2 (Z.leb_gt sec 59)) by lia. by rewrite ?andb_false_r. }
  cbn [Py.year Py.month Py.day Py.second].
  destruct (y <? 1) eqn:Hy.
  { right. split; [|eauto]. apply Z.ltb_lt in Hy.
    by rewrite (proj2 (Z.leb_gt 1 y)) by lia. }
  apply Z.ltb_ge in Hy. rewrite (proj2 (Z.leb_le 1 y)) by lia.
  destruct (Py.days_in_month y m <? dd) eqn:Hdd.
  { right. split; [|eauto]. apply Z.ltb_lt in Hdd.
    rewrite (proj2 (Z.leb_gt dd (Py.days_in_month y m))) by lia.
    by rewrite ?andb_false_r, ?andb_false_l. }
  apply Z.ltb_ge in Hdd. rewrite (proj2 (Z.leb_le dd _)) by lia.
  destruct (59 <? sec) eqn:Hsec.
  { right. split; [|eauto]. apply Z.ltb_lt in Hsec.
    rewrite (proj2 (Z.leb_gt sec 59)) by lia. by rewrite ?andb_false_r. }
  apply Z.ltb_ge in Hsec. rewrite (proj2 (Z.leb_le sec 59)) by lia.
  left. done.
Qed.

(** [strptime] accepts a string in the strict format exactly when its
    fields name a date and time of the calendar, and reads those
    fields. *)
Lemma strict_strptime (s : string) (d : Py.datetime) :
  strict_fields s = Some d →
  (calendar_ok d = true ∧ Py.strptime s = inr d)
  ∨ (calendar_ok d = false ∧ ∃ x, Py.strptime s = inl x).
Proof.
  intros Hs.
  destruct (strict_fields_inv s d Hs)
    as (y1 & y2 & y3 & y4 & m1 & m2 & d1 & d2 & h1 & h2 & i1 & i2 & s1 & s2
        & Hall & -> & ->).
  exact (strptime_gap " " y1 y2 y3 y4 m1 m2 d1 d2 h1 h2 i1 i2 s1 s2 Hall
           (λ k x r, gap_one_space k x r)).
Qed.

(** A string [strptime] rejects is answered with the validation error
    before any call to the store. *)
Lemma update_rejects (e : env) (w : world) (payload : gmap string value) (s : string) :
  payload !! "last_update_time" = Some (VStr s) →
  ∀ x, Py.strptime s = inl x →
       App.update_last_update_time e payload w
       = (App.HTTPException 400 App.invalid_format_detail, w).
Proof.
  intros Hpayload.
  intros x Hx. unfold App.update_last_update_time. unfold_M.
    rewrite Hpayload. simpl. rewrite Hx.
    unfold Py.is_ValueError. by rewrite (strptime_error_class s x Hx).
Qed.

(** A string [strptime] accepts is saved as it was sent and read back by
    the read endpoint, the store serving the calls. *)
Lemma update_accepts (e : env) (w : world) (payload : gmap string value) (s : string) :
  payload !! "last_update_time" = Some (VStr s) →
  ∀ dt, Py.strptime s = inr dt → store_up e →
    ∃ w', App.update_last_update_time e payload w
          = (App.Ok (App.UpdateBody "Last update time updated successfully" s
                       (now_isoformat e)), w')
      ∧ stored_checkpoint (w_store w') = Some (VStr s)
      ∧ ∀ e', store_up e' →
          fst (App.get_last_update_time e' w')
          = App.Ok (App.LastUpdateBody (VStr s) (now_isoformat e')).
Proof.
  intros Hpayload.
  intros dt Hdt (Hconnect & _ & _ & _ & Hgoc & _ & Hmod).
    assert (Hread : ∀ w' recs,
      w_store w' !! Incident.collection_name
        = Some (Coll (Some {[ Incident.checkpoint_key := VStr s ]}) recs) →
      ∀ e', store_up e' →
        fst (App.get_last_update_time e' w')
        = App.Ok (App.LastUpdateBody (VStr s) (now_isoformat e'))).
    { intros w' recs Hw' e' (Hconnect' & _ & _ & _ & Hgoc' & _).
      unfold App.get_last_update_time, Incident.fetch_db_client, Client.HttpClient.
      unfold Chroma.bind at 1 2. unfold Chroma.may_fail. rewrite Hconnect'. simpl.
      unfold Chroma.bind at 1.
      erewrite get_or_create_existing by (simpl; exact Hw'). rewrite Hgoc'. simpl.
      unfold Incident.load_last_update_time. simpl.
      by rewrite lookup_singleton_eq. }
    unfold App.update_last_update_time, Incident.fetch_db_client, Client.HttpClient.
    unfold Chroma.bind at 1. unfold Chroma.lift. rewrite Hpayload. simpl.
    rewrite Hdt. unfold Chroma.bind at 1 2. unfold Chroma.may_fail.
    rewrite Hconnect. simpl. unfold Chroma.bind at 1.
    unfold Incident.save_last_update_time.
    destruct (w_store w !! Incident.collection_name) as [c|] eqn:Hc.
    + erewrite get_or_create_existing by (simpl; exact Hc). rewrite Hgoc.
      unfold Chroma.bind at 1.
      erewrite modify_ok; [|done|simpl; exact Hc]. simpl.
      eexists. split; [reflexivity|]. simpl. split.
      * apply stored_checkpoint_saved.
      * eapply Hread. simpl. apply lookup_insert_eq.
    + erewrite get_or_create_absent by (simpl; exact Hc). rewrite Hgoc.
      unfold Chroma.bind at 1.
      erewrite modify_ok; [|done|simpl; apply lookup_insert_eq]. simpl.
      eexists. split; [reflexivity|]. simpl. split.
      * apply stored_checkpoint_saved.
      * eapply Hread. simpl. apply lookup_insert_eq.
Qed.

(** C9, with the format as [strptime] takes it. A timestamp strictly
    in the format [YYYY-MM-DD HH:MM:SS] that names a date and time of
    the calendar is accepted: the call succeeds when the store serves
    it, and a later read of the checkpoint returns that very string. A
    timestamp in the strict shape whose fields name no date or time,
    and more generally every string [strptime] rejects, is answered
    with the 400 validation error and the world is untouched: no call
    to the store was made. Every string [strptime] accepts is stored as
    it was sent, whether it is strictly in the format or not. *)
Theorem C9_checkpoint_format_validation (e : env) (w : world)
  (payload : gmap string value) (s : string)
  (Hpayload : payload !! "last_update_time" = Some (VStr s)) :
  (strict_timestamp s = true → store_up e →
     ∃ w', App.update_last_update_time e payload w
           = (App.Ok (App.UpdateBody "Last update time updated successfully" s
                        (now_isoformat e)), w')
       ∧ stored_checkpoint (w_store w') = Some (VStr s)
       ∧ ∀ e', store_up e' →
           fst (App.get_last_update_time e' w')
           = App.Ok (App.LastUpdateBody (VStr s) (now_isoformat e')))
  ∧ (∀ d, strict_fields s = Some d → calendar_ok d = false →
        App.update_last_update_time e payload w
        = (App.HTTPException 400 App.invalid_format_detail, w))
  ∧ (∀ x, Py.strptime s = inl x →
        App.update_last_update_time e payload w
        = (App.HTTPException 400 App.invalid_format_detail, w))
  ∧ (∀ dt, Py.strptime s = inr dt → store_up e →
       ∃ w', App.update_last_update_time e payload w
             = (App.Ok (App.UpdateBody "Last update time updated successfully" s
                          (now_isoformat e)), w')
         ∧ stored_checkpoint (w_store w') = Some (VStr s)
         ∧ ∀ e', store_up e' →
             fst (App.get_last_update_time e' w')
             = App.Ok (App.LastUpdateBody (VStr s) (now_isoformat e'))).
Proof.
  pose proof (update_rejects e w payload s Hpayload) as Hreject.
  pose proof (update_accepts e w payload s Hpayload) as Haccept.
  split_and!; [| |exact Hreject|exact Haccept].
  - intros Hstrict Hup. unfold strict_timestamp in Hstrict.
    destruct (strict_fields s) as [d|] eqn:Hf; [|done].
    destruct (strict_strptime s d Hf) as [[_ Hp]|[Hc _]]; [|congruence].
    by apply (Haccept d).
  - intros d Hf Hc.
    destruct (strict_strptime s d Hf) as [[Hc' _]|[_ [x Hx]]]; [congruence|].
    by apply (Hreject x).
Qed.

Lemma quiet_env_store_up (o : http_outcome) : store_up (quiet_env o).
Proof. repeat split. Qed.

Lemma C9_checkpoint_format_validation_witness :
  let e := quiet_env (ok_response []) in
  App.update_last_update_time e (payload_of "2025-13-50 99:99:99") empty_world
  = (App.HTTPException 400 App.invalid_format_detail, empty_world)
  ∧ ∃ w', App.update_last_update_time e (payload_of "2025-07-03 15:16:53") empty_world
          = (App.Ok (App.UpdateBody "Last update time updated successfully"
                       "2025-07-03 15:16:53" (now_isoformat e)), w')
        ∧ fst (App.get_last_update_time e w')
          = App.Ok (App.LastUpdateBody (VStr "2025-07-03 15:16:53") (now_isoformat e)).
Proof.
  cbv zeta. split.
  - refine (proj1 (proj2 (C9_checkpoint_format_validation (quiet_env (ok_response []))
      empty_world (payload_of "2025-13-50 99:99:99")
      "2025-13-50 99:99:99" _)) (Py.DateTime 2025 13 50 99 99 99) _ _);
      vm_compute; reflexivity.
  - assert (Hp : payload_of "2025-07-03 15:16:53" !! "last_update_time"
                 = Some (VStr "2025-07-03 15:16:53")) by (vm_compute; reflexivity).
    assert (Hs : strict_timestamp "2025-07-03 15:16:53" = true)
      by (vm_compute; reflexivity).
    destruct (proj1 (C9_checkpoint_format_validation (quiet_env (ok_response []))
      empty_world (payload_of "2025-07-03 15:16:53") "2025-07-03 15:16:53" Hp)
      Hs (quiet_env_store_up _)) as (w' & Hup & _ & Hget).
    exists w'. split; [exact Hup|]. apply Hget, quiet_env_store_up.
Defined.

(** C9 as stated fails for timestamps that are not in the format
    [YYYY-MM-DD HH:MM:SS]: one with two spaces between date and time,
    one with a tab there, and one with fields that are not padded are
    all accepted and stored as they were sent; and with the first as
    checkpoint the next run fails. *)
Lemma C9_lax_timestamps_accepted :
  let e := quiet_env (ok_response [inc5]) in
  let two_spaces := "2025-07-03  15:16:53" in
  let with_tab := "2025-07-03" ++ String (ascii_of_nat 9) "15:16:53" in
  let unpadded := "2025-7-3 5:6:7" in
  (strict_timestamp two_spaces = false
   ∧ strict_timestamp with_tab = false
   ∧ strict_timestamp unpadded = false)
  ∧ (∀ s, s = two_spaces ∨ s = with_tab ∨ s = unpadded →
       fst (App.update_last_update_time e (payload_of s) empty_world)
       = App.Ok (App.UpdateBody "Last update time updated successfully" s
                   (now_isoformat e))
       ∧ stored_checkpoint
           (w_store (snd (App.update_last_update_time e (payload_of s) empty_world)))
         = Some (VStr s))
  ∧ Incident.success
      (fst (Incident.sync_tickets e
              (snd (App.update_last_update_time e (payload_of two_spaces) empty_world))))
    = false.
Proof.
  cbv zeta. split; [repeat apply conj; vm_compute; reflexivity|]. split.
  - intros s [->|[->| ->]]; split; vm_compute; reflexivity.
  - vm_compute. reflexivity.
Qed.


(** A payload without the key, or with a value that is not a string, is
    refused with status 500, again before any call to the store. *)
Lemma update_without_string (e : env) (w : world) (payload : gmap string value) :
  (∀ s, payload !! "last_update_time" ≠ Some (VStr s)) →
  ∃ detail, App.update_last_update_time e payload w
            = (App.HTTPException 500 detail, w).
Proof.
  intros Hns. unfold App.update_last_update_time. unfold_M.
  destruct (payload !! "last_update_time") as [[| s | z | z]|]; simpl; eauto.
  by destruct (Hns s).
Qed.

(** ** Splitting a text into chunks *)

Lemma length_append (a b : string) :
  String.length (a ++ b) = (String.length a + String.length b)%nat.
Proof.
  induction a as [|c a IH]; [done|].
  change (String c a ++ b) with (String c (a ++ b)). simpl. by rewrite IH.
Qed.

Lemma append_cons (c : ascii) (a b : string) : String c a ++ b = String c (a ++ b).
Proof. reflexivity. Qed.

Lemma append_nil_l (a : string) : EmptyString ++ a = a.
Proof. reflexivity. Qed.

Lemma append_nil_r (a : string) : a ++ EmptyString = a.
Proof. induction a as [|c a IH]; [done|]. by rewrite append_cons, IH. Qed.

Lemma append_assoc (a b c : string) : (a ++ b) ++ c = a ++ (b ++ c).
Proof. induction a as [|x a IH]; [done|]. by rewrite !append_cons, IH. Qed.

Lemma len_append (a b : string) : Py.len (a ++ b) = Py.len a + Py.len b.
Proof. unfold Py.len. rewrite length_append. lia. Qed.

Lemma len_nonneg (a : string) : 0 ≤ Py.len a.
Proof. unfold Py.len. lia. Qed.

Lemma lstrip_len (s : string) : Py.len (Py.lstrip s) ≤ Py.len s.
Proof.
  unfold Py.len. induction s as [|c s IH]; simpl; [done|].
  destruct (Py.isspace c); simpl; lia.
Qed.

Lemma rstrip_len (s : string) : Py.len (Py.rstrip s) ≤ Py.len s.
Proof.
  unfold Py.len. induction s as [|c s IH]; simpl; [done|].
  destruct (Py.rstrip s); [destruct (Py.isspace c)|]; simpl in *; lia.
Qed.

Lemma strip_len (s : string) : Py.len (Py.strip s) ≤ Py.len s.
Proof.
  unfold Py.strip. etrans; [apply rstrip_len | apply lstrip_len].
Qed.

Lemma total_len_nonneg (l : list string) : 0 ≤ total_len l.
Proof.
  induction l as [|d l IH]; simpl; [done|]. pose proof (len_nonneg d). lia.
Qed.

Lemma total_len_snoc (l : list string) (d : string) :
  total_len (l ++ [d]) = total_len l + Py.len d.
Proof. induction l as [|x l IH]; simpl; lia. Qed.

Lemma join_empty_len (docs : list string) :
  Py.len (Splitter.join EmptyString docs) = total_len docs.
Proof.
  induction docs as [|d r IH]; [done|].
  destruct r as [|d' r'].
  - simpl. lia.
  - change (Splitter.join EmptyString (d :: d' :: r'))
      with (d ++ EmptyString ++ Splitter.join EmptyString (d' :: r')).
    rewrite !len_append, IH. simpl. unfold Py.len at 2. simpl. lia.
Qed.

Lemma join_docs_bound (docs : list string) (limit : Z) :
  total_len docs ≤ limit →
  Forall (λ c, Py.len c ≤ limit) (Splitter.opt_list (Splitter.join_docs EmptyString docs)).
Proof.
  intros Hl. unfold Splitter.join_docs.
  pose proof (strip_len (Splitter.join EmptyString docs)) as Hs.
  rewrite join_empty_len in Hs.
  destruct (Py.strip (Splitter.join EmptyString docs)); simpl; [constructor|].
  constructor; [lia | constructor].
Qed.

Lemma sep_if_empty (b : bool) : Splitter.sep_if EmptyString b = 0.
Proof. by destruct b. Qed.

Section MergeBound.

Variables chunk_size chunk_overlap : Z.
Hypothesis overlap_nonneg : 0 ≤ chunk_overlap.

(** The popping loop never runs out of pieces, keeps the running total
    equal to the length of what is left, and stops with room for the
    next piece or with nothing left. *)
Lemma pop_front_spec (_len : Z) (current_doc : list string) :
  ∃ cur', Splitter.pop_front chunk_size chunk_overlap EmptyString
            (total_len current_doc) _len current_doc
          = inr (total_len cur', cur')
    ∧ (total_len cur' + _len ≤ chunk_size ∨ total_len cur' ≤ 0).
Proof.
  induction current_doc as [|d0 rest IH].
  - exists []. simpl. rewrite ?sep_if_empty.
    replace (chunk_overlap <? 0) with false by (symmetry; apply Z.ltb_ge; lia).
    rewrite andb_false_r. simpl. split; [done | by right].
  - simpl. change (Splitter.separator_len EmptyString) with 0.
    rewrite ?sep_if_empty.
    match goal with |- context [if ?b then _ else _] => destruct b eqn:Hagain end.
    + replace (Py.len d0 + total_len rest - (Py.len d0 + 0)) with (total_len rest) by lia.
      exact IH.
    + exists (d0 :: rest). split; [done|]. simpl.
      apply orb_false_iff in Hagain as [_ Hagain].
      apply andb_false_iff in Hagain as [H|H].
      * apply Z.ltb_ge in H. left. lia.
      * apply Z.ltb_ge in H. right. lia.
Qed.

(** Merging pieces shorter than the chunk size never fails and yields
    chunks no longer than the chunk size. *)
Lemma merge_loop_spec (splits docs current_doc : list string) :
  total_len current_doc ≤ chunk_size →
  Forall (λ d, Py.len d < chunk_size) splits →
  Forall (λ c, Py.len c ≤ chunk_size) docs →
  ∃ out, Splitter.merge_loop chunk_size chunk_overlap EmptyString splits docs
           current_doc (total_len current_doc) = inr out
    ∧ Forall (λ c, Py.len c ≤ chunk_size) out.
Proof.
  revert docs current_doc.
  induction splits as [|d rest IH]; intros docs current_doc Htot Hsplits Hdocs.
  - simpl. eexists. split; [done|]. apply Forall_app. split; [done|].
    by apply join_docs_bound.
  - apply Forall_cons in Hsplits as [Hd Hrest]. simpl. rewrite ?sep_if_empty.
    pose proof (total_len_nonneg current_doc) as Hnn.
    assert (Hfit : ∀ cur', total_len cur' + Py.len d ≤ chunk_size →
      ∀ docs', Forall (λ c, Py.len c ≤ chunk_size) docs' →
      ∃ out, Splitter.merge_loop chunk_size chunk_overlap EmptyString rest docs'
               (cur' ++ [d]) (total_len cur' + Py.len d + 0) = inr out
        ∧ Forall (λ c, Py.len c ≤ chunk_size) out).
    { intros cur' Hc docs' Hdocs'.
      replace (total_len cur' + Py.len d + 0) with (total_len (cur' ++ [d]))
        by (rewrite total_len_snoc; lia).
      apply IH; [rewrite total_len_snoc; lia | done | done]. }
    destruct (chunk_size <? total_len current_doc + Py.len d + 0) eqn:Hbig.
    + apply Z.ltb_lt in Hbig.
      destruct current_doc as [|c0 cs]; simpl Splitter.has_items; cbv iota.
      * simpl in Hbig. lia.
      * destruct (pop_front_spec (Py.len d) (c0 :: cs)) as (cur' & -> & Hroom).
        rewrite sep_if_empty. apply Hfit.
        -- pose proof (total_len_nonneg cur'). lia.
        -- apply Forall_app. split; [done|]. by apply join_docs_bound.
    + apply Z.ltb_ge in Hbig. apply Hfit; [lia | done].
Qed.

Lemma merge_spec (good_splits : list string) :
  0 ≤ chunk_size →
  Forall (λ d, Py.len d < chunk_size) good_splits →
  ∃ out, Splitter.merge chunk_size chunk_overlap good_splits = inr out
    ∧ Forall (λ c, Py.len c ≤ chunk_size) out.
Proof.
  intros Hcs Hgood. unfold Splitter.merge.
  destruct good_splits as [|g gs]; [by exists []|].
  unfold Splitter.merge_splits.
  apply (merge_loop_spec (g :: gs) [] []); [done | done | constructor].
Qed.

End MergeBound.

Section GatherBound.

Variables chunk_size chunk_overlap : Z.
Hypothesis overlap_nonneg : 0 ≤ chunk_overlap.
Hypothesis size_nonneg : 0 ≤ chunk_size.

Lemma gather_spec recur (splits good_splits : list string) :
  Forall (λ d, Py.len d < chunk_size) good_splits →
  Forall (recur_total recur) splits →
  ∃ out, Splitter.gather chunk_size chunk_overlap recur splits good_splits = inr out
    ∧ (Forall (recur_bounded chunk_size recur) splits →
       Forall (λ c, Py.len c ≤ chunk_size) out).
Proof.
  revert good_splits.
  induction splits as [|s rest IH]; intros good_splits Hgood Htotal.
  - simpl. destruct (merge_spec chunk_size chunk_overlap overlap_nonneg
                       good_splits size_nonneg Hgood) as (out & -> & Hout).
    by exists out.
  - apply Forall_cons in Htotal as [Hs Hrest]. simpl.
    destruct (Py.len s <? chunk_size) eqn:Hshort.
    + apply Z.ltb_lt in Hshort.
      destruct (IH (good_splits ++ [s])%list) as (out & -> & Hout); [|done|].
      { apply Forall_app. split; [done|]. by repeat constructor. }
      exists out. split; [done|]. intros Hb. apply Forall_cons in Hb as [_ Hb]. auto.
    + destruct (merge_spec chunk_size chunk_overlap overlap_nonneg
                  good_splits size_nonneg Hgood) as (merged & -> & Hmerged).
      destruct (IH []) as (tail & -> & Htail); [constructor | done |].
      destruct recur as [f|]; simpl in Hs.
      * destruct Hs as [o Ho]. rewrite Ho. eexists. split; [done|].
        intros Hb. apply Forall_cons in Hb as [Hbs Hb].
        rewrite !Forall_app. split_and!; [done | by apply Hbs | by apply Htail].
      * eexists. split; [done|].
        intros Hb. apply Forall_cons in Hb as [Hbs Hb].
        rewrite !Forall_app. split_and!; [done | | by apply Htail].
        by repeat constructor.
Qed.

End GatherBound.

(** *** The pieces are parts of the text *)

Lemma is_prefix_split (p s : string) :
  Splitter.is_prefix p s = true → ∃ rest, s = p ++ rest.
Proof.
  revert s. induction p as [|a p IH]; intros s; simpl.
  - intros _. by exists s.
  - destruct s as [|b s]; [done|].
    intros [Hab Hp]%andb_true_iff. apply Ascii.eqb_eq in Hab as <-.
    destruct (IH s Hp) as [rest ->]. by exists rest.
Qed.

Lemma append_same_length (a b c d : string) :
  a ++ b = c ++ d → String.length a = String.length c → a = c ∧ b = d.
Proof.
  revert c. induction a as [|x a IH]; intros [|y c]; simpl; try done.
  rewrite !append_cons. intros [= -> Heq] [= Hlen].
  destruct (IH c Heq Hlen) as [-> ->]. done.
Qed.

(** Scanning a text cuts it into a first piece and the later pieces, each
    of these behind one occurrence of the separator. *)
Lemma split_go_decomp (sep : string) (k : nat) (s p : string) (ps : list string) :
  sep ≠ EmptyString →
  Splitter.split_go sep k s = (p, ps) →
  ∃ skipped, s = skipped ++ p ++ flat sep ps
             ∧ String.length skipped = Nat.min k (String.length s).
Proof.
  intros Hsep.
  revert k p ps. induction s as [|c r IH]; intros k p ps; simpl.
  - intros [= <- <-]. exists EmptyString. split; [done|]. simpl. lia.
  - destruct k as [|k].
    + destruct (Splitter.is_prefix sep (String c r)) eqn:Hpre.
      * destruct (Splitter.split_go sep (String.length sep - 1) r) as [p1 ps1] eqn:Hgo.
        intros [= <- <-]. exists EmptyString. split; [|done].
        destruct (IH _ _ _ Hgo) as (sk & Hr & Hlen).
        destruct (is_prefix_split _ _ Hpre) as [rest Hrest].
        destruct sep as [|c' sep']; [done|].
        rewrite append_cons in Hrest. injection Hrest as <- Hrest.
        simpl in Hlen. rewrite Nat.sub_0_r in Hlen.
        assert (Hle : (String.length sep' ≤ String.length r)%nat).
        { rewrite Hrest, length_append. lia. }
        rewrite Nat.min_l in Hlen by done.
        rewrite Hr in Hrest.
        destruct (append_same_length _ _ _ _ Hrest Hlen) as [-> _].
        rewrite !append_nil_l.
        change (flat (String c sep') (p1 :: ps1))
          with (String c sep' ++ p1 ++ flat (String c sep') ps1).
        rewrite append_cons. f_equal. exact Hr.
      * destruct (Splitter.split_go sep 0 r) as [p1 ps1] eqn:Hgo.
        intros [= <- <-]. exists EmptyString. split; [|done].
        destruct (IH _ _ _ Hgo) as (sk & Hr & Hlen).
        simpl in Hlen. destruct sk; [|done]. simpl in Hr.
        simpl. rewrite append_cons. by rewrite Hr.
    + intros Hgo. destruct (IH _ _ _ Hgo) as (sk & Hr & Hlen).
      exists (String c sk). split.
      * rewrite append_cons. by rewrite Hr.
      * simpl. by rewrite Hlen.
Qed.

Lemma sub_refl (a : string) : sub a a.
Proof. exists EmptyString, EmptyString. simpl. by rewrite append_nil_r. Qed.

Lemma sub_prefix (a b : string) : sub a (a ++ b).
Proof. by exists EmptyString, b. Qed.

Lemma sub_behind (pre a b : string) : sub a b → sub a (pre ++ b).
Proof.
  intros (x & y & ->). exists (pre ++ x), y. by rewrite !append_assoc.
Qed.

Lemma flat_sub (sep : string) (ps : list string) (t : string) :
  t ∈ ps → sub (sep ++ t) (flat sep ps).
Proof.
  induction ps as [|u r IH]; intros Hin; [by apply elem_of_nil in Hin|].
  apply elem_of_cons in Hin as [->|Hin]; simpl.
  - rewrite <- append_assoc. apply sub_prefix.
  - rewrite <- append_assoc. apply sub_behind. by apply IH.
Qed.

Lemma split_keep_sub (sep text piece : string) :
  sep ≠ EmptyString → piece ∈ Splitter.split_keep sep text → sub piece text.
Proof.
  intros Hsep. unfold Splitter.split_keep.
  destruct sep as [|c sep']; [done|].
  destruct (Splitter.split_go (String c sep') 0 text) as [p ps] eqn:Hgo.
  destruct (split_go_decomp _ _ _ _ _ Hsep Hgo) as (sk & -> & Hlen).
  simpl in Hlen. destruct sk; [|done]. rewrite append_nil_l.
  intros [_ Hin]%list_elem_of_filter.
  apply elem_of_cons in Hin as [->|Hin].
  - apply sub_prefix.
  - apply list_elem_of_fmap in Hin as (t & -> & Hin).
    apply sub_behind. by apply flat_sub.
Qed.

(** *** Words *)

Lemma run_here_append (a b : string) : (run_here a ≤ run_here (a ++ b))%nat.
Proof.
  induction a as [|c a IH]; [simpl; lia|].
  rewrite append_cons.
  change (run_here (String c a)) with (if Ascii.eqb " " c then O else S (run_here a)).
  change (run_here (String c (a ++ b)))
    with (if Ascii.eqb " " c then O else S (run_here (a ++ b))).
  destruct (Ascii.eqb " " c); lia.
Qed.

Lemma run_here_longest (a : string) : (run_here a ≤ longest_word a)%nat.
Proof. destruct a; simpl; lia. Qed.

Lemma longest_word_append_r (a b : string) :
  (longest_word a ≤ longest_word (a ++ b))%nat.
Proof.
  induction a as [|c a IH]; [simpl; lia|].
  rewrite append_cons.
  change (longest_word (String c a))
    with (Nat.max (run_here (String c a)) (longest_word a)).
  change (longest_word (String c (a ++ b)))
    with (Nat.max (run_here (String c (a ++ b))) (longest_word (a ++ b))).
  pose proof (run_here_append (String c a) b) as Hr. rewrite append_cons in Hr.
  lia.
Qed.

Lemma longest_word_append_l (a b : string) :
  (longest_word b ≤ longest_word (a ++ b))%nat.
Proof.
  induction a as [|c a IH]; [done|].
  rewrite append_cons.
  change (longest_word (String c (a ++ b)))
    with (Nat.max (run_here (String c (a ++ b))) (longest_word (a ++ b))).
  lia.
Qed.

Lemma longest_word_sub (a b : string) :
  sub a b → (longest_word a ≤ longest_word b)%nat.
Proof.
  intros (pre & post & ->).
  etrans; [apply (longest_word_append_r a post)|]. apply longest_word_append_l.
Qed.

(** Cut at the spaces, a text falls into its first word and, behind
    each space, the word that follows. *)
Lemma split_go_space (s p : string) (ps : list string) :
  Splitter.split_go " " 0 s = (p, ps) →
  String.length p = run_here s
  ∧ Forall (λ t, (String.length t ≤ longest_word s)%nat) ps.
Proof.
  revert p ps. induction s as [|c r IH]; intros p ps.
  - simpl. intros [= <- <-]. split; [done | constructor].
  - change (Splitter.split_go " " 0 (String c r))
      with (if Splitter.is_prefix " " (String c r)
            then let '(p, ps) := Splitter.split_go " " 0 r in (EmptyString, p :: ps)
            else let '(p, ps) := Splitter.split_go " " 0 r in (String c p, ps)).
    change (Splitter.is_prefix " " (String c r)) with (Ascii.eqb " " c && true).
    rewrite andb_true_r.
    change (run_here (String c r)) with (if Ascii.eqb " " c then O else S (run_here r)).
    change (longest_word (String c r))
      with (Nat.max (if Ascii.eqb " " c then O else S (run_here r)) (longest_word r)).
    destruct (Splitter.split_go " " 0 r) as [p1 ps1] eqn:Hgo.
    destruct (IH _ _ eq_refl) as [Hp1 Hps1].
    pose proof (run_here_longest r) as Hrl.
    destruct (Ascii.eqb " " c); intros [= <- <-].
    + split; [done|]. constructor; [lia|].
      eapply Forall_impl; [exact Hps1|]. simpl. intros; lia.
    + split; [simpl; lia|].
      eapply Forall_impl; [exact Hps1|]. simpl. intros; lia.
Qed.

Lemma split_keep_space_len (s piece : string) :
  piece ∈ Splitter.split_keep " " s →
  Py.len piece ≤ 1 + Z.of_nat (longest_word s).
Proof.
  unfold Splitter.split_keep.
  destruct (Splitter.split_go " " 0 s) as [p ps] eqn:Hgo.
  destruct (split_go_space _ _ _ Hgo) as [Hp Hps].
  intros [_ Hin]%list_elem_of_filter.
  pose proof (run_here_longest s) as Hrl.
  apply elem_of_cons in Hin as [->|Hin].
  - unfold Py.len. lia.
  - apply list_elem_of_fmap in Hin as (t & -> & Hin).
    rewrite Forall_forall in Hps. specialize (Hps _ Hin).
    rewrite len_append. unfold Py.len. simpl. lia.
Qed.

(** *** The three levels of separators *)

Lemma chunk_bound_of_words (s : string) :
  (longest_word s ≤ 499)%nat →
  Forall (recur_bounded Document.chunk_size None) (Splitter.split_keep " " s).
Proof.
  intros Hw. apply Forall_forall. intros piece Hin. simpl.
  pose proof (split_keep_space_len s piece Hin). unfold Document.chunk_size. lia.
Qed.

(** Splitting at the spaces alone. *)
Lemma spaces_level (text : string) :
  ∃ out, Splitter.split_text_with Document.chunk_size Document.chunk_overlap [" "] text
         = inr out
    ∧ ((longest_word text ≤ 499)%nat →
       Forall (λ c, Py.len c ≤ Document.chunk_size) out).
Proof.
  change (Splitter.split_text_with Document.chunk_size Document.chunk_overlap [" "] text)
    with (Splitter.gather Document.chunk_size Document.chunk_overlap None
            (Splitter.split_keep " " text) []).
  destruct (gather_spec Document.chunk_size Document.chunk_overlap
              ltac:(done) ltac:(done) None (Splitter.split_keep " " text) [])
    as (out & Hout & Hb); [constructor | by apply Forall_forall |].
  exists out. split; [done|]. intros Hw. by apply Hb, chunk_bound_of_words.
Qed.

(** Splitting at a separator, the long pieces being split further. *)
Lemma separator_level (sep text : string) (f : string → Py.result (list string)) :
  sep ≠ EmptyString →
  (∀ s, ∃ o, f s = inr o
        ∧ ((longest_word s ≤ 499)%nat →
           Forall (λ c, Py.len c ≤ Document.chunk_size) o)) →
  ∃ out, Splitter.gather Document.chunk_size Document.chunk_overlap (Some f)
           (Splitter.split_keep sep text) [] = inr out
    ∧ ((longest_word text ≤ 499)%nat →
       Forall (λ c, Py.len c ≤ Document.chunk_size) out).
Proof.
  intros Hsep Hf.
  destruct (gather_spec Document.chunk_size Document.chunk_overlap
              ltac:(done) ltac:(done) (Some f) (Splitter.split_keep sep text) [])
    as (out & Hout & Hb); [constructor | |].
  { apply Forall_forall. intros s _. simpl. destruct (Hf s) as (o & Ho & _). eauto. }
  exists out. split; [done|]. intros Hw. apply Hb.
  apply Forall_forall. intros s Hin o Ho.
  destruct (Hf s) as (o' & Ho' & Hbound). rewrite Ho in Ho'. injection Ho' as <-.
  apply Hbound. etrans; [|exact Hw].
  apply longest_word_sub. by eapply split_keep_sub.
Qed.

Lemma lines_level (text : string) :
  ∃ out, Splitter.split_text_with Document.chunk_size Document.chunk_overlap
           [Document.line_break; " "] text = inr out
    ∧ ((longest_word text ≤ 499)%nat →
       Forall (λ c, Py.len c ≤ Document.chunk_size) out).
Proof.
  change (Splitter.split_text_with Document.chunk_size Document.chunk_overlap
            [Document.line_break; " "] text)
    with (if Splitter.contains Document.line_break text
          then Splitter.gather Document.chunk_size Document.chunk_overlap
                 (Some (Splitter.split_text_with Document.chunk_size
                          Document.chunk_overlap [" "]))
                 (Splitter.split_keep Document.line_break text) []
          else Splitter.split_text_with Document.chunk_size Document.chunk_overlap
                 [" "] text).
  destruct (Splitter.contains Document.line_break text).
  - apply separator_level; [done | apply spaces_level].
  - apply spaces_level.
Qed.

Lemma paragraphs_level (text : string) :
  ∃ out, Splitter.split_text_with Document.chunk_size Document.chunk_overlap
           Document.separators text = inr out
    ∧ ((longest_word text ≤ 499)%nat →
       Forall (λ c, Py.len c ≤ Document.chunk_size) out).
Proof.
  change (Splitter.split_text_with Document.chunk_size Document.chunk_overlap
            Document.separators text)
    with (if Splitter.contains Document.paragraph_break text
          then Splitter.gather Document.chunk_size Document.chunk_overlap
                 (Some (Splitter.split_text_with Document.chunk_size
                          Document.chunk_overlap [Document.line_break; " "]))
                 (Splitter.split_keep Document.paragraph_break text) []
          else Splitter.split_text_with Document.chunk_size Document.chunk_overlap
                 [Document.line_break; " "] text).
  destruct (Splitter.contains Document.paragraph_break text).
  - apply separator_level; [done | apply lines_level].
  - apply lines_level.
Qed.

(** C10, without the overlap and with the size bound tied to the words
    of the text. For every text, [split_text] returns, and no chunk it
    returns is empty or whitespace-only once stripped; when no run of
    characters free of spaces is longer than 499, every chunk has length
    at most 500. *)
Theorem C10_chunks_not_blank_and_bounded (text : string) :
  ∃ chunks, Document.split_text text = inr chunks
    ∧ Forall not_blank chunks
    ∧ ((longest_word text ≤ 499)%nat → Forall (λ c, Py.len c ≤ 500) chunks).
Proof.
  unfold Document.split_text.
  destruct (paragraphs_level text) as (out & -> & Hb).
  eexists. split; [done|]. split.
  - apply Forall_forall. intros c [Hc _]%list_elem_of_filter.
    unfold not_blank. intros Heq. by rewrite Heq in Hc.
  - intros Hw. specialize (Hb Hw). rewrite Forall_forall in Hb.
    apply Forall_forall. intros c [_ Hc]%list_elem_of_filter. by apply Hb.
Qed.

Lemma C10_chunks_not_blank_and_bounded_witness :
  ∃ chunks, Document.split_text (rep 300 "a" ++ " " ++ rep 90 "b" ++ " " ++ rep 300 "c")
            = inr chunks
    ∧ Forall not_blank chunks
    ∧ Forall (λ c, Py.len c ≤ 500) chunks.
Proof.
  destruct (C10_chunks_not_blank_and_bounded
              (rep 300 "a" ++ " " ++ rep 90 "b" ++ " " ++ rep 300 "c"))
    as (chunks & Hrun & Hnb & Hb).
  exists chunks. split; [exact Hrun|]. split; [exact Hnb|].
  apply Hb. vm_compute. repeat constructor.
Defined.

(** C10 as stated fails on texts of 500 characters and more: a text
    without separators comes back as one chunk of its own length, and
    paragraphs that do not fit together come back one per chunk, with
    nothing shared between a chunk and the next. *)
Lemma C10_long_chunk_and_no_overlap :
  (500 ≤ Py.len long_word
   ∧ Document.split_text long_word = inr [long_word]
   ∧ Py.len long_word = 600)
  ∧ (500 ≤ Py.len three_paragraphs
     ∧ Document.split_text three_paragraphs
       = inr [rep 450 "a"; rep 450 "b"; rep 450 "c"]
     ∧ overlap_at_least 1 (rep 450 "a") (rep 450 "b") = false).
Proof. repeat apply conj; vm_compute; reflexivity || (intros; discriminate). Qed.

(* ===================================================================== *)
(** * Further properties *)
(* ===================================================================== *)

Import Extra Further.

(** ** Numerals and ticket numbers *)

Lemma int_digits_app (a : Z) (s1 s2 : string) :
  Py.int_digits a (s1 ++ s2) = Py.int_digits (Py.int_digits a s1) s2.
Proof.
  revert a. induction s1 as [|c s1 IH]; intros a; [done|].
  rewrite append_cons. simpl. apply IH.
Qed.

Lemma every_app (p : ascii → bool) (s1 s2 : string) :
  every p (s1 ++ s2) = every p s1 && every p s2.
Proof.
  induction s1 as [|c s1 IH]; [done|].
  rewrite append_cons. simpl. rewrite IH. by rewrite andb_assoc.
Qed.

Lemma every_cons (p : ascii → bool) (c : ascii) (r : string) :
  every p (String c r) = p c && every p r.
Proof. reflexivity. Qed.

Lemma int_digits_cons (a : Z) (c : ascii) (r : string) :
  Py.int_digits a (String c r) = Py.int_digits (10 * a + Py.digit_val c) r.
Proof. reflexivity. Qed.

Lemma int_digits_nil (a : Z) : Py.int_digits a EmptyString = a.
Proof. reflexivity. Qed.

Lemma str_nat_fuel_step (f n : nat) (acc : string) :
  Py.str_nat_fuel (S f) n acc
  = match (n / 10)%nat with
    | O => String (Py.digit_char (n mod 10)) acc
    | S q => Py.str_nat_fuel f (S q) (String (Py.digit_char (n mod 10)) acc)
    end.
Proof. reflexivity. Qed.

(** The decimal numeral, in front of what was accumulated. *)
Lemma str_nat_fuel_spec (fuel n : nat) (acc : string) :
  (n < fuel)%nat →
  ∃ ds, Py.str_nat_fuel fuel n acc = ds ++ acc
        ∧ all_digits ds = true
        ∧ ds ≠ EmptyString
        ∧ Py.int_digits 0 ds = Z.of_nat n.
Proof.
  revert n acc. induction fuel as [|f IH]; intros n acc Hn; [lia|].
  rewrite str_nat_fuel_step. destruct (digit_char_val (n mod 10)) as [Hval Hdig].
  { apply Nat.mod_upper_bound. lia. }
  destruct (n / 10)%nat as [|q] eqn:Hq.
  - exists (String (Py.digit_char (n mod 10)) EmptyString). split_and!.
    + done.
    + unfold all_digits. rewrite every_cons, Hdig. done.
    + done.
    + rewrite int_digits_cons, int_digits_nil, Hval.
      pose proof (Nat.div_mod_eq n 10) as Hdm. rewrite Hq in Hdm. lia.
  - destruct (IH (S q) (String (Py.digit_char (n mod 10)) acc))
      as (ds & Hds & Hall & Hne & Hint).
    { pose proof (Nat.div_mod_eq n 10) as Hdm. rewrite Hq in Hdm. lia. }
    exists (ds ++ String (Py.digit_char (n mod 10)) EmptyString). split_and!.
    + rewrite Hds. by rewrite append_assoc.
    + unfold all_digits in *. rewrite every_app, Hall, every_cons, Hdig. done.
    + destruct ds; done.
    + rewrite int_digits_app, Hint, int_digits_cons, int_digits_nil, Hval.
      pose proof (Nat.div_mod_eq n 10) as Hdm. rewrite Hq in Hdm. lia.
Qed.

Lemma str_nat_numeral (n : nat) :
  all_digits (Py.str_nat n) = true
  ∧ Py.str_nat n ≠ EmptyString
  ∧ Py.int_digits 0 (Py.str_nat n) = Z.of_nat n.
Proof.
  unfold Py.str_nat.
  destruct (str_nat_fuel_spec (S n) n EmptyString) as (ds & -> & Hall & Hne & Hint);
    [lia|].
  by rewrite append_nil_r.
Qed.

Lemma str_nat_inj (a b : nat) : Py.str_nat a = Py.str_nat b → a = b.
Proof.
  intros Heq. apply Nat2Z.inj.
  rewrite <- (proj2 (proj2 (str_nat_numeral a))), <- (proj2 (proj2 (str_nat_numeral b))).
  by rewrite Heq.
Qed.

Lemma str_nat_ids (n : nat) :
  NoDup (map Py.str_nat (seq 0 n))
  ∧ ∀ i s, map Py.str_nat (seq 0 n) !! i = Some s → Py.int_digits 0 s = Z.of_nat i.
Proof.
  split.
  - apply NoDup_fmap_2; [intros a b; apply str_nat_inj | apply NoDup_seq].
  - intros i s Hi. rewrite list_lookup_fmap in Hi.
    destruct (seq 0 n !! i) as [k|] eqn:Hk; [|done].
    apply lookup_seq in Hk as [-> _]. injection Hi as <-.
    apply str_nat_numeral.
Qed.

Lemma numeral_value_from (acc : Z) (s : string) :
  fold_left (λ a c, 10 * a + (Py.code c - 48)) (list_ascii_of_string s) acc
  = Py.int_digits acc s.
Proof. revert acc. induction s as [|c s IH]; intros acc; [done|]. simpl. apply IH. Qed.

(** [int] reads a run of digits as the integer it writes. *)
Lemma numeral_value_int_digits (s : string) : numeral_value s = Py.int_digits 0 s.
Proof. apply numeral_value_from. Qed.

Lemma str_nat_fuel_lead (fuel n : nat) (acc : string) :
  (n < fuel)%nat → (0 < n)%nat →
  ∃ d ds, Py.str_nat_fuel fuel n acc = String (Py.digit_char d) ds ∧ (0 < d < 10)%nat.
Proof.
  revert n acc. induction fuel as [|f IH]; intros n acc Hn Hpos; [lia|].
  rewrite str_nat_fuel_step.
  pose proof (Nat.div_mod_eq n 10) as Hdm.
  pose proof (Nat.mod_upper_bound n 10 ltac:(lia)) as Hmod.
  destruct (n / 10)%nat as [|q] eqn:Hq.
  - exists (n mod 10)%nat, acc. split; [done | lia].
  - apply IH; lia.
Qed.

(** [str] of a natural number is its decimal numeral. *)
Lemma str_nat_is_numeral (n : nat) : numeral n (Py.str_nat n).
Proof.
  destruct (str_nat_numeral n) as (Hall & Hne & Hval).
  unfold numeral. rewrite numeral_value_int_digits. split_and!; try done.
  intros r Hr. destruct (decide (n = 0)%nat) as [->|Hpos].
  - by injection Hr as <-.
  - unfold Py.str_nat in Hr.
    destruct (str_nat_fuel_lead (S n) n EmptyString ltac:(lia) ltac:(lia))
      as (d & ds & Hd & Hrange).
    rewrite Hd in Hr. injection Hr as Hc _.
    destruct (digit_char_val d ltac:(lia)) as [Hv _].
    rewrite Hc in Hv. change (Py.digit_val "0"%char) with 0 in Hv. lia.
Qed.

Lemma filter_fresh_nil (new : list record) : fresh_records [] new = new.
Proof.
  unfold fresh_records. induction new as [|r new IH]; [done|].
  rewrite filter_cons, decide_True by apply not_elem_of_nil. by rewrite IH.
Qed.

(** X1: the ids of a ticket batch. When [store_ticket_data] returns, the
    store was given one id per document; the ids are pairwise distinct
    and the id at position [i] is the decimal numeral of [i] (digits
    only, no zero in front, value [i]), whatever the collection already
    holds: every batch is numbered from 0 again. The collection then
    holds what it held, followed by the records of the batch whose id
    it did not hold yet: a collection without records holds the whole
    batch in its order, and a record of a later batch whose id is
    taken is not stored. *)
Theorem ticket_batch_ids (e : env) (coll : handle) (documents : list string)
  (metadatas : list metadata) (w w' : world)
  (Hrun : Incident.store_ticket_data e coll documents metadatas w = (inr tt, w')) :
  ∃ ids,
    w_trace w' = (w_trace w ++ [EvAdd (h_name coll) ids])%list
    ∧ length ids = length documents
    ∧ NoDup ids
    ∧ (∀ i s, ids !! i = Some s → numeral i s)
    ∧ records_of (w_store w') (h_name coll)
      = (records_of (w_store w) (h_name coll)
         ++ fresh_records (records_of (w_store w) (h_name coll))
              (Client.zip_records ids documents metadatas))%list
    ∧ (records_of (w_store w) (h_name coll) = [] →
       records_of (w_store w') (h_name coll)
       = Client.zip_records ids documents metadatas).
Proof.
  revert Hrun. unfold Incident.store_ticket_data. rewrite add_cases.
  destruct (Client.validate_add _ _ _); [discriminate|].
  destruct (fault_add e); [discriminate|].
  destruct (w_store w !! h_name coll) as [c|] eqn:Hc; [|discriminate].
  intros [= <-]. eexists. split; [done|]. cbn [w_store].
  destruct (str_nat_ids (length documents)) as [Hnd _].
  assert (Hrecs : records_of (<[h_name coll := Coll (coll_metadata c)
                    (coll_records c
                     ++ filter (λ r, rec_id r ∉ map rec_id (coll_records c))
                          (Client.zip_records (map Py.str_nat (seq 0 (length documents)))
                             documents metadatas))]> (w_store w)) (h_name coll)
                  = (records_of (w_store w) (h_name coll)
                     ++ fresh_records (records_of (w_store w) (h_name coll))
                          (Client.zip_records (map Py.str_nat (seq 0 (length documents)))
                             documents metadatas))%list).
  { unfold records_of. by rewrite lookup_insert_eq, Hc. }
  split_and!; try done.
  - by rewrite length_map, length_seq.
  - intros i s Hi. rewrite list_lookup_fmap in Hi.
    destruct (seq 0 (length documents) !! i) as [k|] eqn:Hk; [|done].
    apply lookup_seq in Hk as [-> _]. injection Hi as <-.
    apply str_nat_is_numeral.
  - intros Hempty. rewrite Hrecs, Hempty. apply filter_fresh_nil.
Qed.

Lemma ticket_batch_ids_witness :
  ∃ ids,
    w_trace (snd (Incident.store_ticket_data (quiet_env (ok_response []))
                    (Handle Incident.collection_name None) ["a"; "b"; "c"]
                    [plain_metadata; plain_metadata; plain_metadata] (world_with None)))
    = [EvAdd Incident.collection_name ids]
    ∧ NoDup ids
    ∧ ∀ i s, ids !! i = Some s → numeral i s.
Proof.
  destruct (ticket_batch_ids (quiet_env (ok_response []))
              (Handle Incident.collection_name None) ["a"; "b"; "c"]
              [plain_metadata; plain_metadata; plain_metadata]
              (world_with None) _ ltac:(vm_compute; reflexivity))
    as (ids & Htr & _ & Hnd & Hnum & _).
  exists ids. split; [exact Htr|]. split; [exact Hnd | exact Hnum].
Defined.

Lemma drop_no_digit (prefix s : string) :
  no_digit prefix = true →
  Py.drop_while (λ c, negb (Py.isdigit c)) (prefix ++ s)
  = Py.drop_while (λ c, negb (Py.isdigit c)) s.
Proof.
  induction prefix as [|c p IH]; [done|].
  unfold no_digit. rewrite every_cons. intros [Hc Hp]%andb_true_iff.
  rewrite append_cons. simpl. rewrite Hc. by apply IH.
Qed.

Lemma take_digits (digits rest : string) :
  all_digits digits = true → stops_run rest = true →
  Py.take_while Py.isdigit (digits ++ rest) = digits.
Proof.
  intros Hd Hr. induction digits as [|c d IH].
  - destruct rest as [|c r]; [done|]. simpl in Hr. simpl.
    by destruct (Py.isdigit c).
  - unfold all_digits in Hd. rewrite every_cons in Hd.
    apply andb_true_iff in Hd as [Hc Hd].
    rewrite append_cons. simpl. rewrite Hc. f_equal. by apply IH.
Qed.

Lemma int_digits_nonneg (a : Z) (s : string) :
  0 ≤ a → all_digits s = true → 0 ≤ Py.int_digits a s.
Proof.
  revert a. induction s as [|c s IH]; intros a Ha; [done|].
  unfold all_digits. rewrite every_cons. intros [Hc Hs]%andb_true_iff.
  rewrite int_digits_cons. apply IH; [|done]. unfold Py.isdigit in Hc. unfold Py.digit_val.
  apply andb_true_iff in Hc as [H1 _]. apply Z.leb_le in H1. lia.
Qed.

Lemma take_while_all (p : ascii → bool) (s : string) :
  every p (Py.take_while p s) = true.
Proof.
  induction s as [|c s IH]; [done|]. simpl.
  destruct (p c) eqn:Hc; [|done]. simpl. by rewrite Hc.
Qed.

Lemma drop_while_none (s : string) :
  Py.drop_while (λ c, negb (Py.isdigit c)) s = EmptyString ↔ no_digit s = true.
Proof.
  unfold no_digit. induction s as [|c s IH]; [done|]. simpl.
  destruct (Py.isdigit c); simpl; [split; discriminate | exact IH].
Qed.

Lemma take_drop_while (p : ascii → bool) (s : string) :
  Py.take_while p s ++ Py.drop_while p s = s.
Proof.
  induction s as [|c s IH]; [done|]. simpl.
  destruct (p c); [|done]. by rewrite append_cons, IH.
Qed.

Lemma drop_while_stops (p : ascii → bool) (s : string) :
  match Py.drop_while p s with
  | EmptyString => True
  | String c _ => p c = false
  end.
Proof.
  induction s as [|c s IH]; [done|]. simpl. by destruct (p c) eqn:Hc.
Qed.

(** An identifier with a digit falls into what stands before its first
    digit, its first run of digits, and the rest. *)
Lemma ordinal_decompose (s : string) :
  no_digit s = false →
  ∃ prefix digits rest,
    s = prefix ++ digits ++ rest
    ∧ no_digit prefix = true
    ∧ all_digits digits = true ∧ digits ≠ EmptyString
    ∧ stops_run rest = true.
Proof.
  intros Hsome.
  set (nd := λ c, negb (Py.isdigit c)).
  destruct (Py.drop_while nd s) as [|c r] eqn:Hdrop.
  { apply drop_while_none in Hdrop. by rewrite Hdrop in Hsome. }
  pose proof (drop_while_stops nd s) as Hc. rewrite Hdrop in Hc.
  apply negb_false_iff in Hc.
  exists (Py.take_while nd s), (Py.take_while Py.isdigit (String c r)),
    (Py.drop_while Py.isdigit (String c r)).
  split_and!.
  - by rewrite take_drop_while, <- Hdrop, take_drop_while.
  - apply take_while_all.
  - apply take_while_all.
  - simpl. by rewrite Hc.
  - pose proof (drop_while_stops Py.isdigit (String c r)) as Hstop.
    destruct (Py.drop_while Py.isdigit (String c r)); [done|]. simpl. by rewrite Hstop.
Qed.

Lemma extract_number_run (prefix digits rest : string) :
  no_digit prefix = true → all_digits digits = true → digits ≠ EmptyString →
  stops_run rest = true →
  Incident.extract_number (prefix ++ digits ++ rest) = Py.int_digits 0 digits.
Proof.
  intros Hprefix Hds Hne Hrest. unfold Incident.extract_number, Py.search_digits.
  rewrite drop_no_digit by done.
  destruct digits as [|c ds]; [done|].
  pose proof Hds as Hall.
  unfold all_digits in Hds. rewrite every_cons in Hds.
  apply andb_true_iff in Hds as [Hc Hds].
  rewrite append_cons. simpl. rewrite Hc. simpl. rewrite Hc.
  rewrite int_digits_cons. by rewrite take_digits.
Qed.

Lemma extract_number_none (s : string) :
  Incident.extract_number s = -1 ↔ no_digit s = true.
Proof.
  unfold Incident.extract_number, Py.search_digits. split.
  - destruct (Py.drop_while (λ c, negb (Py.isdigit c)) s) as [|c r] eqn:Hdrop.
    + intros _. by apply drop_while_none.
    + intros Hneg. exfalso.
      pose proof (int_digits_nonneg 0 (Py.take_while Py.isdigit (String c r))
                    ltac:(lia) (take_while_all _ _)). lia.
  - intros Hno. apply drop_while_none in Hno. by rewrite Hno.
Qed.

(** [extract_number] computes the derived numeric ordinal. *)
Lemma extract_number_spec (s : string) (n : Z) :
  numeric_ordinal s n ↔ Incident.extract_number s = n.
Proof.
  split.
  - intros [[Hno ->]|(prefix & digits & rest & -> & Hp & Hd & Hne & Hr & ->)].
    + by apply extract_number_none.
    + rewrite numeral_value_int_digits. by apply extract_number_run.
  - intros <-. destruct (no_digit s) eqn:Hno.
    + left. split; [done|]. by apply extract_number_none.
    + right. destruct (ordinal_decompose s Hno)
        as (prefix & digits & rest & -> & Hp & Hd & Hne & Hr).
      exists prefix, digits, rest. split_and!; try done.
      rewrite numeral_value_int_digits. by apply extract_number_run.
Qed.

Lemma ordinal_spec (t : raw_ticket) (n : Z) :
  numeric_ordinal (number_of t) n ↔ Incident.ordinal t = n.
Proof. apply extract_number_spec. Qed.

(** What a fetch that returns a record as latest has selected. *)
Lemma fetch_selects (e : env) (after_datetime : value) (w w' : world)
  (mapped : list Incident.mapped_ticket) (latest : raw_ticket) :
  Incident.fetch_tickets_from_servicenow e after_datetime w
  = (inr (mapped, Some latest), w') →
  Py.max_by Incident.ordinal (batch e after_datetime) = Some latest.
Proof.
  intros Hfetch.
  destruct (fetch_cases e after_datetime w) as (r & w0 & evs & Hf & _ & _ & _ & Hres).
  rewrite Hfetch in Hf. injection Hf as <- <-.
  by destruct (Hres _ _ eq_refl) as [(_ & _ & [=])|(Hb & Hm & Hmax)].
Qed.

(** C4. When a fetch returns a record as latest, that record belongs to
    the batch and its derived numeric ordinal, the integer written by
    the digits of its number (by the first run of digits, should there
    be several; -1 without any digit), is the highest of the batch.
    Whatever the order in which a source returns the same batch, the
    record selected has the same ordinal, and it is the same record
    when no other record of the batch has that ordinal. In particular,
    of INC5, INC100 and INC23, in any order, INC100 is selected. *)
Theorem C4_latest_has_highest_ordinal (e : env) (after_datetime : value)
  (w w' : world) (mapped : list Incident.mapped_ticket) (latest : raw_ticket)
  (Hfetch : Incident.fetch_tickets_from_servicenow e after_datetime w
            = (inr (mapped, Some latest), w')) :
  latest ∈ batch e after_datetime
  ∧ (∃ n, numeric_ordinal (number_of latest) n
          ∧ ∀ t m, t ∈ batch e after_datetime →
                   numeric_ordinal (number_of t) m → m ≤ n)
  ∧ (∀ e' after' w1 w1' mapped' latest',
       Incident.fetch_tickets_from_servicenow e' after' w1
       = (inr (mapped', Some latest'), w1') →
       batch e' after' ≡ₚ batch e after_datetime →
       (∀ n n', numeric_ordinal (number_of latest) n →
                numeric_ordinal (number_of latest') n' → n' = n)
       ∧ ((∀ t n, t ∈ batch e after_datetime →
                  numeric_ordinal (number_of t) n →
                  numeric_ordinal (number_of latest) n → t = latest) →
          latest' = latest))
  ∧ (∀ e' after' w1 w1' mapped' latest',
       Incident.fetch_tickets_from_servicenow e' after' w1
       = (inr (mapped', Some latest'), w1') →
       batch e' after' ≡ₚ [inc5; inc100; inc23] →
       latest' = inc100).
Proof.
  pose proof (fetch_selects _ _ _ _ _ _ Hfetch) as Hmax. split_and!.
  - by eapply max_by_in.
  - exists (Incident.ordinal latest). split; [by apply ordinal_spec|].
    intros t m Hin Hm. apply ordinal_spec in Hm as <-. by eapply max_by_upper.
  - intros e' after' w1 w1' mapped' latest' Hfetch' Hperm.
    pose proof (fetch_selects _ _ _ _ _ _ Hfetch') as Hmax'.
    destruct (max_by_permutation _ _ _ _ Hmax Hperm) as (m' & Hm' & Hkey & Huniq).
    rewrite Hmax' in Hm'. injection Hm' as <-. split.
    + intros n n' Hn Hn'. apply ordinal_spec in Hn, Hn'. congruence.
    + intros Hone. apply Huniq. intros t Hin Hsame.
      apply (Hone t (Incident.ordinal latest) Hin); apply ordinal_spec; done.
  - intros e' after' w1 w1' mapped' latest' Hfetch' Hperm.
    pose proof (fetch_selects _ _ _ _ _ _ Hfetch') as Hmax'.
    assert (Hmax0 : Py.max_by Incident.ordinal [inc5; inc100; inc23] = Some inc100)
      by reflexivity.
    destruct (max_by_permutation _ _ _ _ Hmax0 Hperm) as (m' & Hm' & _ & Huniq).
    rewrite Hmax' in Hm'. injection Hm' as <-.
    apply Huniq. intros x Hx Hkey.
    repeat (apply elem_of_cons in Hx as [->|Hx]); try done;
      try (vm_compute in Hkey; discriminate).
    by apply elem_of_nil in Hx.
Qed.

Lemma C4_latest_has_highest_ordinal_witness :
  ∃ mapped w',
    Incident.fetch_tickets_from_servicenow
      (quiet_env (ok_response [inc5; inc100; inc23]))
      (VStr Incident.default_cutoff) empty_world
    = (inr (mapped, Some inc100), w')
    ∧ inc100 ∈ batch (quiet_env (ok_response [inc5; inc100; inc23]))
                     (VStr Incident.default_cutoff)
    ∧ ∃ n, numeric_ordinal (number_of inc100) n
           ∧ ∀ t m, t ∈ batch (quiet_env (ok_response [inc5; inc100; inc23]))
                          (VStr Incident.default_cutoff) →
                    numeric_ordinal (number_of t) m → m ≤ n.
Proof.
  eexists _, _.
  refine ((λ H, conj H (conj (proj1 (C4_latest_has_highest_ordinal _ _ _ _ _ _ H))
                          (proj1 (proj2 (C4_latest_has_highest_ordinal _ _ _ _ _ _ H)))))
            _).
  reflexivity.
Defined.



(** ** Timestamps *)

Lemma in_bind {A B : Type} (m : Py.matcher A) (f : A → Py.matcher B)
  (s : string) (b : B) (r : string) :
  In (b, r) (Py.m_bind m f s) → ∃ a r', In (a, r') (m s) ∧ In (b, r) (f a r').
Proof.
  unfold Py.m_bind. rewrite in_flat_map. intros [[a r'] [H1 H2]]. eauto.
Qed.

Lemma in_ret {A : Type} (a b : A) (s r : string) :
  In (b, r) (Py.m_ret a s) → b = a ∧ r = s.
Proof. intros [[= -> ->]|[]]. done. Qed.

Lemma in_alt {A : Type} (m1 m2 : Py.matcher A) (s : string) (x : A * string) :
  In x (Py.m_alt m1 m2 s) → In x (m1 s) ∨ In x (m2 s).
Proof. unfold Py.m_alt. apply in_app_or. Qed.

Lemma in_digit (lo hi : Z) (s : string) (v : Z) (r : string) :
  In (v, r) (Py.m_digit lo hi s) → lo ≤ v ≤ hi.
Proof.
  unfold Py.m_digit. intros (c & r' & Hc & Hv)%in_bind.
  apply in_ret in Hv as [-> _]. unfold Py.m_char in Hc.
  destruct s as [|c' s']; [done|].
  destruct (Py.isdigit c' && Py.in_range lo hi c') eqn:Hp; [|done].
  destruct Hc as [[= <- <-]|[]].
  apply andb_true_iff in Hp as [_ Hr]. unfold Py.in_range in Hr.
  apply andb_true_iff in Hr as [H1 H2]. apply Z.leb_le in H1, H2. lia.
Qed.

Lemma in_digit2 (lo1 hi1 lo2 hi2 : Z) (s : string) (v : Z) (r : string) :
  In (v, r) (Py.m_digit2 lo1 hi1 lo2 hi2 s) →
  10 * lo1 + lo2 ≤ v ≤ 10 * hi1 + hi2.
Proof.
  unfold Py.m_digit2. intros (a & r1 & Ha & H)%in_bind.
  apply in_bind in H as (b & r2 & Hb & H). apply in_ret in H as [-> _].
  apply in_digit in Ha, Hb. lia.
Qed.

Ltac in_groups H :=
  repeat match type of H with
         | In _ (Py.m_alt _ _ _) => apply in_alt in H as [H|H]
         end;
  try (apply in_digit2 in H); try (apply in_digit in H); try lia.

Lemma in_re_Y s v r : In (v, r) (Py.re_Y s) → 0 ≤ v ≤ 9999.
Proof.
  unfold Py.re_Y. intros (a & r1 & Ha & H)%in_bind.
  apply in_bind in H as (b & r2 & Hb & H).
  apply in_bind in H as (c & r3 & Hc & H).
  apply in_bind in H as (d & r4 & Hd & H). apply in_ret in H as [-> _].
  apply in_digit in Ha, Hb, Hc, Hd. lia.
Qed.

Lemma in_re_m s v r : In (v, r) (Py.re_m s) → 1 ≤ v ≤ 12.
Proof. unfold Py.re_m. intros H. in_groups H. Qed.

Lemma in_re_d s v r : In (v, r) (Py.re_d s) → 1 ≤ v ≤ 31.
Proof.
  unfold Py.re_d. intros H. in_groups H.
  apply in_bind in H as (u & r1 & _ & H). apply in_digit in H. lia.
Qed.

Lemma in_re_H s v r : In (v, r) (Py.re_H s) → 0 ≤ v ≤ 23.
Proof. unfold Py.re_H. intros H. in_groups H. Qed.

Lemma in_re_M s v r : In (v, r) (Py.re_M s) → 0 ≤ v ≤ 59.
Proof. unfold Py.re_M. intros H. in_groups H. Qed.

Lemma in_re_S s v r : In (v, r) (Py.re_S s) → 0 ≤ v ≤ 61.
Proof. unfold Py.re_S. intros H. in_groups H. Qed.

Lemma in_re_format (s : string) (d : Py.datetime) (r : string) :
  In (d, r) (Py.re_format s) →
  0 ≤ Py.year d ≤ 9999 ∧ 1 ≤ Py.month d ≤ 12 ∧ 1 ≤ Py.day d ≤ 31
  ∧ 0 ≤ Py.hour d ≤ 23 ∧ 0 ≤ Py.minute d ≤ 59 ∧ 0 ≤ Py.second d ≤ 61.
Proof.
  unfold Py.re_format. intros (y & r1 & Hy & H)%in_bind.
  apply in_bind in H as (u1 & r2 & _ & H).
  apply in_bind in H as (m & r3 & Hm & H).
  apply in_bind in H as (u2 & r4 & _ & H).
  apply in_bind in H as (dd & r5 & Hd & H).
  apply in_bind in H as (u3 & r6 & _ & H).
  apply in_bind in H as (h & r7 & Hh & H).
  apply in_bind in H as (u4 & r8 & _ & H).
  apply in_bind in H as (mi & r9 & Hmi & H).
  apply in_bind in H as (u5 & r10 & _ & H).
  apply in_bind in H as (sec & r11 & Hs & H).
  apply in_ret in H as [-> _]. simpl.
  apply in_re_Y in Hy. apply in_re_m in Hm. apply in_re_d in Hd.
  apply in_re_H in Hh. apply in_re_M in Hmi. apply in_re_S in Hs. done.
Qed.

(** What [strptime] returns is a date and time of the calendar. *)
Lemma strptime_real (s : string) (d : Py.datetime) :
  Py.strptime s = inr d → real_datetime d.
Proof.
  unfold Py.strptime.
  destruct (Py.re_format s) as [|[d0 rest] l] eqn:Hre; [done|].
  destruct rest; [|done].
  destruct (Py.year d0 <? 1) eqn:Hy; [done|].
  destruct (Py.days_in_month (Py.year d0) (Py.month d0) <? Py.day d0) eqn:Hd; [done|].
  destruct (59 <? Py.second d0) eqn:Hs; [done|].
  intros [= <-].
  assert (Hin : In (d0, EmptyString) (Py.re_format s)) by (rewrite Hre; by left).
  apply in_re_format in Hin. apply Z.ltb_ge in Hy, Hd, Hs.
  unfold real_datetime. lia.
Qed.

(** What a successful update was given and what it left. *)
Lemma update_ok_inv (e : env) (payload : gmap string value)
  (w w' : world) (body : App.update_body)
  (Hok : App.update_last_update_time e payload w = (App.Ok body, w')) :
  payload !! "last_update_time" = Some (VStr (App.up_last_update_time body))
  ∧ (∃ d, Py.strptime (App.up_last_update_time body) = inr d ∧ real_datetime d)
  ∧ stored_checkpoint (w_store w') = Some (VStr (App.up_last_update_time body)).
Proof.
  revert Hok. unfold App.update_last_update_time, Incident.fetch_db_client,
    Client.HttpClient, Incident.save_last_update_time.
  unfold Chroma.bind at 1. unfold Chroma.lift.
  assert (Hbad : ∀ x w0, (if Py.is_ValueError x
                          then (App.HTTPException 400 App.invalid_format_detail, w0)
                          else (App.HTTPException 500 (Py.exn_str x), w0))
                         ≠ (App.Ok body, w')).
  { intros x w0. by destruct (Py.is_ValueError x). }
  destruct (payload !! "last_update_time") as [[| s | z | z]|] eqn:Hp; simpl;
    try (intros Hok; discriminate).
  destruct (Py.strptime s) as [x|d] eqn:Hd; [intros Hok; by apply Hbad in Hok|].
  unfold Chroma.bind at 1 2. unfold Chroma.may_fail.
  destruct (fault_connect e) as [x|]; simpl; [intros Hok; by apply Hbad in Hok|].
  unfold Chroma.bind at 1.
  destruct (w_store w !! Incident.collection_name) as [c|] eqn:Hc.
  - erewrite get_or_create_existing by (simpl; exact Hc).
    destruct (fault_get_or_create e) as [x|]; [intros Hok; by apply Hbad in Hok|].
    unfold Chroma.bind at 1.
    destruct (fault_modify e) as [x|] eqn:Hm.
    + unfold Client.modify. unfold_M. rewrite Hm. simpl.
      intros Hok; by apply Hbad in Hok.
    + erewrite modify_ok; [|done|simpl; exact Hc]. simpl.
      intros [= <- <-]. simpl. split_and!; [done | eauto using strptime_real|].
      apply stored_checkpoint_saved.
  - erewrite get_or_create_absent by (simpl; exact Hc).
    destruct (fault_get_or_create e) as [x|]; [intros Hok; by apply Hbad in Hok|].
    unfold Chroma.bind at 1.
    destruct (fault_modify e) as [x|] eqn:Hm.
    + unfold Client.modify. unfold_M. rewrite Hm. simpl.
      intros Hok; by apply Hbad in Hok.
    + erewrite modify_ok; [|done|simpl; apply lookup_insert_eq]. simpl.
      intros [= <- <-]. simpl. split_and!; [done | eauto using strptime_real|].
      apply stored_checkpoint_saved.
Qed.

(** X3: what the update endpoint stores. When [POST /update-last-ticket-time]
    answers with success, the payload held a string, that string reads as
    a date and time of the calendar (the month has that day, the hour is
    below 24, minute and second below 60), and it is, character for
    character, the stored checkpoint. *)
Theorem update_stores_real_datetime (e : env) (payload : gmap string value)
  (w w' : world) (body : App.update_body)
  (Hok : App.update_last_update_time e payload w = (App.Ok body, w')) :
  payload !! "last_update_time" = Some (VStr (App.up_last_update_time body))
  ∧ (∃ d, Py.strptime (App.up_last_update_time body) = inr d ∧ real_datetime d)
  ∧ stored_checkpoint (w_store w') = Some (VStr (App.up_last_update_time body)).
Proof. exact (update_ok_inv e payload w w' body Hok). Qed.

Lemma update_stores_real_datetime_witness :
  ∃ d, Py.strptime "2024-02-29 23:59:59" = inr d ∧ real_datetime d.
Proof.
  refine (proj1 (proj2 (update_stores_real_datetime (quiet_env (ok_response []))
    (payload_of "2024-02-29 23:59:59") empty_world _
    (App.UpdateBody "Last update time updated successfully" "2024-02-29 23:59:59"
       "2025-07-04T10:00:00") _))).
  vm_compute. reflexivity.
Defined.

(** The fixed widths of the printed fields. *)
Lemma fmt_int_widths :
  (∀ z, 1000 ≤ z ≤ 9999 → String.length (Py.str_int z) = 4%nat)
  ∧ (∀ z, 0 ≤ z ≤ 99 → String.length (Py.fmt_int 2 z) = 2%nat).
Proof.
  assert (H4 : forallb (λ n, Nat.eqb (String.length (Py.str_int (Z.of_nat n))) 4)
                 (seq (Z.to_nat 1000) (Z.to_nat 9000)) = true) by (vm_compute; reflexivity).
  assert (H2 : forallb (λ n, Nat.eqb (String.length (Py.fmt_int 2 (Z.of_nat n))) 2)
                 (seq 0 100) = true) by (vm_compute; reflexivity).
  rewrite forallb_forall in H4, H2. split; intros z Hz.
  - specialize (H4 (Z.to_nat z)). rewrite Z2Nat.id in H4 by lia.
    apply Nat.eqb_eq, H4, in_seq. lia.
  - specialize (H2 (Z.to_nat z)). rewrite Z2Nat.id in H2 by lia.
    apply Nat.eqb_eq, H2, in_seq. lia.
Qed.

Lemma length_2 (s : string) :
  String.length s = 2%nat → ∃ a b, s = String a (String b EmptyString).
Proof. destruct s as [|a [|b [|c s]]]; try done. eauto. Qed.

Lemma length_4 (s : string) :
  String.length s = 4%nat →
  ∃ a b c d, s = String a (String b (String c (String d EmptyString))).
Proof. destruct s as [|a [|b [|c [|d [|x s]]]]]; try done. eauto 6. Qed.

(** X4: the shape of [opened_at]. Whatever the padding of the timestamp
    it is given, when [strptime] accepts it with a year of four digits
    (for earlier years the width of [%Y] is left to the C library),
    [to_iso8601] returns the 20 characters of [YYYY-MM-DDTHH:MM:SSZ],
    with the separators at their fixed places. *)
Theorem to_iso8601_shape (s : string) (d : Py.datetime)
  (Hparse : Py.strptime s = inr d)
  (Hyear : 1000 ≤ Py.year d) :
  ∃ iso, Incident.to_iso8601 (Some s) = inr iso
    ∧ String.length iso = 20%nat
    ∧ String.get 4 iso = Some "-"%char ∧ String.get 7 iso = Some "-"%char
    ∧ String.get 10 iso = Some "T"%char
    ∧ String.get 13 iso = Some ":"%char ∧ String.get 16 iso = Some ":"%char
    ∧ String.get 19 iso = Some "Z"%char.
Proof.
  unfold Incident.to_iso8601. simpl. rewrite Hparse. eexists. split; [done|].
  destruct (strptime_real s d Hparse) as (Hy & Hm & Hdd & Hh & Hmi & Hs).
  assert (Hday : Py.day d ≤ 31).
  { unfold Py.days_in_month in Hdd. repeat case_match; lia. }
  destruct fmt_int_widths as [W4 W2]. unfold Py.strftime_iso.
  destruct (length_4 _ (W4 (Py.year d) ltac:(lia))) as (y1 & y2 & y3 & y4 & ->).
  destruct (length_2 _ (W2 (Py.month d) ltac:(lia))) as (m1 & m2 & ->).
  destruct (length_2 _ (W2 (Py.day d) ltac:(lia))) as (d1 & d2 & ->).
  destruct (length_2 _ (W2 (Py.hour d) ltac:(lia))) as (h1 & h2 & ->).
  destruct (length_2 _ (W2 (Py.minute d) ltac:(lia))) as (i1 & i2 & ->).
  destruct (length_2 _ (W2 (Py.second d) ltac:(lia))) as (s1 & s2 & ->).
  repeat split.
Qed.

Lemma to_iso8601_shape_witness :
  ∃ iso, Incident.to_iso8601 (Some "2025-7-3 5:6:7") = inr iso
         ∧ String.length iso = 20%nat.
Proof.
  destruct (to_iso8601_shape "2025-7-3 5:6:7" (Py.DateTime 2025 7 3 5 6 7)
              ltac:(vm_compute; reflexivity) ltac:(vm_compute; discriminate))
    as (iso & Hiso & Hlen & _).
  exists iso. split; [exact Hiso | exact Hlen].
Defined.

(** ** What a sync run stores *)

Lemma sync_body_split (e : env) :
  Incident.sync_body e
  = (Incident.fetch_db_client e ;;;
     coll <- Incident.get_or_create_ticket_collection e ;;
     sync_with_collection e coll).
Proof. reflexivity. Qed.





(** A metadata map is allowed when it has an entry and none of its
    values is [None]. *)
Lemma metadata_allowed_spec (m : metadata) :
  Client.metadata_allowed m = true
  ↔ m ≠ ∅ ∧ ∀ k v, m !! k = Some v → v ≠ VNone.
Proof.
  unfold Client.metadata_allowed.
  destruct (map_to_list m) as [|kv l] eqn:Hl.
  - apply map_to_list_empty_iff in Hl. split; [done | by intros [? _]].
  - assert (Hne : m ≠ ∅).
    { intros ->. by rewrite map_to_list_empty in Hl. }
    rewrite forallb_forall. split.
    + intros Hall. split; [done|]. intros k v Hk ->.
      apply elem_of_map_to_list in Hk. rewrite Hl in Hk.
      apply list_elem_of_In in Hk. by specialize (Hall _ Hk).
    + intros [_ Hall] [k v] Hin. apply list_elem_of_In in Hin.
      rewrite <- Hl in Hin. apply elem_of_map_to_list in Hin.
      specialize (Hall k v Hin). by destruct v.
Qed.






(** The run up to the handle, the store serving the calls: the handle
    names the ticket collection, which then exists with the records it
    had (none if it was created), and reads the stored checkpoint. *)
Lemma sync_prefix (e : env) (w : world) :
  fault_connect e = None → fault_list e = None →
  fault_get e = None → fault_create e = None →
  ∃ h w1 c1 ev,
    Incident.sync_body e w = sync_with_collection e h w1
    ∧ h_name h = Incident.collection_name
    ∧ w_store w1 !! Incident.collection_name = Some c1
    ∧ Incident.effective_cutoff (Incident.load_last_update_time h)
      = checkpoint_in_force (w_store w)
    ∧ coll_records c1 = records_of (w_store w) Incident.collection_name
    ∧ (∀ other, other ≠ Incident.collection_name →
         w_store w1 !! other = w_store w !! other)
    ∧ stored_checkpoint (w_store w1) = stored_checkpoint (w_store w)
    ∧ w_trace w1 = (w_trace w ++ [EvConnect; EvList; ev])%list
    ∧ is_write ev = false ∧ is_request ev = false
    ∧ (∀ c, w_store w !! Incident.collection_name = Some c →
         w_store w1 = w_store w ∧ ev = EvGet Incident.collection_name).
Proof.
  intros Hconnect Hlist Hget Hcreate.
  rewrite sync_body_split. unfold Incident.fetch_db_client, Client.HttpClient.
  unfold Chroma.bind at 1 2. unfold Chroma.may_fail. rewrite Hconnect.
  unfold Chroma.ret at 1. cbv beta iota. unfold Chroma.log at 1. cbv beta iota.
  unfold Chroma.bind at 1.
  set (w0 := World (w_store w) (w_trace w ++ [EvConnect])).
  destruct (w_store w !! Incident.collection_name) as [c|] eqn:Hc.
  - destruct (ticket_collection_existing e w0 c Hc)
      as (r & w1 & Hrun & Hs & _ & Hok).
    destruct (Hok Hlist Hget) as [-> Htr]. rewrite Hrun.
    exists (Handle Incident.collection_name (coll_metadata c)), w1, c,
      (EvGet Incident.collection_name).
    split_and!; try done.
    + by rewrite Hs.
    + unfold checkpoint_in_force. by rewrite (stored_checkpoint_lookup _ c Hc).
    + unfold records_of. by rewrite Hc.
    + intros other _. by rewrite Hs.
    + by rewrite Hs.
    + rewrite Htr. simpl. by rewrite <- app_assoc.
  - destruct (ticket_collection_absent e w0 Hc)
      as (r & w1 & Hrun & _ & Hh & Hok).
    destruct (Hok Hlist Hcreate) as [h ->].
    destruct (Hh h eq_refl) as (-> & Hs & Htr). rewrite Hrun.
    exists (Handle Incident.collection_name (Some Incident.creation_metadata)), w1,
      (Coll (Some Incident.creation_metadata) []),
      (EvCreate Incident.collection_name (Some Incident.creation_metadata)).
    split_and!; try done.
    + rewrite Hs. apply lookup_insert_eq.
    + unfold checkpoint_in_force, stored_checkpoint, ticket_metadata_key, metadata_of.
      by rewrite Hc.
    + unfold records_of. by rewrite Hc.
    + intros other Hne. rewrite Hs. by apply lookup_insert_ne.
    + rewrite Hs. unfold stored_checkpoint, ticket_metadata_key, metadata_of.
      rewrite lookup_insert_eq. simpl in Hc. by rewrite Hc.
    + rewrite Htr. simpl. by rewrite <- app_assoc.
Qed.





Lemma fetch_nothing (e : env) (cutoff : value) (d t : string) (w : world) :
  nothing_fetched e cutoff d t →
  Incident.fetch_tickets_from_servicenow e cutoff w
  = (inr ([], None), World (w_store w) (w_trace w ++ [EvHttpGet d t])).
Proof.
  intros (Hsplit & st & js & Hresp & Hcase).
  unfold Incident.fetch_tickets_from_servicenow, Client.requests_get,
    Client.json_result. unfold_M.
  rewrite Hsplit. simpl. rewrite Hresp. simpl.
  destruct (st =? 200) eqn:Hst.
  - apply Z.eqb_eq in Hst. destruct Hcase as [?|[->| ->]]; done.
  - done.
Qed.

(** X7: a run that finds nothing new. The ticket collection existing and
    the store serving the calls, when the source answers the cut-off in
    force without records (a status other than 200, or no records in the
    body), the run reports [success=true] with no ticket processed and
    leaves the whole store as it was; it made one request and no write. *)
Theorem sync_run_nothing_new (e : env) (w : world) (c : collection) (d t : string)
  (Hconnect : fault_connect e = None) (Hlist : fault_list e = None)
  (Hget : fault_get e = None)
  (Hexists : w_store w !! Incident.collection_name = Some c)
  (Hnothing : nothing_fetched e (checkpoint_in_force (w_store w)) d t) :
  Incident.sync_tickets e w
  = (empty_result e,
     World (w_store w)
           (w_trace w ++ [EvConnect; EvList; EvGet Incident.collection_name;
                          EvHttpGet d t])).
Proof.
  rewrite sync_tickets_unfold, sync_body_split.
  unfold Incident.fetch_db_client, Client.HttpClient.
  unfold Chroma.bind at 1 2. unfold Chroma.may_fail. rewrite Hconnect.
  unfold Chroma.ret at 1. cbv beta iota. unfold Chroma.log at 1. cbv beta iota.
  unfold Chroma.bind at 1.
  destruct (ticket_collection_existing e
              (World (w_store w) (w_trace w ++ [EvConnect])) c Hexists)
    as (r & w1 & Hrun & Hs & _ & Hok).
  destruct (Hok Hlist Hget) as [-> Htr]. rewrite Hrun.
  unfold sync_with_collection. unfold Chroma.bind at 1.
  assert (Hcut : Incident.effective_cutoff
            (Incident.load_last_update_time
               (Handle Incident.collection_name (coll_metadata c)))
          = checkpoint_in_force (w_store w)).
  { unfold checkpoint_in_force. by rewrite (stored_checkpoint_lookup _ c Hexists). }
  rewrite Hcut, (fetch_nothing e _ d t w1 Hnothing). simpl.
  unfold Chroma.ret. simpl in Hs, Htr. rewrite Hs, Htr.
  by rewrite <- !app_assoc.
Qed.

Lemma sync_run_nothing_new_witness :
  let w := world_with (Some {[ Incident.checkpoint_key := VStr "2025-07-03 15:16:53" ]}) in
  fst (Incident.sync_tickets (quiet_env (HttpResponse 503 (JsonBody None))) w)
  = empty_result (quiet_env (HttpResponse 503 (JsonBody None)))
  ∧ w_store (snd (Incident.sync_tickets (quiet_env (HttpResponse 503 (JsonBody None))) w))
    = w_store w.
Proof.
  cbv zeta.
  rewrite (sync_run_nothing_new (quiet_env (HttpResponse 503 (JsonBody None)))
             (world_with (Some {[ Incident.checkpoint_key := VStr "2025-07-03 15:16:53" ]}))
             (Coll (Some {[ Incident.checkpoint_key := VStr "2025-07-03 15:16:53" ]}) [])
             "2025-07-03" "15:16:53" eq_refl eq_refl eq_refl
             ltac:(vm_compute; reflexivity)
             ltac:(split; [vm_compute; reflexivity
                          | exists 503, (JsonBody None); split; [reflexivity | left; lia]])).
  split; reflexivity.
Defined.

Lemma split_char_length (s : string) :
  length (Py.split_char " " s) = S (spaces s).
Proof.
  induction s as [|c s IH]; [done|]. simpl.
  destruct (Ascii.eqb c " ").
  - simpl. by rewrite IH.
  - destruct (Py.split_char " " s); simpl in *; [done | by rewrite IH].
Qed.

(** A cut-off splits into date and time exactly when it holds one
    space. *)
Lemma split_cutoff_spaces (s : string) :
  spaces s ≠ 1%nat →
  ∃ x, Incident.split_cutoff (VStr s) = inl x ∧ Py.exn_class x = Py.ValueError.
Proof.
  intros Hsp. pose proof (split_char_length s) as Hlen.
  unfold Incident.split_cutoff.
  destruct (Py.split_char " " s) as [|a [|b [|c l]]]; simpl in Hlen; eauto.
  lia.
Qed.

Lemma digit_not_space (n : nat) :
  (n < 10)%nat → Ascii.eqb (Py.digit_char n) " " = false.
Proof. intros Hn. do 10 (destruct n as [|n]; [done|]). lia. Qed.

(** A valid timestamp written with two spaces between date and time is
    accepted by [strptime], with the same fields. *)
Lemma wide_gap_strptime (date_part time_part : string) (d : Py.datetime) :
  String.length date_part = 10%nat →
  strict_fields (date_part ++ " " ++ time_part) = Some d →
  calendar_ok d = true →
  Py.strptime (date_part ++ "  " ++ time_part) = inr d
  ∧ spaces (date_part ++ "  " ++ time_part) = 2%nat.
Proof.
  intros Hlen Hs Hok.
  destruct (strict_fields_inv _ d Hs)
    as (y1 & y2 & y3 & y4 & m1 & m2 & d1 & d2 & h1 & h2 & i1 & i2 & s1 & s2
        & Hall & Heq & Hd).
  set (date_part' := String (Py.digit_char y1) (String (Py.digit_char y2)
                (String (Py.digit_char y3) (String (Py.digit_char y4)
                (String "-" (String (Py.digit_char m1) (String (Py.digit_char m2)
                (String "-" (String (Py.digit_char d1) (String (Py.digit_char d2)
                EmptyString)))))))))).
  set (time_part' := String (Py.digit_char h1) (String (Py.digit_char h2)
                (String ":" (String (Py.digit_char i1) (String (Py.digit_char i2)
                (String ":" (String (Py.digit_char s1) (String (Py.digit_char s2)
                EmptyString)))))))).
  assert (Hparts : date_part = date_part' ∧ " " ++ time_part = " " ++ time_part').
  { apply append_same_length; [exact Heq | by rewrite Hlen]. }
  destruct Hparts as [-> Htime].
  change (String " " time_part = String " " time_part') in Htime.
  injection Htime as ->.
  split.
  - destruct (strptime_gap "  " y1 y2 y3 y4 m1 m2 d1 d2 h1 h2 i1 i2 s1 s2 Hall
                (λ k x r, gap_two_spaces k x r)) as [[_ Hp]|[Hno _]].
    + rewrite Hd. exact Hp.
    + rewrite Hd in Hok. cbv zeta in Hno. congruence.
  - repeat (apply Forall_cons in Hall as [? Hall]).
    unfold date_part', time_part'. rewrite !append_cons, !append_nil_l. cbn [spaces].
    rewrite !digit_not_space by done. reflexivity.
Qed.

(** X8: a checkpoint that does not split. When the checkpoint in force
    is a string that does not hold exactly one space, the run fails
    with the [ValueError] of the unpacking before the source is asked
    anything and before any write: whatever the source holds, every run
    fails the same way and the stored checkpoint stays. The update
    endpoint stores such strings: every timestamp of the calendar,
    written with two spaces between date and time, is accepted and is
    then the checkpoint in force. *)
Theorem sync_run_unsplittable_checkpoint (e : env) (w : world) (s : string)
  (Hconnect : fault_connect e = None) (Hlist : fault_list e = None)
  (Hget : fault_get e = None) (Hcreate : fault_create e = None)
  (Hcheckpoint : checkpoint_in_force (w_store w) = VStr s)
  (Hspaces : spaces s ≠ 1%nat) :
  (∃ x, Py.exn_class x = Py.ValueError
        ∧ fst (Incident.sync_tickets e w) = failed_result e x)
  ∧ (∃ evs, w_trace (snd (Incident.sync_tickets e w)) = (w_trace w ++ evs)%list
            ∧ Forall (λ ev, is_request ev = false ∧ is_write ev = false) evs)
  ∧ stored_checkpoint (w_store (snd (Incident.sync_tickets e w)))
    = stored_checkpoint (w_store w)
  ∧ checkpoint_in_force (w_store (snd (Incident.sync_tickets e w))) = VStr s
  ∧ (∀ e0 w0 date_part time_part d,
       String.length date_part = 10%nat →
       strict_fields (date_part ++ " " ++ time_part) = Some d →
       calendar_ok d = true →
       store_up e0 →
       spaces (date_part ++ "  " ++ time_part) ≠ 1%nat
       ∧ ∃ w1, App.update_last_update_time e0 (payload_of (date_part ++ "  " ++ time_part)) w0
               = (App.Ok (App.UpdateBody "Last update time updated successfully"
                            (date_part ++ "  " ++ time_part) (now_isoformat e0)), w1)
             ∧ checkpoint_in_force (w_store w1) = VStr (date_part ++ "  " ++ time_part)).
Proof.
  destruct (split_cutoff_spaces s Hspaces) as (x & Hsplit & Hclass).
  rewrite <- Hcheckpoint in Hsplit.
  destruct (sync_prefix e w Hconnect Hlist Hget Hcreate)
    as (h & w1 & c1 & ev & Hbody & Hname & Hc1 & Hcut & Hrecs & Hother & Hck
        & Htr & Hw & Hr & _).
  assert (Htail : sync_with_collection e h w1 = (inl x, w1)).
  { unfold sync_with_collection, Incident.fetch_tickets_from_servicenow.
    unfold Chroma.bind at 1 2. unfold Chroma.lift. by rewrite Hcut, Hsplit. }
  rewrite sync_tickets_unfold, Hbody, Htail. cbn [fst snd].
  split_and!.
  - by exists x.
  - exists [EvConnect; EvList; ev]. split; [done|]. by repeat constructor.
  - done.
  - unfold checkpoint_in_force. rewrite Hck. exact Hcheckpoint.
  - intros e0 w0 date_part time_part d Hlen Hstrict Hok Hup.
    destruct (wide_gap_strptime date_part time_part d Hlen Hstrict Hok) as [Hparse Hsp].
    split; [by rewrite Hsp|].
    assert (Hpayload : payload_of (date_part ++ "  " ++ time_part) !! "last_update_time"
                       = Some (VStr (date_part ++ "  " ++ time_part)))
      by apply lookup_singleton_eq.
    destruct (update_accepts e0 w0 (payload_of (date_part ++ "  " ++ time_part))
                (date_part ++ "  " ++ time_part) Hpayload d Hparse Hup)
      as (w2 & Hrun & Hstored & _).
    exists w2. split; [exact Hrun|].
    unfold checkpoint_in_force. rewrite Hstored. cbn [default].
    apply effective_cutoff_saved. by apply strptime_nonempty in Hparse.
Qed.

Lemma sync_run_unsplittable_checkpoint_witness :
  let e := quiet_env (ok_response [inc5]) in
  let w := snd (App.update_last_update_time e (payload_of "2025-07-03  15:16:53")
                  empty_world) in
  stored_checkpoint (w_store w) = Some (VStr "2025-07-03  15:16:53")
  ∧ ∃ x, Py.exn_class x = Py.ValueError
         ∧ fst (Incident.sync_tickets e w) = failed_result e x.
Proof.
  cbv zeta. split; [vm_compute; reflexivity|].
  refine (proj1 (sync_run_unsplittable_checkpoint (quiet_env (ok_response [inc5]))
    (snd (App.update_last_update_time (quiet_env (ok_response [inc5]))
            (payload_of "2025-07-03  15:16:53") empty_world))
    "2025-07-03  15:16:53" eq_refl eq_refl eq_refl eq_refl _ _)).
  - vm_compute. reflexivity.
  - vm_compute. discriminate.
Defined.

(** ** A text shorter than a chunk *)

Lemma rstrip_idem (s : string) : Py.rstrip (Py.rstrip s) = Py.rstrip s.
Proof.
  induction s as [|c r IH]; [done|]. simpl.
  destruct (Py.rstrip r) as [|c' r'] eqn:Hr.
  - destruct (Py.isspace c) eqn:Hc; [done|]. simpl. by rewrite Hc.
  - simpl. simpl in IH. by rewrite IH.
Qed.

Lemma lstrip_head (s : string) :
  Py.lstrip s = EmptyString
  ∨ ∃ c r, Py.lstrip s = String c r ∧ Py.isspace c = false.
Proof.
  induction s as [|c r IH]; [by left|]. simpl.
  destruct (Py.isspace c) eqn:Hc; [done|]. right. by exists c, r.
Qed.

Lemma rstrip_head (c : ascii) (r : string) :
  Py.isspace c = false → ∃ r', Py.rstrip (String c r) = String c r'.
Proof.
  intros Hc. simpl. destruct (Py.rstrip r); [rewrite Hc|]; eauto.
Qed.

(** [strip] has nothing left to strip. *)
Lemma strip_idem (s : string) : Py.strip (Py.strip s) = Py.strip s.
Proof.
  unfold Py.strip. destruct (lstrip_head s) as [->|(c & r & -> & Hc)]; [done|].
  destruct (rstrip_head c r Hc) as [r' Hr]. rewrite Hr. simpl. rewrite Hc.
  rewrite <- Hr. apply rstrip_idem.
Qed.

Lemma sub_len (a b : string) : sub a b → Py.len a ≤ Py.len b.
Proof.
  intros (pre & post & ->). rewrite !len_append.
  pose proof (len_nonneg pre). pose proof (len_nonneg post). lia.
Qed.

Lemma join_empty_cons (d : string) (r : list string) :
  Splitter.join EmptyString (d :: r) = d ++ Splitter.join EmptyString r.
Proof.
  destruct r as [|d' r']; [by rewrite append_nil_r|]. reflexivity.
Qed.

Lemma join_empty_app (a b : list string) :
  Splitter.join EmptyString (a ++ b)
  = Splitter.join EmptyString a ++ Splitter.join EmptyString b.
Proof.
  induction a as [|d a IH]; [done|].
  rewrite <- app_comm_cons, !join_empty_cons, IH. by rewrite append_assoc.
Qed.

Lemma join_empty_filter (l : list string) :
  Splitter.join EmptyString (filter (λ s, Splitter.nonempty s = true) l)
  = Splitter.join EmptyString l.
Proof.
  induction l as [|d l IH]; [done|].
  rewrite filter_cons, (join_empty_cons d l). destruct d as [|c d].
  - rewrite decide_False by done. by rewrite IH.
  - rewrite decide_True by done. by rewrite join_empty_cons, IH.
Qed.

Lemma join_empty_flat (sep : string) (ps : list string) :
  Splitter.join EmptyString (map (λ t, sep ++ t) ps) = flat sep ps.
Proof.
  induction ps as [|t r IH]; [done|].
  rewrite map_cons, join_empty_cons, IH. simpl. by rewrite append_assoc.
Qed.

(** The pieces of a text cut at a separator, put together again, are
    the text. *)
Lemma split_keep_join (sep text : string) :
  sep ≠ EmptyString →
  Splitter.join EmptyString (Splitter.split_keep sep text) = text.
Proof.
  intros Hsep. unfold Splitter.split_keep.
  destruct sep as [|c sep']; [done|].
  destruct (Splitter.split_go (String c sep') 0 text) as [p ps] eqn:Hgo.
  destruct (split_go_decomp _ _ _ _ _ Hsep Hgo) as (sk & Htext & Hlen).
  simpl in Hlen. destruct sk; [|done]. rewrite append_nil_l in Htext.
  by rewrite join_empty_filter, join_empty_cons, join_empty_flat.
Qed.

Section Fits.

Variables chunk_size chunk_overlap : Z.

(** Pieces that fit together in one chunk are merged into one. *)
Lemma merge_loop_fits (splits docs current_doc : list string) :
  total_len current_doc + total_len splits ≤ chunk_size →
  Splitter.merge_loop chunk_size chunk_overlap EmptyString splits docs current_doc
    (total_len current_doc)
  = inr (docs ++ Splitter.opt_list
                   (Splitter.join_docs EmptyString (current_doc ++ splits)))%list.
Proof.
  revert current_doc. induction splits as [|d rest IH]; intros current_doc Hfit.
  - simpl. by rewrite app_nil_r.
  - simpl in Hfit. simpl. rewrite ?sep_if_empty.
    pose proof (total_len_nonneg rest).
    rewrite (proj2 (Z.ltb_ge _ _)) by lia.
    replace (total_len current_doc + Py.len d + 0)
      with (total_len (current_doc ++ [d])) by (rewrite total_len_snoc; lia).
    rewrite IH by (rewrite total_len_snoc; lia).
    by rewrite <- app_assoc.
Qed.

Lemma merge_fits (good_splits : list string) :
  total_len good_splits ≤ chunk_size →
  Splitter.merge chunk_size chunk_overlap good_splits
  = inr (Splitter.opt_list (Splitter.join_docs EmptyString good_splits)).
Proof.
  intros Hfit. unfold Splitter.merge. destruct good_splits as [|g gs]; [done|].
  unfold Splitter.merge_splits.
  exact (merge_loop_fits (g :: gs) [] [] Hfit).
Qed.

(** Pieces that are all short are gathered and merged together. *)
Lemma gather_short recur (splits good_splits : list string) :
  Forall (λ s, Py.len s < chunk_size) splits →
  Splitter.gather chunk_size chunk_overlap recur splits good_splits
  = Splitter.merge chunk_size chunk_overlap (good_splits ++ splits).
Proof.
  revert good_splits. induction splits as [|s rest IH]; intros good_splits Hshort.
  - simpl. by rewrite app_nil_r.
  - apply Forall_cons in Hshort as [Hs Hrest]. simpl.
    rewrite (proj2 (Z.ltb_lt _ _)) by done.
    rewrite IH by done. by rewrite <- app_assoc.
Qed.

(** A short text cut at any separator comes back whole and stripped. *)
Lemma gather_short_text recur (sep text : string) :
  sep ≠ EmptyString → Py.len text < chunk_size →
  Splitter.gather chunk_size chunk_overlap recur (Splitter.split_keep sep text) []
  = inr (if Py.truthy (Py.strip text) then [Py.strip text] else []).
Proof.
  intros Hsep Hshort. rewrite gather_short; last first.
  { apply Forall_forall. intros piece Hin.
    pose proof (sub_len _ _ (split_keep_sub _ _ _ Hsep Hin)). lia. }
  rewrite app_nil_l, merge_fits; last first.
  { rewrite <- join_empty_len, split_keep_join by done. lia. }
  unfold Splitter.join_docs. rewrite split_keep_join by done.
  by destruct (Py.strip text).
Qed.

End Fits.

(** X9: a text shorter than the chunk size is not cut. It comes back as
    one chunk, the text without the white space at its ends, whatever
    separators it holds; a text of white space alone gives no chunk. *)
Theorem split_text_short (text : string)
  (Hshort : Py.len text < Document.chunk_size) :
  Document.split_text text
  = inr (if Py.truthy (Py.strip text) then [Py.strip text] else []).
Proof.
  assert (Hlevel : Splitter.split_text_with Document.chunk_size Document.chunk_overlap
                     Document.separators text
                   = inr (if Py.truthy (Py.strip text) then [Py.strip text] else [])).
  { change (Splitter.split_text_with Document.chunk_size Document.chunk_overlap
              Document.separators text)
      with (if Splitter.contains Document.paragraph_break text
            then Splitter.gather Document.chunk_size Document.chunk_overlap
                   (Some (Splitter.split_text_with Document.chunk_size
                            Document.chunk_overlap [Document.line_break; " "]))
                   (Splitter.split_keep Document.paragraph_break text) []
            else if Splitter.contains Document.line_break text
            then Splitter.gather Document.chunk_size Document.chunk_overlap
                   (Some (Splitter.split_text_with Document.chunk_size
                            Document.chunk_overlap [" "]))
                   (Splitter.split_keep Document.line_break text) []
            else Splitter.gather Document.chunk_size Document.chunk_overlap None
                   (Splitter.split_keep " " text) []).
    destruct (Splitter.contains Document.paragraph_break text);
      [|destruct (Splitter.contains Document.line_break text)];
      by apply gather_short_text. }
  unfold Document.split_text. rewrite Hlevel.
  destruct (Py.strip text) as [|c r] eqn:Hstrip; [done|].
  cbn [Py.truthy]. rewrite filter_cons, decide_True; [done|].
  rewrite <- Hstrip, strip_idem, Hstrip. done.
Qed.

Lemma split_text_short_witness :
  Document.split_text ("  one line" ++ Document.line_break ++ "and another  ")
  = inr ["one line" ++ Document.line_break ++ "and another"].
Proof.
  rewrite split_text_short by (vm_compute; reflexivity).
  vm_compute. reflexivity.
Defined.

(** ** Cleaning and listing the store *)

Lemma list_collections_ok (e : env) (w : world) :
  fault_list e = None →
  Client.list_collections e w
  = (inr (map fst (map_to_list (w_store w))),
     World (w_store w) (w_trace w ++ [EvList])).
Proof.
  intros Hlist. unfold Client.list_collections. unfold_M. by rewrite Hlist.
Qed.

Lemma connect_ok (e : env) (w : world) :
  fault_connect e = None →
  Client.HttpClient e w = (inr tt, World (w_store w) (w_trace w ++ [EvConnect])).
Proof.
  intros Hconnect. unfold Client.HttpClient. unfold_M. by rewrite Hconnect.
Qed.

Lemma filter_name_nil (names : list string) (name : string) :
  filter (λ c, c = name) names = [] ↔ name ∉ names.
Proof.
  induction names as [|n names IH].
  { split; [intros _; apply not_elem_of_nil | done]. }
  rewrite filter_cons, not_elem_of_cons. destruct (decide (n = name)) as [->|Hne].
  - split; [done | by intros [? _]].
  - rewrite IH. split; [done | by intros [_ ?]].
Qed.

Lemma delete_collection_cases (a : admin_env) (name : string) (w : world) :
  is_Some (w_store w !! name) →
  delete_collection a name w
  = match fault_delete a name with
    | None => (inr tt, World (delete name (w_store w)) (w_trace w))
    | Some x => (inl x, w)
    end.
Proof.
  intros [c Hc]. unfold delete_collection. unfold_M.
  destruct (fault_delete a name); [done|].
  simpl. by rewrite Hc.
Qed.

(** The store after the names of a list were deleted one by one. *)
Lemma delete_each_ok (a : admin_env) (names : list string) (s : store)
  (tr : list event) :
  NoDup names →
  (∀ n, n ∈ names → is_Some (s !! n) ∧ fault_delete a n = None) →
  ∃ s', delete_each a names (World s tr) = (inr tt, World s' tr)
        ∧ ∀ k, s' !! k = if decide (k ∈ names) then None else s !! k.
Proof.
  revert s. induction names as [|n names IH]; intros s Hnd Hall.
  - exists s. split; [done|]. intros k. by rewrite decide_False by apply not_elem_of_nil.
  - apply NoDup_cons in Hnd as [Hn Hnd].
    destruct (Hall n) as [Hsome Hfault]; [by left|].
    destruct (IH (delete n s) Hnd) as (s' & Hrun & Hlook).
    { intros m Hm. destruct (Hall m) as [Hs Hf]; [by right|]. split; [|done].
      rewrite lookup_delete_ne; [done|]. by intros ->. }
    exists s'. split.
    + cbn [delete_each]. unfold Chroma.bind at 1.
      rewrite (delete_collection_cases a n (World s tr) Hsome), Hfault.
      exact Hrun.
    + intros k. rewrite Hlook. destruct (decide (k = n)) as [->|Hne].
      * rewrite decide_False by done. rewrite decide_True by by left.
        apply lookup_delete_eq.
      * rewrite lookup_delete_ne by done.
        destruct (decide (k ∈ names)) as [Hin|Hout].
        -- by rewrite decide_True by by right.
        -- rewrite decide_False; [done|]. by intros [?|?]%elem_of_cons.
Qed.

(** X10: cleaning one collection. With a name that is not empty, the
    endpoint deletes the collection of that name and no other; a name
    the store does not hold is answered with a message and the store is
    left as it was; when the server refuses the deletion the answer is
    500 with the text of the error and, again, nothing is deleted. *)
Theorem clean_db_named (a : admin_env) (name : string) (w : world)
  (Hname : name ≠ EmptyString)
  (Hconnect : fault_connect (base a) = None)
  (Hlist : fault_list (base a) = None) :
  Api.clean_db a (Some name) w
  = match w_store w !! name, fault_delete a name with
    | None, _ =>
        (App.Ok (not_found_message name),
         World (w_store w) (w_trace w ++ [EvConnect; EvList]))
    | Some _, None =>
        (App.Ok (deleted_message name),
         World (delete name (w_store w)) (w_trace w ++ [EvConnect; EvList]))
    | Some _, Some x =>
        (App.HTTPException 500 (Py.exn_str x),
         World (w_store w) (w_trace w ++ [EvConnect; EvList]))
    end.
Proof.
  unfold Api.clean_db, connect_chromadb, clean_chromadb.
  unfold Chroma.bind at 1. rewrite connect_ok by done.
  unfold Chroma.bind at 1. rewrite list_collections_ok by done.
  cbn [w_store w_trace default]. unfold id. rewrite <- app_assoc. cbn [app].
  destruct name as [|c name']; [done|]. cbn [Py.truthy].
  set (name := String c name').
  set (w1 := World (w_store w) (w_trace w ++ [EvConnect; EvList])).
  destruct (w_store w !! name) as [coll|] eqn:Hc.
  - destruct (filter (λ c0, c0 = name) (map fst (map_to_list (w_store w))))
      as [|n ns] eqn:Hf.
    { apply filter_name_nil in Hf. exfalso. apply Hf, names_listed. eauto. }
    unfold Chroma.bind.
    rewrite (delete_collection_cases a name w1) by (simpl; eauto).
    by destruct (fault_delete a name).
  - destruct (filter (λ c0, c0 = name) (map fst (map_to_list (w_store w))))
      as [|n ns] eqn:Hf; [done|].
    assert (Hin : name ∈ map fst (map_to_list (w_store w))).
    { apply (list_elem_of_filter (λ c0, c0 = name)
               (map fst (map_to_list (w_store w))) name).
      rewrite Hf. assert (n ∈ n :: ns) as Hn by by left.
      rewrite <- Hf in Hn. apply list_elem_of_filter in Hn as [-> _].
      by left. }
    apply names_listed in Hin as [? Hin]. by rewrite Hc in Hin.
Qed.

Lemma clean_db_named_witness :
  let s : store := <[ "tickets" := Coll None [] ]> (<[ "notes" := Coll None [] ]> ∅) in
  fst (Api.clean_db (AdminEnv (quiet_env (ok_response [])) (λ _, None))
         (Some "notes") (World s []))
  = App.Ok (deleted_message "notes")
  ∧ w_store (snd (Api.clean_db (AdminEnv (quiet_env (ok_response [])) (λ _, None))
                    (Some "notes") (World s [])))
    = delete "notes" s.
Proof.
  cbv zeta.
  rewrite (clean_db_named (AdminEnv (quiet_env (ok_response [])) (λ _, None))
             "notes" _ ltac:(done) eq_refl eq_refl).
  split; reflexivity.
Defined.

(** X11: cleaning everything. Without a name, and also with the empty
    name, the endpoint deletes every collection of the store: nothing is
    left, and the message counts the collections there were. *)
Theorem clean_db_all (a : admin_env) (db_name : option string) (w : world)
  (Hfalsy : db_name = None ∨ db_name = Some EmptyString)
  (Hconnect : fault_connect (base a) = None)
  (Hlist : fault_list (base a) = None)
  (Hdelete : ∀ name, is_Some (w_store w !! name) → fault_delete a name = None) :
  Api.clean_db a db_name w
  = (App.Ok (deleted_all_message (size (w_store w))),
     World ∅ (w_trace w ++ [EvConnect; EvList])).
Proof.
  unfold Api.clean_db, connect_chromadb, clean_chromadb.
  unfold Chroma.bind at 1. rewrite connect_ok by done.
  unfold Chroma.bind at 1. rewrite list_collections_ok by done.
  cbn [w_store w_trace]. rewrite <- app_assoc. cbn [app].
  assert (Py.truthy (default EmptyString db_name) = false) as ->
    by by destruct Hfalsy as [-> | ->].
  destruct (delete_each_ok a (map fst (map_to_list (w_store w))) (w_store w)
              (w_trace w ++ [EvConnect; EvList])) as (s' & Hrun & Hlook).
  { apply NoDup_fst_map_to_list. }
  { intros n Hn%names_listed. split; [done|]. by apply Hdelete. }
  unfold Chroma.bind at 1. rewrite Hrun. unfold Chroma.ret.
  rewrite length_map, length_map_to_list.
  replace s' with (∅ : store); [done|].
  apply map_eq. intros k. rewrite lookup_empty, Hlook.
  destruct (decide (k ∈ map fst (map_to_list (w_store w)))) as [Hin|Hout]; [done|].
  destruct (w_store w !! k) eqn:Hk; [|done].
  exfalso. apply Hout, names_listed. eauto.
Qed.

Lemma clean_db_all_witness :
  let s : store := <[ "tickets" := Coll None [] ]> (<[ "notes" := Coll None [] ]> ∅) in
  Api.clean_db (AdminEnv (quiet_env (ok_response [])) (λ _, None))
    (Some EmptyString) (World s [])
  = (App.Ok "Deleted all collections (2 total)", World ∅ [EvConnect; EvList]).
Proof.
  cbv zeta.
  rewrite (clean_db_all (AdminEnv (quiet_env (ok_response [])) (λ _, None))
             (Some EmptyString) _ (or_intror eq_refl) eq_refl eq_refl
             (λ _ _, eq_refl)).
  reflexivity.
Defined.

(** X12: listing. The store serving the calls, the endpoint names every
    collection of the store, each once, and leaves the store as it
    is. *)
Theorem list_collections_endpoint (a : admin_env) (w : world)
  (Hconnect : fault_connect (base a) = None)
  (Hlist : fault_list (base a) = None) :
  ∃ names,
    Api.list_collections a w
    = (App.Ok names, World (w_store w) (w_trace w ++ [EvConnect; EvList]))
    ∧ NoDup names
    ∧ (∀ name, name ∈ names ↔ is_Some (w_store w !! name))
    ∧ List.length names = size (w_store w).
Proof.
  exists (map fst (map_to_list (w_store w))).
  unfold Api.list_collections, connect_chromadb, list_chromadb_collections.
  unfold Chroma.bind at 1. rewrite connect_ok by done.
  rewrite list_collections_ok by done.
  cbn [w_store w_trace]. rewrite <- app_assoc. cbn [app].
  split_and!; [done | apply NoDup_fst_map_to_list | apply names_listed |].
  by rewrite length_map, length_map_to_list.
Qed.

Lemma list_collections_endpoint_witness :
  let s : store := <[ "tickets" := Coll None [] ]> (<[ "notes" := Coll None [] ]> ∅) in
  ∃ names,
    fst (Api.list_collections (AdminEnv (quiet_env (ok_response [])) (λ _, None))
           (World s []))
    = App.Ok names
    ∧ "notes" ∈ names ∧ "tickets" ∈ names ∧ List.length names = 2%nat.
Proof.
  cbv zeta.
  destruct (list_collections_endpoint
              (AdminEnv (quiet_env (ok_response [])) (λ _, None))
              (World (<[ "tickets" := Coll None [] ]> (<[ "notes" := Coll None [] ]> ∅)) [])
              eq_refl eq_refl) as (names & Hrun & _ & Hin & Hlen).
  exists names. rewrite Hrun. split_and!; [done | | | ].
  - apply Hin. by eexists.
  - apply Hin. by eexists.
  - rewrite Hlen. reflexivity.
Defined.

(** ** Uploaded documents *)

Lemma append_inj_r (a b c : string) : a ++ b = a ++ c → b = c.
Proof.
  induction a as [|x a IH]; [done|]. rewrite !append_cons. intros [= H]. by apply IH.
Qed.

(** The ids of the chunks of one source are pairwise distinct. *)
Lemma chunk_ids_NoDup (source_name : string) (n : nat) :
  NoDup (map (λ i, source_name ++ "_" ++ Py.str_nat i) (seq 0 n)).
Proof.
  apply NoDup_fmap_2; [|apply NoDup_seq].
  intros i j Hij. by apply str_nat_inj, (append_inj_r "_"), (append_inj_r source_name).
Qed.

Lemma zip_chunk_records (source_name : string) (chunks : list string) (k : nat) :
  let rs := Client.zip_records
              (map (λ i, source_name ++ "_" ++ Py.str_nat i) (seq k (List.length chunks)))
              chunks
              (map (λ _, ({[ "source" := VStr source_name ]} : metadata)) chunks) in
  List.length rs = List.length chunks
  ∧ ∀ i chunk, chunks !! i = Some chunk →
      rs !! i = Some (Rec (source_name ++ "_" ++ Py.str_nat (k + i)) chunk
                        {[ "source" := VStr source_name ]}).
Proof.
  revert k. induction chunks as [|c chunks IH]; intros k; [done|].
  destruct (IH (S k)) as [Hlen Hlook]. cbn zeta in *. split.
  - simpl. by rewrite Hlen.
  - intros [|i] chunk Hi.
    + simpl in Hi. injection Hi as <-. simpl. by rewrite Nat.add_0_r.
    + simpl in Hi. simpl. rewrite (Hlook i chunk Hi).
      by replace (S k + i)%nat with (k + S i)%nat by lia.
Qed.

(** The batch of the chunks of one source passes the checks of the
    client, unless there is no chunk. *)
Lemma chunk_batch_valid (source_name : string) (chunks : list string) :
  chunks ≠ [] →
  Client.validate_add
    (map (λ i, source_name ++ "_" ++ Py.str_nat i) (seq 0 (List.length chunks)))
    chunks (map (λ _, ({[ "source" := VStr source_name ]} : metadata)) chunks)
  = None.
Proof.
  intros Hne. unfold Client.validate_add.
  rewrite bool_decide_eq_false_2 by (by destruct chunks).
  rewrite bool_decide_eq_true_2 by apply chunk_ids_NoDup. cbn [negb].
  rewrite !length_map, length_seq, Nat.eqb_refl. cbn [andb negb].
  replace (forallb Client.metadata_allowed
             (map (λ _, ({[ "source" := VStr source_name ]} : metadata)) chunks))
    with true; [done|].
  symmetry. apply forallb_forall. intros m (c & <- & _)%in_map_iff.
  apply metadata_allowed_spec. split.
  - apply map_non_empty_singleton.
  - intros k v [_ <-]%lookup_singleton_Some. done.
Qed.

Lemma store_chunks_ok (e : env) (chunks : list string) (source_name name : string)
  (w : world) :
  chunks ≠ [] →
  fault_get_or_create e = None → fault_add e = None →
  ∃ md new,
    Document.store_chunks e chunks source_name name w
    = (inr (Document.StoreSummary source_name (List.length chunks) name),
       World (<[name := Coll md (records_of (w_store w) name
                                  ++ fresh_records (records_of (w_store w) name) new)]>
                (w_store w))
             (w_trace w
              ++ [EvGetOrCreate name (Some Document.documents_metadata);
                  EvAdd name (map (λ i, source_name ++ "_" ++ Py.str_nat i)
                                (seq 0 (List.length chunks)))]))
    ∧ chunk_records source_name chunks new.
Proof.
  intros Hne Hgoc Hadd. unfold Document.store_chunks. unfold Chroma.bind at 1.
  pose proof (chunk_batch_valid source_name chunks Hne) as Hvalid.
  destruct (w_store w !! name) as [c|] eqn:Hc.
  - rewrite (get_or_create_existing e name _ w c Hc), Hgoc.
    eexists _, _. split; [|apply (zip_chunk_records source_name chunks 0)].
    unfold Chroma.bind at 1. rewrite add_cases, Hvalid, Hadd.
    cbn [h_name w_store w_trace]. rewrite Hc. unfold Chroma.ret.
    unfold records_of, fresh_records. rewrite Hc. by rewrite <- app_assoc.
  - rewrite (get_or_create_absent e name _ w Hc), Hgoc.
    eexists _, _. split; [|apply (zip_chunk_records source_name chunks 0)].
    unfold Chroma.bind at 1. rewrite add_cases, Hvalid, Hadd.
    cbn [h_name w_store w_trace]. rewrite lookup_insert_eq. unfold Chroma.ret.
    cbn [coll_records coll_metadata].
    unfold records_of, fresh_records. rewrite Hc, insert_insert_eq.
    by rewrite <- app_assoc.
Qed.

(** X13: one document stored. A file named [*.pdf] whose pages were read
    and give at least one chunk, the store serving the calls: the
    endpoint answers with the base name of the file as source, the
    number of chunks and the collection [documentation]; the store was
    asked once for the collection and given one [add] whose ids,
    [source_0], [source_1], ..., are pairwise distinct; a collection that
    held no record holds the chunks in order, each under its id and with
    the source as its metadata. *)
Theorem sync_pdf_stored (e : env) (file : Api.upload) (w : world)
  (pages chunks : list string)
  (Hname : Api.is_pdf_name (Api.filename file) = true)
  (Hpages : Api.content file = inr pages)
  (Hchunks : Document.split_text (Splitter.join Document.paragraph_break pages)
             = inr chunks)
  (Hsome : chunks ≠ [])
  (Hconnect : fault_connect e = None)
  (Hgoc : fault_get_or_create e = None)
  (Hadd : fault_add e = None) :
  ∃ ids new w',
    Api.sync_pdf e file w
    = (App.Ok (Document.StoreSummary (Api.basename (Api.filename file))
                 (List.length chunks) "documentation"), w')
    ∧ w_trace w'
      = (w_trace w
         ++ [EvConnect;
             EvGetOrCreate "documentation" (Some Document.documents_metadata);
             EvAdd "documentation" ids])%list
    ∧ List.length ids = List.length chunks
    ∧ NoDup ids
    ∧ chunk_records (Api.basename (Api.filename file)) chunks new
    ∧ (records_of (w_store w) "documentation" = [] →
       records_of (w_store w') "documentation" = new).
Proof.
  unfold Api.sync_pdf, Pdf.sync_pdf. rewrite Hname. cbn [negb].
  unfold Pdf.extract_text. rewrite Hpages.
  unfold Chroma.bind at 1. unfold Chroma.lift at 1.
  unfold Chroma.bind at 1. unfold Chroma.lift at 1. rewrite Hchunks.
  unfold Chroma.bind at 1. rewrite connect_ok by done.
  destruct (store_chunks_ok e chunks (Api.basename (Api.filename file))
              Pdf.default_collection
              (World (w_store w) (w_trace w ++ [EvConnect])) Hsome Hgoc Hadd)
    as (md & new & -> & Hnew).
  eexists _, new, _. split; [reflexivity|].
  cbn [w_store w_trace]. split_and!.
  - by rewrite <- app_assoc.
  - by rewrite length_map, length_seq.
  - apply chunk_ids_NoDup.
  - done.
  - intros Hempty. unfold records_of at 1.
    change Pdf.default_collection with "documentation".
    rewrite lookup_insert_eq. cbn [coll_records].
    change Pdf.default_collection with "documentation". rewrite Hempty.
    apply filter_fresh_nil.
Qed.

Lemma sync_pdf_stored_witness :
  ∃ ids : list string,
    w_trace (snd (Api.sync_pdf (quiet_env (ok_response []))
                    (Api.Upload "manuals/printer.pdf" (inr ["page one"; "page two"]))
                    empty_world))
    = [EvConnect; EvGetOrCreate "documentation" (Some Document.documents_metadata);
       EvAdd "documentation" ids]
    ∧ NoDup ids.
Proof.
  destruct (sync_pdf_stored (quiet_env (ok_response []))
              (Api.Upload "manuals/printer.pdf" (inr ["page one"; "page two"]))
              empty_world ["page one"; "page two"]
              ["page one" ++ Document.paragraph_break ++ "page two"]
              ltac:(vm_compute; reflexivity) eq_refl
              ltac:(vm_compute; reflexivity) ltac:(done) eq_refl eq_refl eq_refl)
    as (ids & new & w' & Hrun & Htr & _ & Hnd & _).
  exists ids. rewrite Hrun. split; [exact Htr | exact Hnd].
Defined.

(** What is reported for one file. *)
Lemma process_file_report (file : Api.upload) (e : env) (w : world) :
  let r := fst (Api.process_file file e w) in
  Api.report_name r = Api.filename file
  ∧ (Api.is_pdf_name (Api.filename file) = false →
     Api.process_file file e w = (Api.Skipped (Api.filename file) "Not a PDF", w))
  ∧ (∀ x, Api.is_pdf_name (Api.filename file) = true → Api.content file = inl x →
       Api.process_file file e w = (Api.Failed (Api.filename file) (Py.exn_str x), w)).
Proof.
  cbn zeta. unfold Api.process_file.
  destruct (Api.is_pdf_name (Api.filename file)); cbn [negb]; [|done].
  split_and!; [|done|].
  - match goal with
    | |- context [match ?m with _ => _ end] => by destruct m as [[x|s] w']
    end.
  - intros x _ Hx. unfold Pdf.extract_text. rewrite Hx. reflexivity.
Qed.

Lemma process_files_reports (files : list (Api.upload * env)) (w : world) :
  List.length (fst (Api.process_files files w)) = List.length files
  ∧ (∀ i file env, files !! i = Some (file, env) →
       ∃ r, fst (Api.process_files files w) !! i = Some r
            ∧ Api.report_name r = Api.filename file
            ∧ (Api.is_pdf_name (Api.filename file) = false →
               r = Api.Skipped (Api.filename file) "Not a PDF")
            ∧ (∀ x, Api.is_pdf_name (Api.filename file) = true →
                 Api.content file = inl x →
                 r = Api.Failed (Api.filename file) (Py.exn_str x)))
  ∧ (Forall (λ fe, Api.is_pdf_name (Api.filename (fst fe)) = false) files →
     snd (Api.process_files files w) = w).
Proof.
  revert w. induction files as [|[file e] rest IH]; intros w.
  - split_and!; [done | by intros i file env Hi | done].
  - cbn [Api.process_files].
    destruct (process_file_report file e w) as (Hn & Hskip & Hfail). cbn zeta in Hn.
    destruct (Api.process_file file e w) as [r w1] eqn:Hr.
    destruct (IH w1) as (Hlen & Hlook & Hsame).
    destruct (Api.process_files rest w1) as [rs w2] eqn:Hrs.
    cbn [fst snd] in *. split_and!.
    + simpl. by rewrite Hlen.
    + intros [|i] file' env' Hi.
      * injection Hi as <- <-. exists r. split_and!; [done | done | |].
        -- intros Hno. by injection (Hskip Hno) as ->.
        -- intros x Hyes Hx. by injection (Hfail x Hyes Hx) as ->.
      * by apply (Hlook i file' env').
    + intros [Hno Hrest]%Forall_cons. cbn [fst] in Hno.
      injection (Hskip Hno) as _ <-. by apply Hsame.
Qed.

(** A file that is skipped leaves the world as it is: the calls made
    for an upload are those made for its files named [*.pdf]. *)
Lemma process_files_skip (files : list (Api.upload * env)) (w : world) :
  snd (Api.process_files files w) = snd (Api.process_files (pdf_uploads files) w).
Proof.
  revert w. induction files as [|[file e] rest IH]; intros w; [done|].
  unfold pdf_uploads. rewrite filter_cons. cbn [fst].
  destruct (process_file_report file e w) as (_ & Hskip & _).
  destruct (Api.is_pdf_name (Api.filename file)) eqn:Hname.
  - rewrite decide_True by done. cbn [Api.process_files].
    destruct (Api.process_file file e w) as [r w1].
    specialize (IH w1). unfold pdf_uploads in IH.
    destruct (Api.process_files rest w1) as [rs w2].
    destruct (Api.process_files (filter _ rest) w1) as [rs' w2'].
    exact IH.
  - rewrite decide_False by done. cbn [Api.process_files].
    rewrite (Hskip eq_refl). specialize (IH w). unfold pdf_uploads in IH.
    destruct (Api.process_files rest w) as [rs w2]. exact IH.
Qed.

(** X14: several documents. With at least one file and the connection
    made, the endpoint answers with one report per file, in the order of
    the upload and under the name of the file: a file not named [*.pdf]
    is reported as skipped, a PDF that cannot be read as failed with the
    text of the error, and the files after it are still processed. A
    file that is skipped costs no call to the store: the store and the
    calls made are those of the same upload without the skipped files,
    and an upload of skipped files only makes the connection and nothing
    else. *)
Theorem sync_multiple_reports (e : env) (files : list (Api.upload * env)) (w : world)
  (Hfiles : files ≠ [])
  (Hconnect : fault_connect e = None) :
  ∃ results w',
    Api.sync_multiple e files w = (inr (App.Ok results), w')
    ∧ List.length results = List.length files
    ∧ (∀ i file env, files !! i = Some (file, env) →
         ∃ r, results !! i = Some r
              ∧ Api.report_name r = Api.filename file
              ∧ (Api.is_pdf_name (Api.filename file) = false →
                 r = Api.Skipped (Api.filename file) "Not a PDF")
              ∧ (∀ x, Api.is_pdf_name (Api.filename file) = true →
                   Api.content file = inl x →
                   r = Api.Failed (Api.filename file) (Py.exn_str x)))
    ∧ w' = snd (Api.process_files (pdf_uploads files)
                  (World (w_store w) (w_trace w ++ [EvConnect])))
    ∧ (Forall (λ fe, Api.is_pdf_name (Api.filename (fst fe)) = false) files →
       w' = World (w_store w) (w_trace w ++ [EvConnect])).
Proof.
  unfold Api.sync_multiple. destruct files as [|f fs]; [done|].
  rewrite connect_ok by done.
  pose proof (process_files_reports (f :: fs)
                (World (w_store w) (w_trace w ++ [EvConnect]))) as (Hlen & Hlook & Hsame).
  pose proof (process_files_skip (f :: fs)
                (World (w_store w) (w_trace w ++ [EvConnect]))) as Hskip.
  destruct (Api.process_files (f :: fs) _) as [results w'].
  exists results, w'. cbn [fst snd] in *. done.
Qed.

Lemma sync_multiple_reports_witness :
  let e := quiet_env (ok_response []) in
  ∃ results,
    fst (Api.sync_multiple e
           [(Api.Upload "notes.txt" (inr []), e);
            (Api.Upload "broken.pdf" (inl (Py.Exn Py.OtherException "cannot open")), e);
            (Api.Upload "guide.pdf" (inr ["some text"]), e)] empty_world)
    = inr (App.Ok results)
    ∧ List.length results = 3%nat
    ∧ results !! 0%nat = Some (Api.Skipped "notes.txt" "Not a PDF")
    ∧ results !! 1%nat = Some (Api.Failed "broken.pdf" "cannot open")
    ∧ snd (Api.sync_multiple e
             [(Api.Upload "notes.txt" (inr []), e);
              (Api.Upload "broken.pdf" (inl (Py.Exn Py.OtherException "cannot open")), e);
              (Api.Upload "guide.pdf" (inr ["some text"]), e)] empty_world)
      = snd (Api.sync_multiple e
               [(Api.Upload "broken.pdf" (inl (Py.Exn Py.OtherException "cannot open")), e);
                (Api.Upload "guide.pdf" (inr ["some text"]), e)] empty_world).
Proof.
  cbv zeta.
  destruct (sync_multiple_reports (quiet_env (ok_response []))
              [(Api.Upload "notes.txt" (inr []), quiet_env (ok_response []));
               (Api.Upload "broken.pdf" (inl (Py.Exn Py.OtherException "cannot open")),
                quiet_env (ok_response []));
               (Api.Upload "guide.pdf" (inr ["some text"]), quiet_env (ok_response []))]
              empty_world ltac:(done) eq_refl)
    as (results & w' & Hrun & Hlen & Hlook & Hcost & _).
  exists results. rewrite Hrun. split_and!; [done | exact Hlen | | |].
  - destruct (Hlook 0%nat _ _ eq_refl) as (r & Hr & _ & Hskip & _).
    rewrite Hr. f_equal. apply Hskip. reflexivity.
  - destruct (Hlook 1%nat _ _ eq_refl) as (r & Hr & _ & _ & Hfail).
    rewrite Hr. f_equal. apply (Hfail _ eq_refl eq_refl).
  - cbn [snd]. rewrite Hcost. reflexivity.
Defined.

(** ** The endpoints over the checkpoint and the run *)

Lemma stored_checkpoint_exists (s : store) (v : value) :
  stored_checkpoint s = Some v → is_Some (s !! Incident.collection_name).
Proof.
  unfold stored_checkpoint, ticket_metadata_key, metadata_of.
  by destruct (s !! Incident.collection_name).
Qed.

Lemma get_last_update_time_ok (e : env) (w : world) (c : collection) :
  fault_connect e = None → fault_get_or_create e = None →
  w_store w !! Incident.collection_name = Some c →
  App.get_last_update_time e w
  = (App.Ok (App.LastUpdateBody (default VNone (stored_checkpoint (w_store w)))
               (now_isoformat e)),
     World (w_store w)
           (w_trace w ++ [EvConnect; EvGetOrCreate Incident.collection_name None])).
Proof.
  intros Hconnect Hgoc Hc.
  unfold App.get_last_update_time, Incident.fetch_db_client.
  unfold Chroma.bind at 1. rewrite connect_ok by done.
  unfold Chroma.bind at 1.
  erewrite get_or_create_existing by (simpl; exact Hc). rewrite Hgoc.
  unfold Chroma.ret. cbn [w_store w_trace].
  rewrite (stored_checkpoint_lookup _ c Hc), <- app_assoc. reflexivity.
Qed.

(** X15: the checkpoint written is the checkpoint read. After the update
    endpoint has answered with success, the read endpoint returns the
    very string that was sent, without changing the store, and the next
    run takes that string as its cut-off. *)
Theorem update_then_get (e e' : env) (payload : gmap string value)
  (w w' : world) (body : App.update_body)
  (Hok : App.update_last_update_time e payload w = (App.Ok body, w'))
  (Hconnect : fault_connect e' = None)
  (Hgoc : fault_get_or_create e' = None) :
  fst (App.get_last_update_time e' w')
  = App.Ok (App.LastUpdateBody (VStr (App.up_last_update_time body)) (now_isoformat e'))
  ∧ w_store (snd (App.get_last_update_time e' w')) = w_store w'
  ∧ checkpoint_in_force (w_store w') = VStr (App.up_last_update_time body).
Proof.
  destruct (update_ok_inv e payload w w' body Hok) as (_ & (d & Hd & _) & Hck).
  destruct (stored_checkpoint_exists _ _ Hck) as [c Hc].
  rewrite (get_last_update_time_ok e' w' c Hconnect Hgoc Hc), Hck.
  split_and!; [done | done |].
  unfold checkpoint_in_force. rewrite Hck. cbn [default].
  apply effective_cutoff_saved. by apply strptime_nonempty in Hd.
Qed.

Lemma update_then_get_witness :
  let e := quiet_env (ok_response []) in
  let w' := snd (App.update_last_update_time e (payload_of "2025-07-03 15:16:53")
                   empty_world) in
  fst (App.get_last_update_time e w')
  = App.Ok (App.LastUpdateBody (VStr "2025-07-03 15:16:53") "2025-07-04T10:00:00").
Proof.
  cbv zeta.
  refine (proj1 (update_then_get (quiet_env (ok_response [])) (quiet_env (ok_response []))
    (payload_of "2025-07-03 15:16:53") empty_world _
    (App.UpdateBody "Last update time updated successfully" "2025-07-03 15:16:53"
       "2025-07-04T10:00:00") _ eq_refl eq_refl)).
  vm_compute. reflexivity.
Defined.

(** X16: the answer of [POST /sync-tickets]. The endpoint answers 200 with
    the result of the run exactly when no call of the run raised; the
    result then says [success]. When a call raised [x], the answer is 500
    and its detail wraps the text of [x] twice: the run turns it into
    its failure message, the handler raises an [HTTPException] with that
    message, catches it itself and raises another one around its
    text. *)
Theorem sync_tickets_endpoint (str_http_exception : Z → string → string)
  (e : env) (w : world) :
  Api.sync_tickets str_http_exception e w
  = match Incident.sync_body e w with
    | (inr r, w') => (App.Ok r, w')
    | (inl x, w') =>
        (App.HTTPException 500
           ("Unexpected error during ticket sync: "
            ++ str_http_exception 500 ("Error during ticket sync: " ++ Py.exn_str x)),
         w')
    end
  ∧ ∀ r w', Incident.sync_body e w = (inr r, w') → Incident.success r = true.
Proof.
  assert (Hsucc : ∀ r w', Incident.sync_body e w = (inr r, w') →
                          Incident.success r = true).
  { intros r w' Hrun.
    destruct (sync_body_cases e w) as (r0 & w0 & evs & Hrun0 & _ & Hcase).
    rewrite Hrun in Hrun0. injection Hrun0 as <- <-.
    destruct Hcase as [(_ & _ & Hres)|(pre & ids & latest & t & _ & _ & _ & _ & _ & Hres & _)].
    - by destruct (Hres r eq_refl) as [-> _].
    - by injection Hres as ->. }
  split; [|exact Hsucc].
  unfold Api.sync_tickets. rewrite sync_tickets_unfold.
  destruct (Incident.sync_body e w) as [[x|r] w'] eqn:Hrun; [done|].
  by rewrite (Hsucc r w' eq_refl).
Qed.
